(** * BAOCAOTL: spreadsheet reconciliation and similarity classification

    A shallow embedding of the pure core of the application:
    [services/fileProcessor] (text normalizer, header locator, column
    resolver, main-roster aggregator, ratio merger, direct-read path,
    conclusion presentation, effective project type) and the classifier of
    [App.tsx].  The ECMAScript operations the code relies on are modelled in
    [Module JS]; the functions of the repository follow, under their own
    names, in [Module FileProcessor] and [Module App]. *)

From Stdlib Require Import String Ascii.
From Stdlib Require Import List Bool Arith NArith ZArith QArith Lia Lqa.
From Stdlib Require Import Permutation Sorted DecimalPos DecimalN.
Import ListNotations.
Close Scope Q_scope.
Open Scope list_scope.

Set Implicit Arguments.

(* ================================================================= *)
(** * The ECMAScript fragment used by the code *)

Module JS.

(** ** Strings

    A JavaScript string is a sequence of UTF-16 code units. *)

Definition jsstring := list N.

Fixpoint str_eqb (a b : jsstring) : bool :=
  match a, b with
  | [], [] => true
  | x :: a', y :: b' => (x =? y)%N && str_eqb a' b'
  | _, _ => false
  end.

(** String literals of the source are written as UTF-8 text and decoded
    into code units (characters above U+FFFF become a surrogate pair). *)
Fixpoint utf8 (bs : list N) : jsstring :=
  match bs with
  | [] => []
  | b0 :: r0 =>
    if (b0 <? 0x80)%N then b0 :: utf8 r0
    else match r0 with
    | [] => [b0]
    | b1 :: r1 =>
      if (b0 <? 0xE0)%N then
        N.lor (N.shiftl (N.land b0 0x1F) 6) (N.land b1 0x3F) :: utf8 r1
      else match r1 with
      | [] => [b0; b1]
      | b2 :: r2 =>
        if (b0 <? 0xF0)%N then
          N.lor (N.shiftl (N.land b0 0x0F) 12)
                (N.lor (N.shiftl (N.land b1 0x3F) 6) (N.land b2 0x3F)) :: utf8 r2
        else match r2 with
        | [] => [b0; b1; b2]
        | b3 :: r3 =>
          let cp := N.lor (N.shiftl (N.land b0 0x07) 18)
                   (N.lor (N.shiftl (N.land b1 0x3F) 12)
                   (N.lor (N.shiftl (N.land b2 0x3F) 6) (N.land b3 0x3F))) in
          let v := (cp - 0x10000)%N in
          (0xD800 + N.shiftr v 10)%N :: (0xDC00 + N.land v 0x3FF)%N :: utf8 r3
        end
      end
    end
  end.

Definition lit (s : string) : jsstring :=
  utf8 (map N_of_ascii (list_ascii_of_string s)).

(** [s.startsWith(p)] *)
Fixpoint startsWith (s p : jsstring) : bool :=
  match p, s with
  | [], _ => true
  | _ :: _, [] => false
  | y :: p', x :: s' => (x =? y)%N && startsWith s' p'
  end.

(** [s.includes(p)]: [p] occurs in [s] as a substring. *)
Fixpoint includes (s p : jsstring) : bool :=
  startsWith s p ||
  match s with
  | [] => false
  | _ :: s' => includes s' p
  end.

(** White space and line terminators, the code units [trim] and the
    numeric parsers skip. *)
Definition isWhiteSpace (c : N) : bool :=
  ((9 <=? c) && (c <=? 13) || (c =? 32) || (c =? 0xA0) || (c =? 0x1680)
   || (0x2000 <=? c) && (c <=? 0x200A) || (c =? 0x2028) || (c =? 0x2029)
   || (c =? 0x202F) || (c =? 0x205F) || (c =? 0x3000) || (c =? 0xFEFF))%N.

Fixpoint trimStart (s : jsstring) : jsstring :=
  match s with
  | c :: s' => if isWhiteSpace c then trimStart s' else s
  | [] => []
  end.

Definition trimEnd (s : jsstring) : jsstring := rev (trimStart (rev s)).

(** [s.trim()] *)
Definition trim (s : jsstring) : jsstring := trimEnd (trimStart s).

(** [s.replace(c, d)] for one-character strings [c] and [d]: only the
    first occurrence is replaced. *)
Fixpoint replaceFirst (c d : N) (s : jsstring) : jsstring :=
  match s with
  | [] => []
  | x :: s' => if (x =? c)%N then d :: s' else x :: replaceFirst c d s'
  end.

Definition isDigit (c : N) : bool := ((48 <=? c) && (c <=? 57))%N.
Definition isLower (c : N) : bool := ((97 <=? c) && (c <=? 122))%N.
Definition isUpper (c : N) : bool := ((65 <=? c) && (c <=? 90))%N.

(** [s.toLowerCase()].  The code units that lower-casing sends to an ASCII
    letter or to U+0111 are A-Z, U+0110, U+0130 and U+212A; the lower-case
    form of any other code unit lies outside [a-z0-9] and U+0111, which is
    all the callers observe, and is left as it is. *)
Definition lowerUnit (c : N) : jsstring :=
  if isUpper c then [(c + 32)%N]
  else if (c =? 0x110)%N then [0x111%N]
  else if (c =? 0x130)%N then [0x69%N; 0x307%N]
  else if (c =? 0x212A)%N then [0x6B%N]
  else [c].

Definition toLowerCase (s : jsstring) : jsstring := flat_map lowerUnit s.

(** [s.toUpperCase()] on the keys it is applied to (ASCII letters and
    digits); other code units are left as they are. *)
Definition toUpperCase (s : jsstring) : jsstring :=
  map (fun c => if isLower c then (c - 32)%N else c) s.

(** Canonical decomposition.  The table lists every code point whose
    canonical decomposition contains an ASCII letter: the base letter
    followed by its combining marks. *)
Definition decomposition_table : list (N * jsstring) := Eval cbv in
 [
  (0xC0, [0x41; 0x300]); (0xC1, [0x41; 0x301]); (0xC2, [0x41; 0x302]); (0xC3, [0x41; 0x303]);
  (0xC4, [0x41; 0x308]); (0xC5, [0x41; 0x30A]); (0xC7, [0x43; 0x327]); (0xC8, [0x45; 0x300]);
  (0xC9, [0x45; 0x301]); (0xCA, [0x45; 0x302]); (0xCB, [0x45; 0x308]); (0xCC, [0x49; 0x300]);
  (0xCD, [0x49; 0x301]); (0xCE, [0x49; 0x302]); (0xCF, [0x49; 0x308]); (0xD1, [0x4E; 0x303]);
  (0xD2, [0x4F; 0x300]); (0xD3, [0x4F; 0x301]); (0xD4, [0x4F; 0x302]); (0xD5, [0x4F; 0x303]);
  (0xD6, [0x4F; 0x308]); (0xD9, [0x55; 0x300]); (0xDA, [0x55; 0x301]); (0xDB, [0x55; 0x302]);
  (0xDC, [0x55; 0x308]); (0xDD, [0x59; 0x301]); (0xE0, [0x61; 0x300]); (0xE1, [0x61; 0x301]);
  (0xE2, [0x61; 0x302]); (0xE3, [0x61; 0x303]); (0xE4, [0x61; 0x308]); (0xE5, [0x61; 0x30A]);
  (0xE7, [0x63; 0x327]); (0xE8, [0x65; 0x300]); (0xE9, [0x65; 0x301]); (0xEA, [0x65; 0x302]);
  (0xEB, [0x65; 0x308]); (0xEC, [0x69; 0x300]); (0xED, [0x69; 0x301]); (0xEE, [0x69; 0x302]);
  (0xEF, [0x69; 0x308]); (0xF1, [0x6E; 0x303]); (0xF2, [0x6F; 0x300]); (0xF3, [0x6F; 0x301]);
  (0xF4, [0x6F; 0x302]); (0xF5, [0x6F; 0x303]); (0xF6, [0x6F; 0x308]); (0xF9, [0x75; 0x300]);
  (0xFA, [0x75; 0x301]); (0xFB, [0x75; 0x302]); (0xFC, [0x75; 0x308]); (0xFD, [0x79; 0x301]);
  (0xFF, [0x79; 0x308]); (0x100, [0x41; 0x304]); (0x101, [0x61; 0x304]); (0x102, [0x41; 0x306]);
  (0x103, [0x61; 0x306]); (0x104, [0x41; 0x328]); (0x105, [0x61; 0x328]); (0x106, [0x43; 0x301]);
  (0x107, [0x63; 0x301]); (0x108, [0x43; 0x302]); (0x109, [0x63; 0x302]); (0x10A, [0x43; 0x307]);
  (0x10B, [0x63; 0x307]); (0x10C, [0x43; 0x30C]); (0x10D, [0x63; 0x30C]); (0x10E, [0x44; 0x30C]);
  (0x10F, [0x64; 0x30C]); (0x112, [0x45; 0x304]); (0x113, [0x65; 0x304]); (0x114, [0x45; 0x306]);
  (0x115, [0x65; 0x306]); (0x116, [0x45; 0x307]); (0x117, [0x65; 0x307]); (0x118, [0x45; 0x328]);
  (0x119, [0x65; 0x328]); (0x11A, [0x45; 0x30C]); (0x11B, [0x65; 0x30C]); (0x11C, [0x47; 0x302]);
  (0x11D, [0x67; 0x302]); (0x11E, [0x47; 0x306]); (0x11F, [0x67; 0x306]); (0x120, [0x47; 0x307]);
  (0x121, [0x67; 0x307]); (0x122, [0x47; 0x327]); (0x123, [0x67; 0x327]); (0x124, [0x48; 0x302]);
  (0x125, [0x68; 0x302]); (0x128, [0x49; 0x303]); (0x129, [0x69; 0x303]); (0x12A, [0x49; 0x304]);
  (0x12B, [0x69; 0x304]); (0x12C, [0x49; 0x306]); (0x12D, [0x69; 0x306]); (0x12E, [0x49; 0x328]);
  (0x12F, [0x69; 0x328]); (0x130, [0x49; 0x307]); (0x134, [0x4A; 0x302]); (0x135, [0x6A; 0x302]);
  (0x136, [0x4B; 0x327]); (0x137, [0x6B; 0x327]); (0x139, [0x4C; 0x301]); (0x13A, [0x6C; 0x301]);
  (0x13B, [0x4C; 0x327]); (0x13C, [0x6C; 0x327]); (0x13D, [0x4C; 0x30C]); (0x13E, [0x6C; 0x30C]);
  (0x143, [0x4E; 0x301]); (0x144, [0x6E; 0x301]); (0x145, [0x4E; 0x327]); (0x146, [0x6E; 0x327]);
  (0x147, [0x4E; 0x30C]); (0x148, [0x6E; 0x30C]); (0x14C, [0x4F; 0x304]); (0x14D, [0x6F; 0x304]);
  (0x14E, [0x4F; 0x306]); (0x14F, [0x6F; 0x306]); (0x150, [0x4F; 0x30B]); (0x151, [0x6F; 0x30B]);
  (0x154, [0x52; 0x301]); (0x155, [0x72; 0x301]); (0x156, [0x52; 0x327]); (0x157, [0x72; 0x327]);
  (0x158, [0x52; 0x30C]); (0x159, [0x72; 0x30C]); (0x15A, [0x53; 0x301]); (0x15B, [0x73; 0x301]);
  (0x15C, [0x53; 0x302]); (0x15D, [0x73; 0x302]); (0x15E, [0x53; 0x327]); (0x15F, [0x73; 0x327]);
  (0x160, [0x53; 0x30C]); (0x161, [0x73; 0x30C]); (0x162, [0x54; 0x327]); (0x163, [0x74; 0x327]);
  (0x164, [0x54; 0x30C]); (0x165, [0x74; 0x30C]); (0x168, [0x55; 0x303]); (0x169, [0x75; 0x303]);
  (0x16A, [0x55; 0x304]); (0x16B, [0x75; 0x304]); (0x16C, [0x55; 0x306]); (0x16D, [0x75; 0x306]);
  (0x16E, [0x55; 0x30A]); (0x16F, [0x75; 0x30A]); (0x170, [0x55; 0x30B]); (0x171, [0x75; 0x30B]);
  (0x172, [0x55; 0x328]); (0x173, [0x75; 0x328]); (0x174, [0x57; 0x302]); (0x175, [0x77; 0x302]);
  (0x176, [0x59; 0x302]); (0x177, [0x79; 0x302]); (0x178, [0x59; 0x308]); (0x179, [0x5A; 0x301]);
  (0x17A, [0x7A; 0x301]); (0x17B, [0x5A; 0x307]); (0x17C, [0x7A; 0x307]); (0x17D, [0x5A; 0x30C]);
  (0x17E, [0x7A; 0x30C]); (0x1A0, [0x4F; 0x31B]); (0x1A1, [0x6F; 0x31B]); (0x1AF, [0x55; 0x31B]);
  (0x1B0, [0x75; 0x31B]); (0x1CD, [0x41; 0x30C]); (0x1CE, [0x61; 0x30C]); (0x1CF, [0x49; 0x30C]);
  (0x1D0, [0x69; 0x30C]); (0x1D1, [0x4F; 0x30C]); (0x1D2, [0x6F; 0x30C]); (0x1D3, [0x55; 0x30C]);
  (0x1D4, [0x75; 0x30C]); (0x1D5, [0x55; 0x308; 0x304]); (0x1D6, [0x75; 0x308; 0x304]); (0x1D7, [0x55; 0x308; 0x301]);
  (0x1D8, [0x75; 0x308; 0x301]); (0x1D9, [0x55; 0x308; 0x30C]); (0x1DA, [0x75; 0x308; 0x30C]); (0x1DB, [0x55; 0x308; 0x300]);
  (0x1DC, [0x75; 0x308; 0x300]); (0x1DE, [0x41; 0x308; 0x304]); (0x1DF, [0x61; 0x308; 0x304]); (0x1E0, [0x41; 0x307; 0x304]);
  (0x1E1, [0x61; 0x307; 0x304]); (0x1E6, [0x47; 0x30C]); (0x1E7, [0x67; 0x30C]); (0x1E8, [0x4B; 0x30C]);
  (0x1E9, [0x6B; 0x30C]); (0x1EA, [0x4F; 0x328]); (0x1EB, [0x6F; 0x328]); (0x1EC, [0x4F; 0x328; 0x304]);
  (0x1ED, [0x6F; 0x328; 0x304]); (0x1F0, [0x6A; 0x30C]); (0x1F4, [0x47; 0x301]); (0x1F5, [0x67; 0x301]);
  (0x1F8, [0x4E; 0x300]); (0x1F9, [0x6E; 0x300]); (0x1FA, [0x41; 0x30A; 0x301]); (0x1FB, [0x61; 0x30A; 0x301]);
  (0x200, [0x41; 0x30F]); (0x201, [0x61; 0x30F]); (0x202, [0x41; 0x311]); (0x203, [0x61; 0x311]);
  (0x204, [0x45; 0x30F]); (0x205, [0x65; 0x30F]); (0x206, [0x45; 0x311]); (0x207, [0x65; 0x311]);
  (0x208, [0x49; 0x30F]); (0x209, [0x69; 0x30F]); (0x20A, [0x49; 0x311]); (0x20B, [0x69; 0x311]);
  (0x20C, [0x4F; 0x30F]); (0x20D, [0x6F; 0x30F]); (0x20E, [0x4F; 0x311]); (0x20F, [0x6F; 0x311]);
  (0x210, [0x52; 0x30F]); (0x211, [0x72; 0x30F]); (0x212, [0x52; 0x311]); (0x213, [0x72; 0x311]);
  (0x214, [0x55; 0x30F]); (0x215, [0x75; 0x30F]); (0x216, [0x55; 0x311]); (0x217, [0x75; 0x311]);
  (0x218, [0x53; 0x326]); (0x219, [0x73; 0x326]); (0x21A, [0x54; 0x326]); (0x21B, [0x74; 0x326]);
  (0x21E, [0x48; 0x30C]); (0x21F, [0x68; 0x30C]); (0x226, [0x41; 0x307]); (0x227, [0x61; 0x307]);
  (0x228, [0x45; 0x327]); (0x229, [0x65; 0x327]); (0x22A, [0x4F; 0x308; 0x304]); (0x22B, [0x6F; 0x308; 0x304]);
  (0x22C, [0x4F; 0x303; 0x304]); (0x22D, [0x6F; 0x303; 0x304]); (0x22E, [0x4F; 0x307]); (0x22F, [0x6F; 0x307]);
  (0x230, [0x4F; 0x307; 0x304]); (0x231, [0x6F; 0x307; 0x304]); (0x232, [0x59; 0x304]); (0x233, [0x79; 0x304]);
  (0x1E00, [0x41; 0x325]); (0x1E01, [0x61; 0x325]); (0x1E02, [0x42; 0x307]); (0x1E03, [0x62; 0x307]);
  (0x1E04, [0x42; 0x323]); (0x1E05, [0x62; 0x323]); (0x1E06, [0x42; 0x331]); (0x1E07, [0x62; 0x331]);
  (0x1E08, [0x43; 0x327; 0x301]); (0x1E09, [0x63; 0x327; 0x301]); (0x1E0A, [0x44; 0x307]); (0x1E0B, [0x64; 0x307]);
  (0x1E0C, [0x44; 0x323]); (0x1E0D, [0x64; 0x323]); (0x1E0E, [0x44; 0x331]); (0x1E0F, [0x64; 0x331]);
  (0x1E10, [0x44; 0x327]); (0x1E11, [0x64; 0x327]); (0x1E12, [0x44; 0x32D]); (0x1E13, [0x64; 0x32D]);
  (0x1E14, [0x45; 0x304; 0x300]); (0x1E15, [0x65; 0x304; 0x300]); (0x1E16, [0x45; 0x304; 0x301]); (0x1E17, [0x65; 0x304; 0x301]);
  (0x1E18, [0x45; 0x32D]); (0x1E19, [0x65; 0x32D]); (0x1E1A, [0x45; 0x330]); (0x1E1B, [0x65; 0x330]);
  (0x1E1C, [0x45; 0x327; 0x306]); (0x1E1D, [0x65; 0x327; 0x306]); (0x1E1E, [0x46; 0x307]); (0x1E1F, [0x66; 0x307]);
  (0x1E20, [0x47; 0x304]); (0x1E21, [0x67; 0x304]); (0x1E22, [0x48; 0x307]); (0x1E23, [0x68; 0x307]);
  (0x1E24, [0x48; 0x323]); (0x1E25, [0x68; 0x323]); (0x1E26, [0x48; 0x308]); (0x1E27, [0x68; 0x308]);
  (0x1E28, [0x48; 0x327]); (0x1E29, [0x68; 0x327]); (0x1E2A, [0x48; 0x32E]); (0x1E2B, [0x68; 0x32E]);
  (0x1E2C, [0x49; 0x330]); (0x1E2D, [0x69; 0x330]); (0x1E2E, [0x49; 0x308; 0x301]); (0x1E2F, [0x69; 0x308; 0x301]);
  (0x1E30, [0x4B; 0x301]); (0x1E31, [0x6B; 0x301]); (0x1E32, [0x4B; 0x323]); (0x1E33, [0x6B; 0x323]);
  (0x1E34, [0x4B; 0x331]); (0x1E35, [0x6B; 0x331]); (0x1E36, [0x4C; 0x323]); (0x1E37, [0x6C; 0x323]);
  (0x1E38, [0x4C; 0x323; 0x304]); (0x1E39, [0x6C; 0x323; 0x304]); (0x1E3A, [0x4C; 0x331]); (0x1E3B, [0x6C; 0x331]);
  (0x1E3C, [0x4C; 0x32D]); (0x1E3D, [0x6C; 0x32D]); (0x1E3E, [0x4D; 0x301]); (0x1E3F, [0x6D; 0x301]);
  (0x1E40, [0x4D; 0x307]); (0x1E41, [0x6D; 0x307]); (0x1E42, [0x4D; 0x323]); (0x1E43, [0x6D; 0x323]);
  (0x1E44, [0x4E; 0x307]); (0x1E45, [0x6E; 0x307]); (0x1E46, [0x4E; 0x323]); (0x1E47, [0x6E; 0x323]);
  (0x1E48, [0x4E; 0x331]); (0x1E49, [0x6E; 0x331]); (0x1E4A, [0x4E; 0x32D]); (0x1E4B, [0x6E; 0x32D]);
  (0x1E4C, [0x4F; 0x303; 0x301]); (0x1E4D, [0x6F; 0x303; 0x301]); (0x1E4E, [0x4F; 0x303; 0x308]); (0x1E4F, [0x6F; 0x303; 0x308]);
  (0x1E50, [0x4F; 0x304; 0x300]); (0x1E51, [0x6F; 0x304; 0x300]); (0x1E52, [0x4F; 0x304; 0x301]); (0x1E53, [0x6F; 0x304; 0x301]);
  (0x1E54, [0x50; 0x301]); (0x1E55, [0x70; 0x301]); (0x1E56, [0x50; 0x307]); (0x1E57, [0x70; 0x307]);
  (0x1E58, [0x52; 0x307]); (0x1E59, [0x72; 0x307]); (0x1E5A, [0x52; 0x323]); (0x1E5B, [0x72; 0x323]);
  (0x1E5C, [0x52; 0x323; 0x304]); (0x1E5D, [0x72; 0x323; 0x304]); (0x1E5E, [0x52; 0x331]); (0x1E5F, [0x72; 0x331]);
  (0x1E60, [0x53; 0x307]); (0x1E61, [0x73; 0x307]); (0x1E62, [0x53; 0x323]); (0x1E63, [0x73; 0x323]);
  (0x1E64, [0x53; 0x301; 0x307]); (0x1E65, [0x73; 0x301; 0x307]); (0x1E66, [0x53; 0x30C; 0x307]); (0x1E67, [0x73; 0x30C; 0x307]);
  (0x1E68, [0x53; 0x323; 0x307]); (0x1E69, [0x73; 0x323; 0x307]); (0x1E6A, [0x54; 0x307]); (0x1E6B, [0x74; 0x307]);
  (0x1E6C, [0x54; 0x323]); (0x1E6D, [0x74; 0x323]); (0x1E6E, [0x54; 0x331]); (0x1E6F, [0x74; 0x331]);
  (0x1E70, [0x54; 0x32D]); (0x1E71, [0x74; 0x32D]); (0x1E72, [0x55; 0x324]); (0x1E73, [0x75; 0x324]);
  (0x1E74, [0x55; 0x330]); (0x1E75, [0x75; 0x330]); (0x1E76, [0x55; 0x32D]); (0x1E77, [0x75; 0x32D]);
  (0x1E78, [0x55; 0x303; 0x301]); (0x1E79, [0x75; 0x303; 0x301]); (0x1E7A, [0x55; 0x304; 0x308]); (0x1E7B, [0x75; 0x304; 0x308]);
  (0x1E7C, [0x56; 0x303]); (0x1E7D, [0x76; 0x303]); (0x1E7E, [0x56; 0x323]); (0x1E7F, [0x76; 0x323]);
  (0x1E80, [0x57; 0x300]); (0x1E81, [0x77; 0x300]); (0x1E82, [0x57; 0x301]); (0x1E83, [0x77; 0x301]);
  (0x1E84, [0x57; 0x308]); (0x1E85, [0x77; 0x308]); (0x1E86, [0x57; 0x307]); (0x1E87, [0x77; 0x307]);
  (0x1E88, [0x57; 0x323]); (0x1E89, [0x77; 0x323]); (0x1E8A, [0x58; 0x307]); (0x1E8B, [0x78; 0x307]);
  (0x1E8C, [0x58; 0x308]); (0x1E8D, [0x78; 0x308]); (0x1E8E, [0x59; 0x307]); (0x1E8F, [0x79; 0x307]);
  (0x1E90, [0x5A; 0x302]); (0x1E91, [0x7A; 0x302]); (0x1E92, [0x5A; 0x323]); (0x1E93, [0x7A; 0x323]);
  (0x1E94, [0x5A; 0x331]); (0x1E95, [0x7A; 0x331]); (0x1E96, [0x68; 0x331]); (0x1E97, [0x74; 0x308]);
  (0x1E98, [0x77; 0x30A]); (0x1E99, [0x79; 0x30A]); (0x1EA0, [0x41; 0x323]); (0x1EA1, [0x61; 0x323]);
  (0x1EA2, [0x41; 0x309]); (0x1EA3, [0x61; 0x309]); (0x1EA4, [0x41; 0x302; 0x301]); (0x1EA5, [0x61; 0x302; 0x301]);
  (0x1EA6, [0x41; 0x302; 0x300]); (0x1EA7, [0x61; 0x302; 0x300]); (0x1EA8, [0x41; 0x302; 0x309]); (0x1EA9, [0x61; 0x302; 0x309]);
  (0x1EAA, [0x41; 0x302; 0x303]); (0x1EAB, [0x61; 0x302; 0x303]); (0x1EAC, [0x41; 0x323; 0x302]); (0x1EAD, [0x61; 0x323; 0x302]);
  (0x1EAE, [0x41; 0x306; 0x301]); (0x1EAF, [0x61; 0x306; 0x301]); (0x1EB0, [0x41; 0x306; 0x300]); (0x1EB1, [0x61; 0x306; 0x300]);
  (0x1EB2, [0x41; 0x306; 0x309]); (0x1EB3, [0x61; 0x306; 0x309]); (0x1EB4, [0x41; 0x306; 0x303]); (0x1EB5, [0x61; 0x306; 0x303]);
  (0x1EB6, [0x41; 0x323; 0x306]); (0x1EB7, [0x61; 0x323; 0x306]); (0x1EB8, [0x45; 0x323]); (0x1EB9, [0x65; 0x323]);
  (0x1EBA, [0x45; 0x309]); (0x1EBB, [0x65; 0x309]); (0x1EBC, [0x45; 0x303]); (0x1EBD, [0x65; 0x303]);
  (0x1EBE, [0x45; 0x302; 0x301]); (0x1EBF, [0x65; 0x302; 0x301]); (0x1EC0, [0x45; 0x302; 0x300]); (0x1EC1, [0x65; 0x302; 0x300]);
  (0x1EC2, [0x45; 0x302; 0x309]); (0x1EC3, [0x65; 0x302; 0x309]); (0x1EC4, [0x45; 0x302; 0x303]); (0x1EC5, [0x65; 0x302; 0x303]);
  (0x1EC6, [0x45; 0x323; 0x302]); (0x1EC7, [0x65; 0x323; 0x302]); (0x1EC8, [0x49; 0x309]); (0x1EC9, [0x69; 0x309]);
  (0x1ECA, [0x49; 0x323]); (0x1ECB, [0x69; 0x323]); (0x1ECC, [0x4F; 0x323]); (0x1ECD, [0x6F; 0x323]);
  (0x1ECE, [0x4F; 0x309]); (0x1ECF, [0x6F; 0x309]); (0x1ED0, [0x4F; 0x302; 0x301]); (0x1ED1, [0x6F; 0x302; 0x301]);
  (0x1ED2, [0x4F; 0x302; 0x300]); (0x1ED3, [0x6F; 0x302; 0x300]); (0x1ED4, [0x4F; 0x302; 0x309]); (0x1ED5, [0x6F; 0x302; 0x309]);
  (0x1ED6, [0x4F; 0x302; 0x303]); (0x1ED7, [0x6F; 0x302; 0x303]); (0x1ED8, [0x4F; 0x323; 0x302]); (0x1ED9, [0x6F; 0x323; 0x302]);
  (0x1EDA, [0x4F; 0x31B; 0x301]); (0x1EDB, [0x6F; 0x31B; 0x301]); (0x1EDC, [0x4F; 0x31B; 0x300]); (0x1EDD, [0x6F; 0x31B; 0x300]);
  (0x1EDE, [0x4F; 0x31B; 0x309]); (0x1EDF, [0x6F; 0x31B; 0x309]); (0x1EE0, [0x4F; 0x31B; 0x303]); (0x1EE1, [0x6F; 0x31B; 0x303]);
  (0x1EE2, [0x4F; 0x31B; 0x323]); (0x1EE3, [0x6F; 0x31B; 0x323]); (0x1EE4, [0x55; 0x323]); (0x1EE5, [0x75; 0x323]);
  (0x1EE6, [0x55; 0x309]); (0x1EE7, [0x75; 0x309]); (0x1EE8, [0x55; 0x31B; 0x301]); (0x1EE9, [0x75; 0x31B; 0x301]);
  (0x1EEA, [0x55; 0x31B; 0x300]); (0x1EEB, [0x75; 0x31B; 0x300]); (0x1EEC, [0x55; 0x31B; 0x309]); (0x1EED, [0x75; 0x31B; 0x309]);
  (0x1EEE, [0x55; 0x31B; 0x303]); (0x1EEF, [0x75; 0x31B; 0x303]); (0x1EF0, [0x55; 0x31B; 0x323]); (0x1EF1, [0x75; 0x31B; 0x323]);
  (0x1EF2, [0x59; 0x300]); (0x1EF3, [0x79; 0x300]); (0x1EF4, [0x59; 0x323]); (0x1EF5, [0x79; 0x323]);
  (0x1EF6, [0x59; 0x309]); (0x1EF7, [0x79; 0x309]); (0x1EF8, [0x59; 0x303]); (0x1EF9, [0x79; 0x303]);
  (0x212A, [0x4B]); (0x212B, [0x41; 0x30A])
 ]%N.

Fixpoint decomposition (t : list (N * jsstring)) (c : N) : jsstring :=
  match t with
  | [] => [c]
  | (k, d) :: t' => if (c =? k)%N then d else decomposition t' c
  end.

(** [s.normalize('NFD')].  Code points outside the table have no ASCII
    letter or digit in their decomposition and are kept as they are;
    canonical reordering only permutes combining marks.  Neither affects
    what survives a later removal of everything outside [a-z0-9]. *)
Definition normalizeNFD (s : jsstring) : jsstring :=
  flat_map (decomposition decomposition_table) s.

(** ** Numbers

    A Number is [NaN], an infinity, or a finite value, kept as the decimal
    [m * 10^e] it denotes.  Binary rounding and the sign of zero are not
    modelled: every decimal literal stands for its exact value, where the
    code holds the double nearest to it.  The two agree on the integers
    below 2^53 and on the decimals of at most 15 significant digits inside
    the range of normal doubles: there distinct decimals are distinct
    doubles in the same order, and [String] gives the decimal back.  A
    statement that depends on the value or on the order of parsed numbers
    is made for such numbers only ([exactInteger], [exactDecimal]
    below). *)

Inductive number : Type :=
| NaN
| Infinity (negative : bool)
| Finite (m e : Z).

Fixpoint strip10 (fuel : nat) (m e : Z) : Z * Z :=
  match fuel with
  | O => (m, e)
  | S f => if (m mod 10 =? 0)%Z then strip10 f (m / 10)%Z (e + 1)%Z else (m, e)
  end.

(** The canonical representative of [m * 10^e]: no trailing zero in the
    mantissa, and exponent 0 for zero. *)
Definition decimal (m e : Z) : number :=
  if (m =? 0)%Z then Finite 0 0
  else let (m', e') := strip10 (S (Z.to_nat (Z.log2 (Z.abs m)))) m e in Finite m' e'.

Definition ofZ (z : Z) : number := decimal z 0.
Definition ofNat (n : nat) : number := ofZ (Z.of_nat n).

(** The rational value of a finite number. *)
Definition valueQ (m e : Z) : Q :=
  if (0 <=? e)%Z then inject_Z (m * 10 ^ e) else Qmake m (Z.to_pos (10 ^ (- e))).

(** Relational comparison: [None] when an operand is [NaN]. *)
Definition compareNum (a b : number) : option comparison :=
  match a, b with
  | NaN, _ | _, NaN => None
  | Infinity true, Infinity true | Infinity false, Infinity false => Some Eq
  | Infinity true, _ | _, Infinity false => Some Lt
  | Infinity false, _ | _, Infinity true => Some Gt
  | Finite m1 e1, Finite m2 e2 => Some (Qcompare (valueQ m1 e1) (valueQ m2 e2))
  end.

(** [a < b], [a <= b], [a > b], [a >= b] *)
Definition ltNum (a b : number) : bool :=
  match compareNum a b with Some Lt => true | _ => false end.
Definition leNum (a b : number) : bool :=
  match compareNum a b with Some Lt | Some Eq => true | _ => false end.
Definition gtNum (a b : number) : bool := ltNum b a.
Definition geNum (a b : number) : bool := leNum b a.

Definition isNaN (a : number) : bool :=
  match a with NaN => true | _ => false end.

Definition isFinite (a : number) : bool :=
  match a with Finite _ _ => true | _ => false end.

(** *** Reading numbers from strings *)

Fixpoint spanDigits (s : jsstring) : jsstring * jsstring :=
  match s with
  | c :: s' => if isDigit c then let (d, r) := spanDigits s' in (c :: d, r) else ([], s)
  | [] => ([], [])
  end.

Definition digitsValue (ds : jsstring) : Z :=
  fold_left (fun acc c => (acc * 10 + (Z.of_N c - 48))%Z) ds 0%Z.

(** An optional sign: the flag is [true] for a leading minus. *)
Definition readSign (s : jsstring) : bool * jsstring :=
  match s with
  | 45%N :: r => (true, r)
  | 43%N :: r => (false, r)
  | _ => (false, s)
  end.

Definition signed (neg : bool) (z : Z) : Z := if neg then (- z)%Z else z.

(** The exponent part of a decimal literal, when one is well formed. *)
Definition readExponent (s : jsstring) : Z :=
  match s with
  | c :: r =>
    if ((c =? 101) || (c =? 69))%N then
      let (neg, r') := readSign r in
      let (ds, _) := spanDigits r' in
      match ds with [] => 0%Z | _ => signed neg (digitsValue ds) end
    else 0%Z
  | [] => 0%Z
  end.

(** [parseFloat(s)]: the longest prefix of the trimmed string that is a
    decimal literal, or [NaN].  The result is the exact value of the
    literal: the code rounds it to a double, which changes nothing for an
    [exactDecimal], rounds a longer literal and turns one beyond the range
    of doubles into an infinity or zero. *)
Definition parseFloat (s : jsstring) : number :=
  let (neg, r) := readSign (trimStart s) in
  if startsWith r (lit "Infinity") then Infinity neg
  else
    let (ip, r1) := spanDigits r in
    match r1 with
    | 46%N :: r2 =>
      let (fp, r3) := spanDigits r2 in
      match ip, fp with
      | [], [] => NaN
      | _, _ => decimal (signed neg (digitsValue (ip ++ fp)))
                        (readExponent r3 - Z.of_nat (length fp))
      end
    | _ =>
      match ip with
      | [] => NaN
      | _ => decimal (signed neg (digitsValue ip)) (readExponent r1)
      end
    end.

(** [parseInt(s, 10)].  The result is the exact integer: the code rounds
    it to a double, which changes nothing below 2^53 ([exactInteger]). *)
Definition parseInt (s : jsstring) : number :=
  let (neg, r) := readSign (trimStart s) in
  let (ds, _) := spanDigits r in
  match ds with
  | [] => NaN
  | _ => ofZ (signed neg (digitsValue ds))
  end.

Definition hexDigitValue (c : N) : option Z :=
  if isDigit c then Some (Z.of_N c - 48)%Z
  else if ((97 <=? c) && (c <=? 102))%N then Some (Z.of_N c - 87)%Z
  else if ((65 <=? c) && (c <=? 70))%N then Some (Z.of_N c - 55)%Z
  else None.

Fixpoint hexValue (acc : option Z) (s : jsstring) : option Z :=
  match s with
  | [] => acc
  | c :: s' =>
    match hexDigitValue c with
    | Some d => hexValue (Some (match acc with Some a => a * 16 + d | None => d end)%Z) s'
    | None => acc
    end
  end.

(** [parseInt(s)] without a radix: base 16 after a [0x] prefix, base 10
    otherwise; exact like [parseInt]. *)
Definition parseIntAuto (s : jsstring) : number :=
  let (neg, r) := readSign (trimStart s) in
  match r with
  | 48%N :: x :: r' =>
    if ((x =? 120) || (x =? 88))%N then
      match hexValue None r' with
      | Some z => ofZ (signed neg z)
      | None => NaN
      end
    else parseInt s
  | _ => parseInt s
  end.

(** *** Writing numbers as strings *)

Fixpoint uintUnits (d : Decimal.uint) : jsstring :=
  match d with
  | Decimal.Nil => []
  | Decimal.D0 d => 48%N :: uintUnits d
  | Decimal.D1 d => 49%N :: uintUnits d
  | Decimal.D2 d => 50%N :: uintUnits d
  | Decimal.D3 d => 51%N :: uintUnits d
  | Decimal.D4 d => 52%N :: uintUnits d
  | Decimal.D5 d => 53%N :: uintUnits d
  | Decimal.D6 d => 54%N :: uintUnits d
  | Decimal.D7 d => 55%N :: uintUnits d
  | Decimal.D8 d => 56%N :: uintUnits d
  | Decimal.D9 d => 57%N :: uintUnits d
  end.

(** The decimal digits of a natural number, without leading zeros. *)
Definition digitsOfN (n : N) : jsstring := uintUnits (N.to_uint n).
Definition digitsOfNat (n : nat) : jsstring := digitsOfN (N.of_nat n).

Definition zeros (n : Z) : jsstring := repeat 48%N (Z.to_nat n).

(** Number::toString for a positive mantissa [s] of [k] digits and the
    position [n] of the decimal point. *)
Definition positiveToString (s : jsstring) (n : Z) : jsstring :=
  let k := Z.of_nat (length s) in
  if ((k <=? n) && (n <=? 21))%Z then s ++ zeros (n - k)
  else if ((0 <? n) && (n <=? 21))%Z then
    firstn (Z.to_nat n) s ++ [46%N] ++ skipn (Z.to_nat n) s
  else if ((-6 <? n) && (n <=? 0))%Z then
    [48%N; 46%N] ++ zeros (- n) ++ s
  else
    let ex := [101%N] ++ (if (0 <=? n - 1)%Z then [43%N] else [45%N])
              ++ digitsOfN (Z.to_N (Z.abs (n - 1))) in
    match s with
    | [d] => [d] ++ ex
    | _ => firstn 1 s ++ [46%N] ++ skipn 1 s ++ ex
    end.

(** [String(x)] for a Number [x]. *)
Definition numberToString (x : number) : jsstring :=
  match x with
  | NaN => lit "NaN"
  | Infinity neg => (if neg then [45%N] else []) ++ lit "Infinity"
  | Finite m e =>
    match decimal m e with
    | Finite m' e' =>
      if (m' =? 0)%Z then [48%N]
      else
        let s := digitsOfN (Z.to_N (Z.abs m')) in
        (if (m' <? 0)%Z then [45%N] else [])
        ++ positiveToString s (Z.of_nat (length s) + e')
    | _ => []
    end
  end.

(** ** Values *)

Inductive value : Type :=
| VUndefined
| VNull
| VBoolean (b : bool)
| VNumber (n : number)
| VString (s : jsstring).

(** ToBoolean *)
Definition truthy (v : value) : bool :=
  match v with
  | VUndefined | VNull => false
  | VBoolean b => b
  | VNumber NaN => false
  | VNumber (Infinity _) => true
  | VNumber (Finite m _) => negb (m =? 0)%Z
  | VString s => match s with [] => false | _ => true end
  end.

(** [String(v)] *)
Definition ToString (v : value) : jsstring :=
  match v with
  | VUndefined => lit "undefined"
  | VNull => lit "null"
  | VBoolean true => lit "true"
  | VBoolean false => lit "false"
  | VNumber n => numberToString n
  | VString s => s
  end.

(** [a || b] *)
Definition orElse (a b : value) : value := if truthy a then a else b.

(** [v === null || v === undefined] *)
Definition isNullish (v : value) : bool :=
  match v with VUndefined | VNull => true | _ => false end.

(** [row[i]] on an array of cells: [undefined] out of range. *)
Definition index (row : list value) (i : nat) : value := nth i row VUndefined.

(** [a - b] on Numbers *)
Definition subNum (a b : number) : number :=
  match a, b with
  | NaN, _ | _, NaN => NaN
  | Infinity n1, Infinity n2 => if Bool.eqb n1 n2 then NaN else Infinity n1
  | Infinity n1, Finite _ _ => Infinity n1
  | Finite _ _, Infinity n2 => Infinity (negb n2)
  | Finite m1 e1, Finite m2 e2 =>
    let e := Z.min e1 e2 in
    decimal (m1 * 10 ^ (e1 - e) - m2 * 10 ^ (e2 - e)) e
  end.

(** ** Arrays *)

(** [arr.indexOf(x)] on an array of strings; [None] stands for -1. *)
Fixpoint indexOf (arr : list jsstring) (x : jsstring) : option nat :=
  match arr with
  | [] => None
  | y :: arr' =>
    if str_eqb y x then Some O
    else match indexOf arr' x with Some i => Some (S i) | None => None end
  end.

(** [arr.findIndex(p)]; [None] stands for -1. *)
Fixpoint findIndex (A : Type) (p : A -> bool) (arr : list A) : option nat :=
  match arr with
  | [] => None
  | y :: arr' =>
    if p y then Some O
    else match findIndex p arr' with Some i => Some (S i) | None => None end
  end.

(** [arr.map((x, i) => f x i)] *)
Fixpoint mapi_from (A B : Type) (f : A -> nat -> B) (i : nat) (arr : list A) : list B :=
  match arr with
  | [] => []
  | x :: arr' => f x i :: mapi_from f (S i) arr'
  end.

Definition mapi (A B : Type) (f : A -> nat -> B) (arr : list A) : list B :=
  mapi_from f 0 arr.

(** [arr.join(sep)] on an array of strings *)
Fixpoint join (sep : jsstring) (arr : list jsstring) : jsstring :=
  match arr with
  | [] => []
  | [x] => x
  | x :: arr' => x ++ sep ++ join sep arr'
  end.

(** [arr.sort(cmp)]: the sort is stable, and an element moves behind
    another one only when the comparator is positive on the pair. *)
Fixpoint insertWith (A : Type) (cmp : A -> A -> number) (x : A) (l : list A) : list A :=
  match l with
  | [] => [x]
  | y :: l' =>
    if gtNum (cmp x y) (Finite 0 0) then y :: insertWith cmp x l' else x :: l
  end.

Definition sortWith (A : Type) (cmp : A -> A -> number) (l : list A) : list A :=
  fold_right (insertWith cmp) [] l.

(** ** Objects

    The own string-keyed properties of an ordinary object, in creation
    order. *)

Definition object (V : Type) := list (jsstring * V).

Fixpoint getOwn (V : Type) (k : jsstring) (o : object V) : option V :=
  match o with
  | [] => None
  | (k', v) :: o' => if str_eqb k' k then Some v else getOwn k o'
  end.

(** [o[k] = v]: an existing property keeps its place. *)
Fixpoint setOwn (V : Type) (k : jsstring) (v : V) (o : object V) : object V :=
  match o with
  | [] => [(k, v)]
  | (k', v') :: o' =>
    if str_eqb k' k then (k', v) :: o' else (k', v') :: setOwn k v o'
  end.

(** [o[k]] read as a value: [undefined] when [k] is not an own property. *)
Definition get (k : jsstring) (o : object value) : value :=
  match getOwn k o with Some v => v | None => VUndefined end.

(** A key is an array index when it is the canonical decimal form of an
    integer below 2^32 - 1. *)
Definition arrayIndex (k : jsstring) : option N :=
  match k with
  | [] => None
  | c :: r =>
    if forallb isDigit k && (negb (c =? 48)%N || match r with [] => true | _ => false end)
    then let n := Z.to_N (digitsValue k) in
         if (n <=? 4294967294)%N then Some n else None
    else None
  end.

Fixpoint insertIndex (V : Type) (x : N * V) (l : list (N * V)) : list (N * V) :=
  match l with
  | [] => [x]
  | y :: l' => if (fst x <=? fst y)%N then x :: l else y :: insertIndex x l'
  end.

Fixpoint indexEntries (V : Type) (o : object V) : list (N * V) :=
  match o with
  | [] => []
  | (k, v) :: o' =>
    match arrayIndex k with
    | Some n => insertIndex (n, v) (indexEntries o')
    | None => indexEntries o'
    end
  end.

Definition nameEntries (V : Type) (o : object V) : object V :=
  filter (fun kv => match arrayIndex (fst kv) with Some _ => false | None => true end) o.

(** [Object.values(o)]: array-index keys first, in ascending numeric
    order, then the other keys in creation order. *)
Definition values (V : Type) (o : object V) : list V :=
  map snd (indexEntries o) ++ map snd (nameEntries o).

(** [Object.keys(o)], in the same order. *)
Definition keys (V : Type) (o : object V) : list jsstring :=
  map (fun nv => digitsOfN (fst nv)) (indexEntries o) ++ map fst (nameEntries o).

(** The property names every ordinary object inherits from
    [Object.prototype]. *)
Definition objectPrototypeKeys : list jsstring :=
  map lit ["constructor"; "__defineGetter__"; "__defineSetter__"; "hasOwnProperty";
           "__lookupGetter__"; "__lookupSetter__"; "isPrototypeOf";
           "propertyIsEnumerable"; "toString"; "valueOf"; "__proto__";
           "toLocaleString"]%string.

Definition inherited (k : jsstring) : bool := existsb (str_eqb k) objectPrototypeKeys.

(** ** Exceptions *)

Inductive error : Type :=
| TypeError
| Error (message : jsstring).

Inductive result (A : Type) : Type :=
| Ok (a : A)
| Throw (e : error).

Arguments Throw {A} e.

Definition bind (A B : Type) (c : result A) (k : A -> result B) : result B :=
  match c with
  | Ok a => k a
  | Throw e => Throw e
  end.

(** [a + b] on Numbers *)
Definition addNum (a b : number) : number :=
  match a, b with
  | NaN, _ | _, NaN => NaN
  | Infinity n1, Infinity n2 => if Bool.eqb n1 n2 then Infinity n1 else NaN
  | Infinity n1, Finite _ _ => Infinity n1
  | Finite _ _, Infinity n2 => Infinity n2
  | Finite m1 e1, Finite m2 e2 =>
    let e := Z.min e1 e2 in
    decimal (m1 * 10 ^ (e1 - e) + m2 * 10 ^ (e2 - e)) e
  end.

(** ToNumber on a value that is not a string. *)
Definition numberOf (v : value) : number :=
  match v with
  | VUndefined => NaN
  | VNull => ofZ 0
  | VBoolean true => ofZ 1
  | VBoolean false => ofZ 0
  | VNumber n => n
  | VString _ => NaN
  end.

(** [a + b]: concatenation when an operand is a string, addition of the
    operands as Numbers otherwise. *)
Definition plus (a b : value) : value :=
  match a, b with
  | VString s, _ => VString (s ++ ToString b)
  | _, VString t => VString (ToString a ++ t)
  | _, _ => VNumber (addNum (numberOf a) (numberOf b))
  end.

End JS.

Import JS.

Notation "x <- c ;; k" := (bind c (fun x => k))
  (at level 61, c at next level, right associativity).

(* ================================================================= *)
(** * services/fileProcessor *)

Module FileProcessor.

(** A sheet read as an array of arrays of cells. *)
Definition grid := list (list value).

(** [s.replace(/[̀-ͯ]/g, '')] *)
Definition removeDiacritics (s : jsstring) : jsstring :=
  filter (fun c => negb ((0x300 <=? c) && (c <=? 0x36F))%N) s.

(** [s.replace(/đ/g, 'd')] *)
Definition replaceDStroke (s : jsstring) : jsstring :=
  map (fun c => if (c =? 0x111)%N then 100%N else c) s.

(** [s.replace(/[^a-z0-9]/g, '')] *)
Definition keepAlphanumeric (s : jsstring) : jsstring :=
  filter (fun c => isLower c || isDigit c) s.

Definition normalizeString (str : value) : jsstring :=
  match str with
  | VString [] => []
  | VString s =>
    let normalized := removeDiacritics (normalizeNFD s) in
    let normalized := toLowerCase normalized in
    let normalized := replaceDStroke normalized in
    keepAlphanumeric normalized
  | _ => []
  end.

(** The test of the inner loop of [detectHeaderRow] on one cell. *)
Definition cellMatches (keywords : list jsstring) (cell : value) : bool :=
  let normalizedCell := normalizeString cell in
  existsb (fun kw => includes normalizedCell (normalizeString (VString kw))) keywords.

Definition matchCount (keywords : list jsstring) (row : list value) : nat :=
  fold_left (fun count cell => if cellMatches keywords cell then S count else count) row 0.

(** The loop of [detectHeaderRow], from row [i] on. *)
Fixpoint detectFrom (keywords : list jsstring) (rows : grid) (i : nat) : option nat :=
  match rows with
  | [] => None
  | row :: rest =>
    if 2 <=? matchCount keywords row then Some i
    else detectFrom keywords rest (S i)
  end.

Definition detectHeaderRow (data : grid) (keywords : list jsstring) : nat :=
  match detectFrom keywords (firstn (Nat.min 10 (length data)) data) 0 with
  | Some i => i
  | None => 0
  end.

Definition findColumn (headers : list jsstring) (keywords : list jsstring) : option jsstring :=
  let fix go (kws : list jsstring) : option jsstring :=
    match kws with
    | [] => None
    | keyword :: kws' =>
      let normKey := normalizeString (VString keyword) in
      match find (fun h => includes (normalizeString (VString h)) normKey) headers with
      | Some found => Some found
      | None => go kws'
      end
    end in
  go keywords.

(** [row.map(h => String(h || '').trim())] *)
Definition headerTexts (row : list value) : list jsstring :=
  map (fun h => trim (ToString (orElse h (VString [])))) row.

(** A column name is usable when it is neither [null] nor empty. *)
Definition present (col : option jsstring) : bool :=
  match col with
  | Some (_ :: _) => true
  | _ => false
  end.

Definition missingMainColumns : error :=
  Error (lit "File chính phải có cột 'Tên đề tài' và 'Họ tên HV'.").

(** [headers.forEach((h, i) => obj[h] = row[i])] on a fresh object.  Only
    the resolved columns are read from it later. *)
Definition rowObject (headers : list jsstring) (row : list value) : object value :=
  fold_left (fun obj hi => setOwn (fst hi) (index row (snd hi)) obj)
            (mapi (fun h i => (h, i)) headers) [].

(** The [map] that builds the row objects and forward-fills the topic;
    [lastTopic] is the variable the callback updates. *)
Fixpoint fillTopics (headers : list jsstring) (topicCol : jsstring)
         (lastTopic : value) (dataRows : grid) : list (object value) :=
  match dataRows with
  | [] => []
  | row :: rest =>
    let obj := rowObject headers row in
    if truthy (get topicCol obj)
    then obj :: fillTopics headers topicCol (get topicCol obj) rest
    else setOwn topicCol lastTopic obj :: fillTopics headers topicCol lastTopic rest
  end.

(** One step of the [reduce] that groups the rows: the accumulator starts
    as [{}], so a topic naming a member of [Object.prototype] finds a
    value without [push]. *)
Definition groupStep (topicCol : jsstring) (acc : object (list (object value)))
           (row : object value) : result (object (list (object value))) :=
  let topic := ToString (get topicCol row) in
  match getOwn topic acc with
  | Some group => Ok (setOwn topic (group ++ [row]) acc)
  | None =>
    if inherited topic then Throw TypeError
    else Ok (setOwn topic [row] acc)
  end.

Fixpoint groupRows (topicCol : jsstring) (acc : object (list (object value)))
         (rows : list (object value)) : result (object (list (object value))) :=
  match rows with
  | [] => Ok acc
  | row :: rest =>
    acc' <- groupStep topicCol acc row ;;
    groupRows topicCol acc' rest
  end.

Definition studentNamesOf (nameCol : jsstring) (group : list (object value)) : jsstring :=
  join (lit ", ")
       (filter (fun s => match s with [] => false | _ => true end)
               (map (fun s => trim (ToString (orElse (get nameCol s) (VString [])))) group)).

Definition aggregateGroup (topicCol nameCol : jsstring) (guideCol : option jsstring)
           (group : list (object value)) : object value :=
  let first := hd [] group in
  [ (lit "Tên đề tài", get topicCol first);
    (lit "Họ tên HV", VString (studentNamesOf nameCol group));
    (lit "Số học viên", VNumber (ofNat (length group)));
    (lit "Người hướng dẫn",
       match guideCol with
       | Some (c :: g) => orElse (get (c :: g) first) (VString [])
       | _ => VString []
       end) ].

Definition mainKeywords : list jsstring :=
  [lit "Tên đề tài"; lit "Họ tên HV"; lit "Người hướng dẫn"].

Definition processMainData (rawData : grid) : result (list (object value)) :=
  let headerRowIndex := detectHeaderRow rawData mainKeywords in
  match nth_error rawData headerRowIndex with
  | None => Throw TypeError
  | Some headerRow =>
    let headers := headerTexts headerRow in
    let dataRows := skipn (headerRowIndex + 1) rawData in
    let topicCol := findColumn headers [lit "Tên đề tài"; lit "De tai"] in
    let nameCol := findColumn headers [lit "Họ tên HV"; lit "Ten hoc vien"] in
    let guideCol := findColumn headers [lit "Người hướng dẫn"] in
    match topicCol, nameCol with
    | Some (t :: tc), Some (n :: nc) =>
      let topicCol := t :: tc in
      let nameCol := n :: nc in
      let filledData :=
        filter (fun obj => truthy (get nameCol obj))
               (fillTopics headers topicCol (VString []) dataRows) in
      grouped <- groupRows topicCol [] filledData ;;
      Ok (map (aggregateGroup topicCol nameCol guideCol) (values grouped))
    | _, _ => Throw missingMainColumns
    end
  end.

(** *** The ratio merger *)

(** [re.test(s)] for a pattern [^(p1|p2|...)\d+$]: one of the prefixes,
    then one digit or more up to the end. *)
Definition matchesPrefixDigits (prefixes : list jsstring) (s : jsstring) : bool :=
  existsb (fun p => startsWith s p &&
                    match skipn (length p) s with
                    | [] => false
                    | d :: ds => forallb isDigit (d :: ds)
                    end) prefixes.

(** [s.replace(/^(p1|p2|...)/, '')]: the first alternative that is a
    prefix of [s] is removed. *)
Definition removePrefix (prefixes : list jsstring) (s : jsstring) : jsstring :=
  match find (startsWith s) prefixes with
  | Some p => skipn (length p) s
  | None => s
  end.

Definition ratioPrefixes : list jsstring := [lit "tile"; lit "ti le"].

Record column : Type := mkColumn {
  header : jsstring;
  index : nat;
  norm : jsstring
}.

Definition ratioNumber (c : column) : number :=
  parseInt (removePrefix ratioPrefixes (norm c)).

(** Step 3: the ratio columns, sorted by the number of their header.  The
    comparator works on the exact integers of [parseInt]: it is the one of
    the code when these are below 2^53. *)
Definition projectRatioColumns (headers : list jsstring) : list column :=
  sortWith (fun a b => subNum (ratioNumber a) (ratioNumber b))
    (filter (fun c => matchesPrefixDigits ratioPrefixes (norm c))
       (mapi (fun header index => mkColumn header index (normalizeString (VString header)))
             headers)).

Definition tvColumnIndex (headers : list jsstring) : option nat :=
  match findColumn headers [lit "TV"] with
  | Some (c :: h) => indexOf headers (c :: h)
  | _ => None
  end.

Definition missingRatioColumns : error :=
  Error (lit "File bổ sung không tìm thấy cột 'TV' hoặc các cột tỉ lệ (ví dụ: 'Tỉ lệ 1', 'Tỉ lệ 2', ...).").

(** The number a cell stands for: a string is parsed after its first
    comma is turned into a dot, a number is taken as it is, anything else
    gives [undefined]. *)
Definition cellNumber (cell : value) : option number :=
  match cell with
  | VString s => Some (parseFloat (replaceFirst 44 46 s))
  | VNumber n => Some n
  | _ => None
  end.

(** Step 5: the TV value of the row at the project's position. *)
Definition assignTV (dataRows : grid) (tvColIndex : option nat) (projectIndex : nat)
           (newRow : object value) : object value :=
  match nth_error dataRows projectIndex, tvColIndex with
  | Some suppDataRowForTV, Some tvColIndex =>
    let tvVal := JS.index suppDataRowForTV tvColIndex in
    if isNullish tvVal then newRow
    else match cellNumber tvVal with
         | Some numVal => if isNaN numVal then newRow else setOwn (lit "tv") (VNumber numVal) newRow
         | None => newRow
         end
  | _, _ => newRow
  end.

(** [`c${n}`] *)
Definition chapterKey (n : nat) : jsstring := 99%N :: digitsOfNat n.

(** The callback of the [forEach] of step 6, on the row at [chapterIndex]. *)
Definition assignChapter (ratioColIndex : nat) (newRow : object value)
           (row : list value) (chapterIndex : nat) : object value :=
  let cellValue := JS.index row ratioColIndex in
  if negb (isNullish cellValue)
     && match trim (ToString cellValue) with [] => false | _ => true end
  then match cellNumber cellValue with
       | Some numValue =>
         if isNaN numValue then newRow
         else setOwn (chapterKey (chapterIndex + 1)) (VNumber numValue) newRow
       | None => newRow
       end
  else newRow.

Fixpoint assignChaptersFrom (ratioColIndex : nat) (chapterIndex : nat) (dataRows : grid)
         (newRow : object value) : object value :=
  match dataRows with
  | [] => newRow
  | row :: rest =>
    assignChaptersFrom ratioColIndex (S chapterIndex) rest
      (assignChapter ratioColIndex newRow row chapterIndex)
  end.

(** The callback of step 4 for the project at [projectIndex]. *)
Definition enrichRow (dataRows : grid) (tvColIndex : option nat) (ratioColumns : list column)
           (mainRow : object value) (projectIndex : nat) : object value :=
  let newRow : object value :=
    [ (lit "hotenhv", get (lit "Họ tên HV") mainRow);
      (lit "tendetai", get (lit "Tên đề tài") mainRow);
      (lit "sohocvien", get (lit "Số học viên") mainRow);
      (lit "nguoihuongdan", get (lit "Người hướng dẫn") mainRow) ] in
  let newRow := assignTV dataRows tvColIndex projectIndex newRow in
  match nth_error ratioColumns projectIndex with
  | Some ratioColumnForProject =>
    assignChaptersFrom (index ratioColumnForProject) 0 dataRows newRow
  | None => newRow
  end.

Definition suppKeywords : list jsstring := [lit "TV"; lit "Tỉ lệ"].

Definition mergeMainAndRatios (dfMain : list (object value)) (dfSupp : grid)
  : result (list (object value)) :=
  let headerRowIndex := detectHeaderRow dfSupp suppKeywords in
  match nth_error dfSupp headerRowIndex with
  | None => Throw TypeError
  | Some headerRow =>
    let headers := headerTexts headerRow in
    let dataRows := skipn (headerRowIndex + 1) dfSupp in
    let tvColIndex := tvColumnIndex headers in
    let ratioColumns := projectRatioColumns headers in
    match ratioColumns, tvColIndex with
    | [], None => Throw missingRatioColumns
    | _, _ => Ok (mapi (enrichRow dataRows tvColIndex ratioColumns) dfMain)
    end
  end.

(** *** The merged sheet *)

(** [readFileAsArray] keeps the rows in which some cell is neither [null]
    nor blank. *)
Definition nonBlankCell (cell : value) : bool :=
  match cell with
  | VNull => false
  | _ => match trim (ToString cell) with [] => false | _ => true end
  end.

Definition dropBlankRows (json : grid) : grid :=
  filter (fun row => existsb nonBlankCell row) json.

(** The keys of a merged record that start with 'c', ordered by the
    number after the first character. *)
Definition chapterKeys (row : object value) : list jsstring :=
  sortWith (fun a b => subNum (parseIntAuto (skipn 1 a)) (parseIntAuto (skipn 1 b)))
           (filter (fun k => startsWith k (lit "c")) (keys row)).

(** The row object handed to the sheet writer for one merged record. *)
Definition sheetRow (row : object value) : object value :=
  fold_left (fun newRow key => setOwn (toUpperCase key) (get key row) newRow)
            (chapterKeys row)
            [ (lit "Tên đề tài", get (lit "tendetai") row);
              (lit "Người hướng dẫn", get (lit "nguoihuongdan") row);
              (lit "Số học viên", get (lit "sohocvien") row);
              (lit "Họ tên HV", get (lit "hotenhv") row);
              (lit "TV", get (lit "tv") row) ].

Definition emptyMainFile : error := Error (lit "File chính rỗng hoặc không đọc được.").
Definition emptySuppFile : error := Error (lit "File bổ sung rỗng hoặc không đọc được.").

(** [generateMergedExcel] from the two grids [readFileAsArray] returned:
    the merged records and the rows given to the sheet writer. *)
Definition generateMergedExcel (mainRawData suppRawData : grid)
  : result (list (object value) * list (object value)) :=
  match mainRawData with
  | [] => Throw emptyMainFile
  | _ =>
    mainProcessed <- processMainData mainRawData ;;
    match suppRawData with
    | [] => Throw emptySuppFile
    | _ =>
      mergedData <- mergeMainAndRatios mainProcessed suppRawData ;;
      Ok (mergedData, map sheetRow mergedData)
    end
  end.

(** *** The direct-read path *)

Definition dataFileTooShort : error := Error (lit "File dữ liệu không có đủ nội dung.").
Definition missingDataColumns : error :=
  Error (lit "File dữ liệu phải chứa cột 'Tên đề tài' và 'Họ tên HV'.").

(** The local [findIndex] of [readDataFileForReporting]; [None] is -1. *)
Fixpoint findHeaderIndex (headers : list jsstring) (keywords : list jsstring) : option nat :=
  match keywords with
  | [] => None
  | kw :: keywords' =>
    let normalizedKw := normalizeString (VString kw) in
    match findIndex (fun h => includes h normalizedKw) headers with
    | Some index => Some index
    | None => findHeaderIndex headers keywords'
    end
  end.

Definition chapterPrefixes : list jsstring := [lit "c"; lit "chuong"; lit "tile"].

(** [parseFloat(String(cell).replace(',', '.'))] *)
Definition readNumber (cell : value) : number :=
  parseFloat (replaceFirst 44 46 (ToString cell)).

(** The callback of [headers.forEach] for the header at [index]. *)
Definition readChapter (row : list value) (rowData : object value)
           (header : jsstring) (index : nat) : object value :=
  if matchesPrefixDigits chapterPrefixes header
  then if isNullish (JS.index row index) then rowData
       else let chapterNum := removePrefix chapterPrefixes header in
            setOwn (lit "c" ++ chapterNum) (VNumber (readNumber (JS.index row index))) rowData
  else rowData.

Definition readRow (headers : list jsstring)
           (tendetaiIndex hotenhvIndex : nat)
           (sohocvienIndex nguoihuongdanIndex tvIndex : option nat)
           (row : list value) : object value :=
  let rowData : object value :=
    [ (lit "tendetai", VString (ToString (orElse (JS.index row tendetaiIndex) (VString []))));
      (lit "hotenhv", VString (ToString (orElse (JS.index row hotenhvIndex) (VString []))));
      (lit "sohocvien",
         match sohocvienIndex with
         | Some i => VNumber (parseInt (ToString (orElse (JS.index row i) (VString (lit "0")))))
         | None => VNumber (ofNat 1)
         end);
      (lit "nguoihuongdan",
         match nguoihuongdanIndex with
         | Some i => VString (ToString (orElse (JS.index row i) (VString [])))
         | None => VString []
         end) ] in
  let rowData :=
    match tvIndex with
    | Some i =>
      if isNullish (JS.index row i) then rowData
      else setOwn (lit "tv") (VNumber (readNumber (JS.index row i))) rowData
    | None => rowData
    end in
  fold_left (fun rowData hi => readChapter row rowData (fst hi) (snd hi))
            (mapi (fun h i => (h, i)) headers) rowData.

Definition readDataFileForReporting (data : grid) : result (list (object value)) :=
  match data with
  | headerRow :: (_ :: _) as dataRows =>
    let headers := map normalizeString headerRow in
    let tendetaiIndex := findHeaderIndex headers [lit "Tên đề tài"; lit "tendetai"] in
    let hotenhvIndex := findHeaderIndex headers [lit "Họ tên HV"; lit "hotenhv"] in
    let sohocvienIndex := findHeaderIndex headers [lit "Số học viên"; lit "sohocvien"] in
    let nguoihuongdanIndex := findHeaderIndex headers [lit "Người hướng dẫn"; lit "nguoihuongdan"] in
    let tvIndex := findHeaderIndex headers [lit "TV"] in
    match tendetaiIndex, hotenhvIndex with
    | Some tendetaiIndex, Some hotenhvIndex =>
      let reportData :=
        map (readRow headers tendetaiIndex hotenhvIndex
                     sohocvienIndex nguoihuongdanIndex tvIndex) dataRows in
      Ok (filter (fun d => truthy (get (lit "tendetai") d) && truthy (get (lit "hotenhv") d))
                 reportData)
    | _, _ => Throw missingDataColumns
    end
  | _ => Throw dataFileTooShort
  end.

(** *** Conclusions *)

Inductive projectType : Type := DATN | BCCD.

(** The strings ['ĐATN'] and ['BCCĐ'] of the union type. *)
Definition projectTypeName (p : projectType) : jsstring :=
  match p with
  | DATN => lit "ĐATN"
  | BCCD => lit "BCCĐ"
  end.

Record conclusions : Type := mkConclusions {
  kl1_box : jsstring;
  kl2_box : jsstring;
  kl3_box : jsstring;
  kl4_box : jsstring;
  ketluan1 : jsstring;
  ketluan2 : jsstring;
  ketluan3 : jsstring;
  ketluan4 : jsstring
}.

Definition UNCHECKED_BOX : jsstring := lit "☐".
Definition CHECKED_BOX : jsstring := lit "☑".

Definition initialConclusions : conclusions :=
  {| kl1_box := UNCHECKED_BOX;
     kl2_box := UNCHECKED_BOX;
     kl3_box := UNCHECKED_BOX;
     kl4_box := UNCHECKED_BOX;
     ketluan1 := lit "Đảm bảo tỉ lệ cho phép, đề nghị Hội đồng đánh giá ĐATN / Cán bộ chấm thi BCCĐ đánh giá và kết luận.";
     ketluan2 := lit "Tỉ lệ trùng lặp trong khoảng cần xử lý (ĐATN: 25%-35%; BCCĐ: 30%-40%), đề nghị Hội đồng đánh giá ĐATN / Cán bộ chấm thi BCCĐ trừ điểm theo Quy định.";
     ketluan3 := lit "Vượt tỉ lệ, đề nghị học viên chỉnh sửa trong thời gian 03 ngày (ĐATN) / 02 ngày (BCCĐ) và nộp lại để kiểm tra lần tiếp theo.";
     ketluan4 := lit "Vượt tỉ lệ tối đa (ĐATN > 35%; BCCĐ > 40%): không được bảo vệ/không được chấm, điểm 0." |}.

Definition check1 (c : conclusions) : conclusions :=
  mkConclusions CHECKED_BOX (kl2_box c) (kl3_box c) (kl4_box c)
                (ketluan1 c) (ketluan2 c) (ketluan3 c) (ketluan4 c).
Definition check2 (c : conclusions) : conclusions :=
  mkConclusions (kl1_box c) CHECKED_BOX (kl3_box c) (kl4_box c)
                (ketluan1 c) (ketluan2 c) (ketluan3 c) (ketluan4 c).
Definition check3 (c : conclusions) : conclusions :=
  mkConclusions (kl1_box c) (kl2_box c) CHECKED_BOX (kl4_box c)
                (ketluan1 c) (ketluan2 c) (ketluan3 c) (ketluan4 c).
Definition check4 (c : conclusions) : conclusions :=
  mkConclusions (kl1_box c) (kl2_box c) (kl3_box c) CHECKED_BOX
                (ketluan1 c) (ketluan2 c) (ketluan3 c) (ketluan4 c).

Definition getConclusionData (tv : number) (projectType : projectType) (isFirstCheck : bool)
  : conclusions :=
  let conclusions := initialConclusions in
  match projectType with
  | DATN =>
    if ltNum tv (ofZ 25) then check1 conclusions
    else if geNum tv (ofZ 25) && leNum tv (ofZ 35) then
      if isFirstCheck then check3 conclusions else check2 conclusions
    else if gtNum tv (ofZ 35) then
      if isFirstCheck then check3 conclusions else check4 conclusions
    else conclusions
  | BCCD =>
    if ltNum tv (ofZ 30) then check1 conclusions
    else if geNum tv (ofZ 30) && leNum tv (ofZ 40) then
      if isFirstCheck then check3 conclusions else check2 conclusions
    else if gtNum tv (ofZ 40) then
      if isFirstCheck then check3 conclusions else check4 conclusions
    else conclusions
  end.

(** The optional field [tv] of a merged record. *)
Definition tvOf (row : object value) : option number :=
  match getOwn (lit "tv") row with
  | Some (VNumber n) => Some n
  | _ => None
  end.

(** [row.tv || 0] *)
Definition tvOrZero (row : object value) : number :=
  match tvOf row with
  | Some n => if truthy (VNumber n) then n else ofZ 0
  | None => ofZ 0
  end.

(** *** The report generator: project type and file names *)

(** Step 2 of [generateWordReports]. *)
Definition effectiveProjectType (templateName : jsstring) (projectTypeFromUI : projectType)
  : projectType :=
  let normalizedFileName := normalizeString (VString templateName) in
  if includes normalizedFileName (lit "datn") || includes normalizedFileName (lit "kltn")
  then DATN
  else if includes normalizedFileName (lit "bccd") then BCCD
  else projectTypeFromUI.

(** Step 3 of [generateWordReports]. *)
Definition baseName (templateName : jsstring) (projectTypeFromUI : projectType) : jsstring :=
  let normalizedFileName := normalizeString (VString templateName) in
  if includes normalizedFileName (lit "kltn") then lit "KQ_KLTN"
  else if includes normalizedFileName (lit "datn") then lit "KQ_ĐATN"
  else if includes normalizedFileName (lit "bccd") then lit "KQ_BCCĐ"
  else lit "KQ_" ++ projectTypeName (effectiveProjectType templateName projectTypeFromUI).

(** The name of the report of the record at [index]. *)
Definition reportFileName (templateName : jsstring) (projectTypeFromUI : projectType)
           (index : nat) : jsstring :=
  baseName templateName projectTypeFromUI ++ lit "_" ++ digitsOfNat (index + 1) ++ lit ".docx".

(** Step 4 of [generateWordReports]: the conclusion bound for one record. *)
Definition conclusionDataOf (row : object value) (templateName : jsstring)
           (isFirstCheck : bool) (projectTypeFromUI : projectType) : conclusions :=
  getConclusionData (tvOrZero row)
                    (effectiveProjectType templateName projectTypeFromUI) isFirstCheck.

(** *** The report generator: the data bound to the template *)

Section TemplateData.

(** [x.toFixed(2)].  The rounding of a binary double is outside the model
    of Numbers, so the function is a parameter: what follows holds for
    every function in its place. *)
Variable toFixed2 : number -> jsstring.

(** One line of [chuong_data]. *)
Record chapterLine : Type := mkChapterLine {
  stt : number;
  chuong : jsstring;
  tyle : jsstring;
  ghi_chu : jsstring
}.

(** The body of [for (const key in row)]: the line pushed for [key]. *)
Definition chapterLineOf (row : object value) (key : jsstring) : option chapterLine :=
  if startsWith key (lit "c") && negb (isNaN (parseIntAuto (skipn 1 key))) then
    let chapterNum := parseIntAuto (skipn 1 key) in
    if gtNum chapterNum (ofZ 0) then
      let value := get key row in
      Some (mkChapterLine chapterNum
                          (lit "Chương " ++ numberToString chapterNum)
                          (match value with VNumber n => toFixed2 n | _ => [] end)
                          [])
    else None
  else None.

(** [chapters] when the loop ends. *)
Definition chapterLines (row : object value) : list chapterLine :=
  flat_map (fun key => match chapterLineOf row key with Some line => [line] | None => [] end)
           (keys row).

(** [chapters.sort((a,b) => a.stt - b.stt)] *)
Definition sortedChapters (row : object value) : list chapterLine :=
  sortWith (fun a b => subNum (stt a) (stt b)) (chapterLines row).

(** [row.tv ? row.tv.toFixed(2) : '0.00']: a truthy [tv] that is not a
    Number has no [toFixed]. *)
Definition tvText (row : object value) : result jsstring :=
  match get (lit "tv") row with
  | VNumber n => if truthy (VNumber n) then Ok (toFixed2 n) else Ok (lit "0.00")
  | v => if truthy v then Throw TypeError else Ok (lit "0.00")
  end.

Record templateData : Type := mkTemplateData {
  hoten_hv : value;
  ten_detai : value;
  nguoi_huongdan : value;
  loai_tai_lieu : jsstring;
  TV : jsstring;
  chuong_data : list chapterLine;
  conclusionData : conclusions
}.

(** The object given to [doc.setData] for one record. *)
Definition templateDataOf (row : object value) (templateName : jsstring)
           (isFirstCheck : bool) (projectTypeFromUI : projectType) : result templateData :=
  let effectiveProjectType := effectiveProjectType templateName projectTypeFromUI in
  let chapters := sortedChapters row in
  let conclusionData := conclusionDataOf row templateName isFirstCheck projectTypeFromUI in
  tv <- tvText row ;;
  Ok {| hoten_hv := get (lit "hotenhv") row;
        ten_detai := get (lit "tendetai") row;
        nguoi_huongdan := get (lit "nguoihuongdan") row;
        loai_tai_lieu := match effectiveProjectType with
                         | DATN => lit "ĐATN/KLTN"
                         | BCCD => lit "BCCĐ"
                         end;
        TV := tv;
        chuong_data := chapters;
        conclusionData := conclusionData |}.

(** The loop of [generateWordReports] from the record at [index] on: the
    name of each report in the archive and the data its template is
    rendered with.  Rendering itself is the template engine's. *)
Fixpoint reportsFrom (index : nat) (mergedData : list (object value))
         (templateName : jsstring) (isFirstCheck : bool) (projectTypeFromUI : projectType)
  : result (list (jsstring * templateData)) :=
  match mergedData with
  | [] => Ok []
  | row :: rest =>
    templateData <- templateDataOf row templateName isFirstCheck projectTypeFromUI ;;
    reports <- reportsFrom (S index) rest templateName isFirstCheck projectTypeFromUI ;;
    Ok ((reportFileName templateName projectTypeFromUI index, templateData) :: reports)
  end.

Definition generateWordReports (mergedData : list (object value)) (templateName : jsstring)
           (isFirstCheck : bool) (projectTypeFromUI : projectType)
  : result (list (jsstring * templateData)) :=
  reportsFrom 0 mergedData templateName isFirstCheck projectTypeFromUI.

End TemplateData.

End FileProcessor.

(* ================================================================= *)
(** * App *)

Module App.

Import FileProcessor.

Inductive ConclusionCategory : Type :=
| withinLimit
| l1Edit
| l2Process
| l2Exceeded.

Definition getConclusionCategory (tv : number) (projectType : projectType)
           (isFirstCheck : bool) : ConclusionCategory :=
  match projectType with
  | DATN =>
    if ltNum tv (ofZ 25) then withinLimit
    else if geNum tv (ofZ 25) && leNum tv (ofZ 35) then
      if isFirstCheck then l1Edit else l2Process
    else if isFirstCheck then l1Edit else l2Exceeded
  | BCCD =>
    if ltNum tv (ofZ 30) then withinLimit
    else if geNum tv (ofZ 30) && leNum tv (ofZ 40) then
      if isFirstCheck then l1Edit else l2Process
    else if isFirstCheck then l1Edit else l2Exceeded
  end.

(** The project type [handleGenerateReports] computes for its statistics. *)
Definition effectiveProjectType (wordTemplateFileName : jsstring) (projectType : projectType)
  : FileProcessor.projectType :=
  let normalizedFileName := normalizeString (VString wordTemplateFileName) in
  if includes normalizedFileName (lit "datn") || includes normalizedFileName (lit "kltn")
  then DATN
  else if includes normalizedFileName (lit "bccd") then BCCD
  else projectType.

(** The category [handleGenerateReports] counts a record under. *)
Definition categoryOf (row : object value) (wordTemplateFileName : jsstring)
           (isFirstCheck : bool) (projectType : projectType) : ConclusionCategory :=
  getConclusionCategory (tvOrZero row)
                        (effectiveProjectType wordTemplateFileName projectType) isFirstCheck.

(** [DashboardStats]: the two totals, and the four counters that
    [newStats[category]] reads and writes. *)
Record DashboardStats : Type := mkDashboardStats {
  totalProjects : number;
  totalStudents : value;
  counter : ConclusionCategory -> number
}.

(** [CategorizedProjects]: one array of records per category. *)
Definition CategorizedProjects : Type := ConclusionCategory -> list (object value).

Definition sameCategory (a b : ConclusionCategory) : bool :=
  match a, b with
  | withinLimit, withinLimit | l1Edit, l1Edit
  | l2Process, l2Process | l2Exceeded, l2Exceeded => true
  | _, _ => false
  end.

(** [data.reduce((acc, row) => acc + (row['sohocvien'] || 0), 0)] *)
Definition sumStudents (data : list (object value)) : value :=
  fold_left (fun acc row => plus acc (orElse (get (lit "sohocvien") row) (VNumber (ofZ 0))))
            data (VNumber (ofZ 0)).

(** The statistics [handleMergeExcel] sets after a merge. *)
Definition mergeStats (data : list (object value)) : DashboardStats :=
  {| totalProjects := ofNat (length data);
     totalStudents := sumStudents data;
     counter := fun _ => ofZ 0 |}.

(** [newStats[category]++] *)
Definition increment (category : ConclusionCategory) (stats : DashboardStats)
  : DashboardStats :=
  {| totalProjects := totalProjects stats;
     totalStudents := totalStudents stats;
     counter := fun c => if sameCategory c category
                         then addNum (counter stats c) (ofZ 1)
                         else counter stats c |}.

(** [newCategorizedProjects[category].push(row)] *)
Definition push (category : ConclusionCategory) (row : object value)
           (projects : CategorizedProjects) : CategorizedProjects :=
  fun c => if sameCategory c category then projects c ++ [row] else projects c.

(** The statistics and the categorized records [handleGenerateReports]
    computes after the reports: the body of its [for] loop, folded over the
    records. *)
Definition reportStats (dataForReport : list (object value)) (wordTemplateFileName : jsstring)
           (isFirstCheck : bool) (projectType : projectType)
  : DashboardStats * CategorizedProjects :=
  fold_left (fun acc row =>
               let category := categoryOf row wordTemplateFileName isFirstCheck projectType in
               (increment category (fst acc), push category row (snd acc)))
            dataForReport
            (mergeStats dataForReport, fun _ => []).

End App.

Import FileProcessor.

(* ================================================================= *)
(** * Notions used by the statements *)

(** The four checkbox slots of a presentation, and how many are checked. *)
Definition boxes (c : conclusions) : list jsstring :=
  [kl1_box c; kl2_box c; kl3_box c; kl4_box c].

Definition checkedCount (c : conclusions) : nat :=
  length (filter (fun box => str_eqb box CHECKED_BOX) (boxes c)).

(** The slot that stands for a category. *)
Definition boxOf (cat : App.ConclusionCategory) (c : conclusions) : jsstring :=
  match cat with
  | App.withinLimit => kl1_box c
  | App.l1Edit => kl3_box c
  | App.l2Process => kl2_box c
  | App.l2Exceeded => kl4_box c
  end.

(** [String(cell || '')] *)
Definition textOf (cell : value) : jsstring := ToString (orElse cell (VString [])).

(** The rows of a data file that give a record: both texts are non-empty. *)
Definition completeRow (tendetaiIndex hotenhvIndex : nat) (row : list value) : bool :=
  truthy (VString (textOf (JS.index row tendetaiIndex)))
  && truthy (VString (textOf (JS.index row hotenhvIndex))).

(** The number after "tile" in the normalized header of a ratio column. *)
Definition trailingInteger (c : column) : Z :=
  digitsValue (skipn (length (lit "tile")) (norm c)).

(** The number a cell parses to: none for an absent cell, for a cell that
    is neither text nor a number, and for text that does not start with a
    decimal literal (after its first comma is read as a dot). *)
Definition parsedNumber (cell : value) : option number :=
  if isNullish cell then None
  else match cellNumber cell with
       | Some n => if isNaN n then None else Some n
       | None => None
       end.

(** A cell is blank when it is absent or its text is empty after trimming. *)
Definition blankCell (cell : value) : bool :=
  isNullish cell || match trim (ToString cell) with [] => true | _ => false end.

(** The number of a chapter cell: the cell is not blank and parses. *)
Definition chapterNumber (cell : value) : option number :=
  if blankCell cell then None else parsedNumber cell.

(** An integer that [parseInt] returns exactly: one below 2^53. *)
Definition exactInteger (z : Z) : bool := (Z.abs z <? 2 ^ 53)%Z.

(** A parsed number that the double of the code stands for exactly: an
    infinity, or a decimal whose canonical mantissa has at most 15 digits
    and whose value lies well inside the range of normal doubles. *)
Definition exactDecimal (n : number) : bool :=
  match n with
  | Finite m e => ((Z.abs m <? 10 ^ 15) && (-300 <=? e) && (e <=? 290))%Z
  | _ => true
  end.

(** A cell whose text, if it is one, parses to an [exactDecimal] or does
    not parse.  A Number cell is taken as it is by the merger. *)
Definition exactCell (cell : value) : bool :=
  match cell with
  | VString s => exactDecimal (parseFloat (replaceFirst 44 46 s))
  | _ => true
  end.

(** A supplementary sheet that the model reads as the code does: the
    numbers of its ratio headers are exact integers and its text cells are
    exact cells. *)
Definition exactlyRead (dfSupp : grid) : bool :=
  let headerRowIndex := detectHeaderRow dfSupp suppKeywords in
  let headers := headerTexts (nth headerRowIndex dfSupp []) in
  let dataRows := skipn (headerRowIndex + 1) dfSupp in
  forallb (fun c => exactInteger (trailingInteger c)) (projectRatioColumns headers)
  && forallb (forallb exactCell) dataRows.

(** The fields every merged record has. *)
Definition coreFields : list jsstring :=
  [lit "hotenhv"; lit "tendetai"; lit "sohocvien"; lit "nguoihuongdan"].

(** The rule for [tv] as the specification words it: the field is set
    exactly when a TV column was resolved, the data row at the position
    of the record exists, and its TV cell parses to a finite number. *)
Definition tvSetIffFinite (dfSupp : grid) (i : nat) (rec : object value) : Prop :=
  let headerRowIndex := detectHeaderRow dfSupp suppKeywords in
  let headers := headerTexts (nth headerRowIndex dfSupp []) in
  let dataRows := skipn (headerRowIndex + 1) dfSupp in
  getOwn (lit "tv") rec <> None <->
  exists c row n,
    tvColumnIndex headers = Some c /\ nth_error dataRows i = Some row /\
    cellNumber (JS.index row c) = Some n /\ isFinite n = true.

(** The sample of the specification: three topics, a TV column holding
    10, "28,5" and "", and two ratio columns of three rows. *)
Definition sampleTopic (title names : string) : object value :=
  [ (lit "Tên đề tài", VString (lit title));
    (lit "Họ tên HV", VString (lit names));
    (lit "Số học viên", VNumber (ofNat 1));
    (lit "Người hướng dẫn", VString []) ].

Definition sampleTopics : list (object value) :=
  [sampleTopic "T1" "A"; sampleTopic "T2" "B"; sampleTopic "T3" "C"].

Definition sampleSupp : grid :=
  [ [VString (lit "TV"); VString (lit "Tỉ lệ 1"); VString (lit "Tỉ lệ 2")];
    [VNumber (ofZ 10); VNumber (ofZ 1); VNumber (ofZ 4)];
    [VString (lit "28,5"); VNumber (ofZ 2); VNumber (ofZ 5)];
    [VString []; VNumber (ofZ 3); VNumber (ofZ 6)] ].

Definition sampleRecord (title names : string) (fields : object value) : object value :=
  [ (lit "hotenhv", VString (lit names));
    (lit "tendetai", VString (lit title));
    (lit "sohocvien", VNumber (ofNat 1));
    (lit "nguoihuongdan", VString []) ] ++ fields.

(** The distinct keys of a list, in the order of their first appearance. *)
Fixpoint firstKeys (ks : list jsstring) : list jsstring :=
  match ks with
  | [] => []
  | k :: ks' => k :: filter (fun k' => negb (str_eqb k' k)) (firstKeys ks')
  end.

(** The title a filled row is grouped under, and its trimmed name. *)
Definition titleOf (topicCol : jsstring) (obj : object value) : jsstring :=
  ToString (get topicCol obj).

Definition trimmedName (nameCol : jsstring) (obj : object value) : jsstring :=
  trim (ToString (orElse (get nameCol obj) (VString []))).

Definition nonEmpty (s : jsstring) : bool :=
  match s with [] => false | _ => true end.

(** The last non-blank value of a list of cells, [''] when there is none. *)
Definition lastNonBlank (cells : list value) : value :=
  hd (VString []) (filter truthy (rev cells)).

(** The aggregation as the specification words it, on rows given as a
    topic cell and a name cell: forward-fill the blank topics, drop the
    rows with a blank name, group by title in order of first appearance,
    join the trimmed names of a group with ", " and count its rows.
    [blank] is the reading of "blank". *)
Fixpoint forwardFill (blank : value -> bool) (last : value) (rows : list (value * value))
  : list (value * value) :=
  match rows with
  | [] => []
  | (topic, name) :: rest =>
    if blank topic then (last, name) :: forwardFill blank last rest
    else (topic, name) :: forwardFill blank topic rest
  end.

Definition statedAggregate (blank : value -> bool) (rows : list (value * value))
  : list (jsstring * jsstring * nat) :=
  let kept := filter (fun tn => negb (blank (snd tn))) (forwardFill blank (VString []) rows) in
  map (fun t =>
         let group := filter (fun tn => str_eqb (ToString (fst tn)) t) kept in
         (t, join (lit ", ") (map (fun tn => trim (ToString (snd tn))) group), length group))
      (firstKeys (map (fun tn => ToString (fst tn)) kept)).

(** Two readings of "blank": absent or empty, and also empty after trimming. *)
Definition blankEmpty (cell : value) : bool := negb (truthy cell).

Definition blankTrimmed (cell : value) : bool :=
  negb (truthy cell) || negb (nonEmpty (trim (ToString cell))).

(** Title, names and count of an aggregated topic. *)
Definition topicSummary (rec : object value) : jsstring * jsstring * value :=
  (ToString (get (lit "Tên đề tài") rec), ToString (get (lit "Họ tên HV") rec),
   get (lit "Số học viên") rec).

Definition statedSummary (r : jsstring * jsstring * nat) : jsstring * jsstring * value :=
  (fst (fst r), snd (fst r), VNumber (ofNat (snd r))).

(** A main sheet with the two required columns and the given rows. *)
Definition rosterSheet (rows : list (value * value)) : grid :=
  [VString (lit "Tên đề tài"); VString (lit "Họ tên HV")]
    :: map (fun tn => [fst tn; snd tn]) rows.

(** Membership in a list of keys. *)
Definition mem (k : jsstring) (ks : list jsstring) : bool := existsb (str_eqb k) ks.

(** The accumulator of [groupRows] after the rows [seen]. *)
Definition groupsOf (topicCol : jsstring) (seen : list (object value))
  : object (list (object value)) :=
  map (fun t => (t, filter (fun obj => str_eqb (titleOf topicCol obj) t) seen))
      (firstKeys (map (titleOf topicCol) seen)).

(** A string that starts with a visible character. *)
Definition visibleHead (s : jsstring) : bool :=
  match s with
  | c :: _ => negb (isWhiteSpace c)
  | [] => false
  end.

(** *** The merged workbook

    The workbook library is not part of the repository, and what it
    returns is a parameter of the statements about it.  [sheetArrays rows]
    is the array of arrays of a sheet that is read back cell for cell: the
    header row holds the keys of the row objects in order of first
    appearance, every object gives one row, a key the object lacks or an
    [undefined] value leaves the cell empty, an empty cell is [null] (the
    [defval] of [readFileAsArray]), and every other cell is the value
    written. *)
Definition sheetHeader (rows : list (object value)) : list jsstring :=
  firstKeys (flat_map (@keys value) rows).

Definition sheetCell (row : object value) (h : jsstring) : value :=
  match getOwn h row with
  | Some VUndefined | None => VNull
  | Some v => v
  end.

Definition sheetArrays (rows : list (object value)) : grid :=
  map VString (sheetHeader rows)
      :: map (fun row => map (sheetCell row) (sheetHeader rows)) rows.

(** The canonical form of a Number, and of a Number field: two finite
    Numbers are the same Number when their canonical forms are equal
    ([10 * 10^0] and [1 * 10^1]). *)
Definition canon (n : number) : number :=
  match n with
  | Finite m e => decimal m e
  | _ => n
  end.

Definition canonField (field : option value) : option value :=
  match field with
  | Some (VNumber n) => Some (VNumber (canon n))
  | _ => field
  end.

(** The fields of the round trip are the same in two records: the same
    [tendetai], the same [hotenhv], and the same Number or none in [tv]
    and in every chapter field. *)
Definition sameFields (rec' rec : object value) : Prop :=
  get (lit "tendetai") rec' = get (lit "tendetai") rec /\
  get (lit "hotenhv") rec' = get (lit "hotenhv") rec /\
  canonField (getOwn (lit "tv") rec') = canonField (getOwn (lit "tv") rec) /\
  forall j, canonField (getOwn (chapterKey j) rec')
            = canonField (getOwn (chapterKey j) rec).

(** The same, with the title of the second record read as text:
    [String(title || '')]. *)
Definition sameFieldsAsText (rec' rec : object value) : Prop :=
  get (lit "tendetai") rec' = VString (textOf (get (lit "tendetai") rec)) /\
  get (lit "hotenhv") rec' = get (lit "hotenhv") rec /\
  canonField (getOwn (lit "tv") rec') = canonField (getOwn (lit "tv") rec) /\
  forall j, canonField (getOwn (chapterKey j) rec')
            = canonField (getOwn (chapterKey j) rec).

(** A merged record with a title and names. *)
Definition completeRecord (rec : object value) : bool :=
  nonEmpty (textOf (get (lit "tendetai") rec))
  && nonEmpty (textOf (get (lit "hotenhv") rec)).

(** [`C${n}`] *)
Definition upperKey (n : nat) : jsstring := 67%N :: digitsOfNat n.

(** The columns of the merged sheet that every row has. *)
Definition sheetFields : list jsstring :=
  [lit "Tên đề tài"; lit "Người hướng dẫn"; lit "Số học viên"; lit "Họ tên HV"; lit "TV"].

(** What is known of a record of the merger inside [generateMergedExcel]. *)
Definition mergedRecord (rec : object value) : Prop :=
  (exists names, get (lit "hotenhv") rec = VString names) /\
  (exists n, get (lit "sohocvien") rec = VNumber n) /\
  (forall k, getOwn k rec <> None ->
             In k coreFields \/ k = lit "tv" \/ exists j, k = chapterKey j) /\
  (forall k v, k = lit "tv" \/ (exists j, k = chapterKey j) ->
               getOwn k rec = Some v -> exists n, v = VNumber n).

(** The cell read back for a written value, and the cells of the row of
    a merged record. *)
Definition cellOf (v : value) : value :=
  match v with
  | VUndefined => VNull
  | _ => v
  end.

Definition fixedCells (rec : object value) : list value :=
  [ cellOf (get (lit "tendetai") rec); cellOf (get (lit "nguoihuongdan") rec);
    cellOf (get (lit "sohocvien") rec); cellOf (get (lit "hotenhv") rec);
    cellOf (get (lit "tv") rec) ].

Definition chapterCell (rec : object value) (j : nat) : value :=
  match getOwn (chapterKey j) rec with
  | Some v => cellOf v
  | None => VNull
  end.

(** The normalized headers of the fixed columns of the merged sheet. *)
Definition normFields : list jsstring :=
  [lit "tendetai"; lit "nguoihuongdan"; lit "sohocvien"; lit "hotenhv"; lit "tv"].

(** A Number in canonical form: the mantissa of a non-zero value has no
    trailing zero, and zero is [0 * 10^0].  Every Number has exactly one
    canonical form, the one [decimal] builds. *)
Definition canonical (x : number) : bool :=
  match x with
  | Finite m e => if (m =? 0)%Z then (e =? 0)%Z else negb (m mod 10 =? 0)%Z
  | _ => true
  end.

(** [parseFloat] after white space and the sign. *)
Definition parseUnsigned (neg : bool) (r : jsstring) : number :=
  if startsWith r (lit "Infinity") then Infinity neg
  else
    let (ip, r1) := spanDigits r in
    match r1 with
    | 46%N :: r2 =>
      let (fp, r3) := spanDigits r2 in
      match ip, fp with
      | [], [] => NaN
      | _, _ => decimal (signed neg (digitsValue (ip ++ fp)))
                        (readExponent r3 - Z.of_nat (length fp))
      end
    | _ =>
      match ip with
      | [] => NaN
      | _ => decimal (signed neg (digitsValue ip)) (readExponent r1)
      end
    end.

(** One step of [digitsValue]. *)
Definition digitStep (acc : Z) (c : N) : Z := (acc * 10 + (Z.of_N c - 48))%Z.

(** A string at which a run of digits ends. *)
Definition stopsDigits (r : jsstring) : Prop :=
  match r with
  | c :: _ => isDigit c = false
  | [] => True
  end.

(** A string that starts with a digit. *)
Definition digitHead (s : jsstring) : bool :=
  match s with
  | c :: _ => isDigit c
  | [] => false
  end.

(** The two sheets of the witness of the round trip, and a main sheet
    whose first row has no topic. *)
Definition sampleMain : grid :=
  rosterSheet [ (VString (lit "T1"), VString (lit "A"));
                (VNull, VString (lit "B"));
                (VString (lit "T2"), VString (lit "C")) ].

Definition untitledMain : grid :=
  rosterSheet [ (VNull, VString (lit "A"));
                (VString (lit "T2"), VString (lit "B")) ].

(** A main sheet whose one title is a Number cell. *)
Definition numberedMain : grid :=
  rosterSheet [ (VNumber (ofZ 2024), VString (lit "A")) ].

(** The pipeline of [normalizeString] on the code units of a string. *)
Definition normalizeUnits (s : jsstring) : jsstring :=
  keepAlphanumeric (replaceDStroke (toLowerCase (removeDiacritics (normalizeNFD s)))).

(** The header [h] answers to the keyword [kw]: its normalized text
    contains the normalized keyword. *)
Definition answers (kw h : jsstring) : bool :=
  includes (normalizeString (VString h)) (normalizeString (VString kw)).

(** No header answers to any of the keywords. *)
Definition unanswered (headers keywords : list jsstring) : Prop :=
  forall kw h, In kw keywords -> In h headers -> answers kw h = false.

Definition topicKeywords : list jsstring := [lit "Tên đề tài"; lit "De tai"].
Definition nameKeywords : list jsstring := [lit "Họ tên HV"; lit "Ten hoc vien"].
Definition guideKeywords : list jsstring := [lit "Người hướng dẫn"].

(** The rows [processMainData] groups: the filled rows that have a name. *)
Definition keptRows (headers : list jsstring) (topicCol nameCol : jsstring) (dataRows : grid)
  : list (object value) :=
  filter (fun obj => truthy (get nameCol obj))
         (fillTopics headers topicCol (VString []) dataRows).

(** A row whose title names a member of [Object.prototype]. *)
Definition inheritedTitle (topicCol : jsstring) (obj : object value) : bool :=
  inherited (titleOf topicCol obj).

(** The chapter fields the merger adds, row after row, from the ratio
    column at [ratioColIndex]; the first row has number [chapterIndex + 1]. *)
Fixpoint chapterFieldsFrom (ratioColIndex chapterIndex : nat) (dataRows : grid)
  : list (nat * number) :=
  match dataRows with
  | [] => []
  | row :: rest =>
    match chapterNumber (JS.index row ratioColIndex) with
    | Some n => [(chapterIndex + 1, n)]
    | None => []
    end ++ chapterFieldsFrom ratioColIndex (S chapterIndex) rest
  end.

(** The chapters of the project at [projectIndex]: number and value. *)
Definition chaptersOf (dataRows : grid) (ratioColumns : list column) (projectIndex : nat)
  : list (nat * number) :=
  match nth_error ratioColumns projectIndex with
  | Some col => chapterFieldsFrom (index col) 0 dataRows
  | None => []
  end.

(** The [tv] of the project at [projectIndex], when it has one. *)
Definition tvFieldOf (dataRows : grid) (tvColIndex : option nat) (projectIndex : nat)
  : option number :=
  match tvColIndex, nth_error dataRows projectIndex with
  | Some c, Some row => parsedNumber (JS.index row c)
  | _, _ => None
  end.

(** The properties of a merged record in the order of their creation. *)
Definition mergedLayout (dataRows : grid) (tvColIndex : option nat)
           (ratioColumns : list column) (mainRow : object value) (projectIndex : nat)
  : object value :=
  [ (lit "hotenhv", get (lit "Họ tên HV") mainRow);
    (lit "tendetai", get (lit "Tên đề tài") mainRow);
    (lit "sohocvien", get (lit "Số học viên") mainRow);
    (lit "nguoihuongdan", get (lit "Người hướng dẫn") mainRow) ]
  ++ match tvFieldOf dataRows tvColIndex projectIndex with
     | Some n => [(lit "tv", VNumber n)]
     | None => []
     end
  ++ map (fun jn => (chapterKey (fst jn), VNumber (snd jn)))
         (chaptersOf dataRows ratioColumns projectIndex).

(** The line of the chapter table for chapter [j] with value [n]. *)
Definition lineOf (toFixed2 : number -> jsstring) (jn : nat * number) : chapterLine :=
  mkChapterLine (ofNat (fst jn)) (lit "Chương " ++ numberToString (ofNat (fst jn)))
                (toFixed2 (snd jn)) [].

(** A record whose [tv] is a Number or falsy: [row.tv.toFixed] is never
    called on anything else. *)
Definition tvUsable (row : object value) : bool :=
  match get (lit "tv") row with
  | VNumber _ => true
  | v => negb (truthy v)
  end.

(** No normalized header contains a keyword of the list. *)
Definition unlisted (headers keywords : list jsstring) : Prop :=
  forall kw h, In kw keywords -> In h headers ->
               includes h (normalizeString (VString kw)) = false.

(** A cell that keeps its row: a number, a boolean, or text with a
    character that is not white space. *)
Definition visibleCell (cell : value) : bool :=
  match cell with
  | VNull => false
  | VString s => existsb (fun c => negb (isWhiteSpace c)) s
  | _ => true
  end.

(* ================================================================= *)
(** * Properties *)

(** ** Strings and lists *)

Lemma str_eqb_eq (a b : jsstring) : str_eqb a b = true <-> a = b.
Proof.
  revert b; induction a as [|x a IH]; intros [|y b]; simpl; split;
    try congruence; try reflexivity.
  - intros H. apply andb_true_iff in H as [H1 H2].
    apply N.eqb_eq in H1. apply IH in H2. congruence.
  - intros H. injection H as -> ->. rewrite N.eqb_refl. simpl. now apply IH.
Qed.

Lemma str_eqb_refl (a : jsstring) : str_eqb a a = true.
Proof. now apply str_eqb_eq. Qed.

Lemma str_eqb_sym (a b : jsstring) : str_eqb a b = str_eqb b a.
Proof.
  destruct (str_eqb a b) eqn:E, (str_eqb b a) eqn:E'; try reflexivity.
  - apply str_eqb_eq in E as ->. now rewrite str_eqb_refl in E'.
  - apply str_eqb_eq in E' as ->. now rewrite str_eqb_refl in E.
Qed.

Lemma str_eqb_neq (a b : jsstring) : str_eqb a b = false <-> a <> b.
Proof.
  destruct (str_eqb a b) eqn:E.
  - apply str_eqb_eq in E. split; [discriminate | congruence].
  - split; [|reflexivity]. intros _ H. apply str_eqb_eq in H. congruence.
Qed.

(** ** Numbers *)

Lemma ofZ_0 : ofZ 0 = Finite 0 0. Proof. reflexivity. Qed.
Lemma ofZ_25 : ofZ 25 = Finite 25 0. Proof. reflexivity. Qed.
Lemma ofZ_30 : ofZ 30 = Finite 3 1. Proof. reflexivity. Qed.
Lemma ofZ_35 : ofZ 35 = Finite 35 0. Proof. reflexivity. Qed.
Lemma ofZ_40 : ofZ 40 = Finite 4 1. Proof. reflexivity. Qed.

Section Comparisons.

Variables (m e : Z) (m0 e0 : Z) (z : Z).
Hypothesis Hz : valueQ m0 e0 = inject_Z z.

Lemma ltNum_Finite : ltNum (Finite m e) (Finite m0 e0) = true <-> (valueQ m e < inject_Z z)%Q.
Proof.
  unfold ltNum, compareNum. rewrite Hz, Qlt_alt.
  destruct (valueQ m e ?= inject_Z z)%Q; split; congruence.
Qed.

Lemma leNum_Finite : leNum (Finite m e) (Finite m0 e0) = true <-> (valueQ m e <= inject_Z z)%Q.
Proof.
  unfold leNum, compareNum. rewrite Hz, Qle_alt.
  destruct (valueQ m e ?= inject_Z z)%Q; split; congruence.
Qed.

Lemma gtNum_Finite : gtNum (Finite m e) (Finite m0 e0) = true <-> (inject_Z z < valueQ m e)%Q.
Proof.
  unfold gtNum, ltNum, compareNum. rewrite Hz, Qlt_alt.
  destruct (inject_Z z ?= valueQ m e)%Q; split; congruence.
Qed.

Lemma geNum_Finite : geNum (Finite m e) (Finite m0 e0) = true <-> (inject_Z z <= valueQ m e)%Q.
Proof.
  unfold geNum, leNum, compareNum. rewrite Hz, Qle_alt.
  destruct (inject_Z z ?= valueQ m e)%Q; split; congruence.
Qed.

End Comparisons.

(** The three bands of a pair of thresholds, as the comparisons of the
    code see them. *)
Lemma bands (m e : Z) (lo hi : number) (zlo zhi : Z) (mlo elo mhi ehi : Z) :
  lo = Finite mlo elo -> hi = Finite mhi ehi ->
  valueQ mlo elo = inject_Z zlo -> valueQ mhi ehi = inject_Z zhi ->
  (zlo <= zhi)%Z ->
  let q := valueQ m e in
  ((q < inject_Z zlo)%Q /\ ltNum (Finite m e) lo = true) \/
  ((inject_Z zlo <= q)%Q /\ (q <= inject_Z zhi)%Q /\
     ltNum (Finite m e) lo = false /\
     geNum (Finite m e) lo && leNum (Finite m e) hi = true) \/
  ((inject_Z zhi < q)%Q /\
     ltNum (Finite m e) lo = false /\
     geNum (Finite m e) lo && leNum (Finite m e) hi = false /\
     gtNum (Finite m e) hi = true).
Proof.
  intros -> -> Hlo Hhi Hle q.
  assert (Hq : (inject_Z zlo <= inject_Z zhi)%Q) by (rewrite <- Zle_Qle; exact Hle).
  destruct (Qlt_le_dec q (inject_Z zlo)) as [H1|H1].
  - left. split; [exact H1|]. now apply (@ltNum_Finite m e _ _ _ Hlo).
  - assert (Hnlt : ltNum (Finite m e) (Finite mlo elo) = false).
    { apply not_true_is_false. intros H. apply (@ltNum_Finite m e _ _ _ Hlo) in H.
      apply (Qlt_not_le _ _ H). exact H1. }
    destruct (Qlt_le_dec (inject_Z zhi) q) as [H2|H2].
    + right; right. repeat split; try assumption.
      * apply andb_false_iff. right. apply not_true_is_false. intros H.
        apply (@leNum_Finite m e _ _ _ Hhi) in H. apply (Qlt_not_le _ _ H2). exact H.
      * now apply (@gtNum_Finite m e _ _ _ Hhi).
    + right; left. repeat split; try assumption.
      apply andb_true_iff. split.
      * now apply (@geNum_Finite m e _ _ _ Hlo).
      * now apply (@leNum_Finite m e _ _ _ Hhi).
Qed.

Lemma bands_DATN (m e : Z) :
  let q := valueQ m e in
  ((q < 25)%Q /\ ltNum (Finite m e) (ofZ 25) = true) \/
  ((25 <= q)%Q /\ (q <= 35)%Q /\
     ltNum (Finite m e) (ofZ 25) = false /\
     geNum (Finite m e) (ofZ 25) && leNum (Finite m e) (ofZ 35) = true) \/
  ((35 < q)%Q /\
     ltNum (Finite m e) (ofZ 25) = false /\
     geNum (Finite m e) (ofZ 25) && leNum (Finite m e) (ofZ 35) = false /\
     gtNum (Finite m e) (ofZ 35) = true).
Proof.
  apply (@bands m e (ofZ 25) (ofZ 35) 25 35 25 0 35 0); try reflexivity. lia.
Qed.

Lemma bands_BCCD (m e : Z) :
  let q := valueQ m e in
  ((q < 30)%Q /\ ltNum (Finite m e) (ofZ 30) = true) \/
  ((30 <= q)%Q /\ (q <= 40)%Q /\
     ltNum (Finite m e) (ofZ 30) = false /\
     geNum (Finite m e) (ofZ 30) && leNum (Finite m e) (ofZ 40) = true) \/
  ((40 < q)%Q /\
     ltNum (Finite m e) (ofZ 30) = false /\
     geNum (Finite m e) (ofZ 30) && leNum (Finite m e) (ofZ 40) = false /\
     gtNum (Finite m e) (ofZ 40) = true).
Proof.
  apply (@bands m e (ofZ 30) (ofZ 40) 30 40 3 1 4 1); try reflexivity. lia.
Qed.

(** ** The classifier *)

Ltac band_cases m e :=
  let H := fresh "Hband" in
  pose proof (bands_DATN m e) as H;
  let H' := fresh "Hband" in
  pose proof (bands_BCCD m e) as H';
  cbv zeta in H, H'; unfold inject_Z in H, H'.

(** C1.  For every finite [tv] the classifier returns the category of the
    threshold table: for ĐATN, below 25 is [withinLimit], from 25 to 35
    (both included) is [l1Edit] on a first check and [l2Process] otherwise,
    above 35 is [l1Edit] on a first check and [l2Exceeded] otherwise; for
    BCCĐ the same with 30 and 40.  A record without [tv] is classified as
    0, hence [withinLimit].  The sample values of the specification are
    classified as it says. *)
Theorem classifier_threshold_table :
  (forall (m e : Z) (isFirstCheck : bool),
     let tv := Finite m e in
     let q := valueQ m e in
     ((q < 25)%Q ->
        App.getConclusionCategory tv DATN isFirstCheck = App.withinLimit) /\
     ((25 <= q)%Q /\ (q <= 35)%Q ->
        App.getConclusionCategory tv DATN isFirstCheck
        = if isFirstCheck then App.l1Edit else App.l2Process) /\
     ((35 < q)%Q ->
        App.getConclusionCategory tv DATN isFirstCheck
        = if isFirstCheck then App.l1Edit else App.l2Exceeded) /\
     ((q < 30)%Q ->
        App.getConclusionCategory tv BCCD isFirstCheck = App.withinLimit) /\
     ((30 <= q)%Q /\ (q <= 40)%Q ->
        App.getConclusionCategory tv BCCD isFirstCheck
        = if isFirstCheck then App.l1Edit else App.l2Process) /\
     ((40 < q)%Q ->
        App.getConclusionCategory tv BCCD isFirstCheck
        = if isFirstCheck then App.l1Edit else App.l2Exceeded)) /\
  (forall (row : object value) (templateName : jsstring)
          (isFirstCheck : bool) (projectType : projectType),
     tvOf row = None ->
     tvOrZero row = ofZ 0 /\
     App.categoryOf row templateName isFirstCheck projectType = App.withinLimit) /\
  App.getConclusionCategory (Finite 249 (-1)) DATN true = App.withinLimit /\
  App.getConclusionCategory (ofZ 25) DATN true = App.l1Edit /\
  App.getConclusionCategory (ofZ 35) DATN false = App.l2Process /\
  App.getConclusionCategory (Finite 351 (-1)) DATN false = App.l2Exceeded /\
  App.getConclusionCategory (ofZ 40) BCCD false = App.l2Process /\
  App.getConclusionCategory (ofZ 0) DATN true = App.withinLimit.
Proof.
  split; [|split].
  - intros m e fc tv q. subst tv q. band_cases m e.
    unfold App.getConclusionCategory.
    repeat split; intros Hq.
    1-3: destruct Hband as [[H1 H2]|[(H1 & H2 & H3 & H4)|(H1 & H2 & H3 & H4)]];
         rewrite ?H2, ?H3, ?H4; try reflexivity; exfalso; lra.
    all: destruct Hband0 as [[H1 H2]|[(H1 & H2 & H3 & H4)|(H1 & H2 & H3 & H4)]];
         rewrite ?H2, ?H3, ?H4; try reflexivity; exfalso; lra.
  - intros row name fc p Hrow.
    assert (Hz : tvOrZero row = ofZ 0) by (unfold tvOrZero; now rewrite Hrow).
    split; [exact Hz|].
    unfold App.categoryOf. rewrite Hz.
    now destruct (App.effectiveProjectType name p), fc.
  - repeat split; reflexivity.
Qed.

(** C3.  For every finite [tv], project type and first-check flag, the
    presentation checks exactly one of its four boxes, and the checked box
    is the one of the category the classifier returns for the same
    arguments: [kl1_box] for [withinLimit], [kl3_box] for [l1Edit],
    [kl2_box] for [l2Process], [kl4_box] for [l2Exceeded]. *)
Theorem presentation_agrees_with_classifier :
  forall (m e : Z) (projectType : projectType) (isFirstCheck : bool),
    let tv := Finite m e in
    let c := getConclusionData tv projectType isFirstCheck in
    checkedCount c = 1 /\
    boxOf (App.getConclusionCategory tv projectType isFirstCheck) c = CHECKED_BOX.
Proof.
  intros m e p fc tv c. subst tv c. band_cases m e.
  unfold getConclusionData, App.getConclusionCategory.
  destruct p.
  - destruct Hband as [[H1 H2]|[(H1 & H2 & H3 & H4)|(H1 & H2 & H3 & H4)]];
      rewrite ?H2, ?H3, ?H4; destruct fc; split; reflexivity.
  - destruct Hband0 as [[H1 H2]|[(H1 & H2 & H3 & H4)|(H1 & H2 & H3 & H4)]];
      rewrite ?H2, ?H3, ?H4; destruct fc; split; reflexivity.
Qed.

(** ** The text normalizer *)

Ltac conj_compute :=
  repeat match goal with |- _ /\ _ => split end; vm_compute; reflexivity.

Ltac ncases :=
  repeat (match goal with
          | |- context [(?a <=? ?b)%N] => destruct (N.leb_spec a b)
          | |- context [(?a =? ?b)%N] => destruct (N.eqb_spec a b)
          | H : context [(?a <=? ?b)%N] |- _ => destruct (N.leb_spec a b)
          | H : context [(?a =? ?b)%N] |- _ => destruct (N.eqb_spec a b)
          end; simpl in *; try discriminate; try lia);
  simpl in *; try discriminate; try lia; try reflexivity.

Lemma normalizeString_units (s : jsstring) :
  normalizeString (VString s) = normalizeUnits s.
Proof. destruct s; reflexivity. Qed.

Lemma normalizeUnits_app (a b : jsstring) :
  normalizeUnits (a ++ b) = normalizeUnits a ++ normalizeUnits b.
Proof.
  unfold normalizeUnits, keepAlphanumeric, replaceDStroke, toLowerCase,
    removeDiacritics, normalizeNFD.
  now rewrite flat_map_app, filter_app, flat_map_app, map_app, filter_app.
Qed.

Lemma normalizeUnits_cons (c : N) (s : jsstring) :
  normalizeUnits (c :: s) = normalizeUnits [c] ++ normalizeUnits s.
Proof. exact (normalizeUnits_app [c] s). Qed.

Lemma decomposition_ascii (t : list (N * jsstring)) (c : N) :
  forallb (fun kv => (128 <=? fst kv)%N) t = true ->
  (c < 128)%N -> decomposition t c = [c].
Proof.
  induction t as [|[k d] t IH]; simpl; intros H Hc; [reflexivity|].
  apply andb_true_iff in H as [Hk Ht]. apply N.leb_le in Hk.
  destruct (N.eqb_spec c k); [lia | now apply IH].
Qed.

Lemma decomposition_table_above_ascii :
  forallb (fun kv => (128 <=? fst kv)%N) decomposition_table = true.
Proof. vm_compute. reflexivity. Qed.

Lemma normalizeUnits_alnum_unit (c : N) :
  isLower c || isDigit c = true -> normalizeUnits [c] = [c].
Proof.
  intros H.
  assert (Hc : (48 <= c <= 57 \/ 97 <= c <= 122)%N).
  { unfold isLower, isDigit in H. ncases. }
  unfold normalizeUnits, normalizeNFD. cbn [flat_map]. rewrite app_nil_r.
  rewrite (@decomposition_ascii decomposition_table c
             decomposition_table_above_ascii) by lia.
  unfold removeDiacritics, toLowerCase, replaceDStroke, keepAlphanumeric,
    lowerUnit, isUpper, isLower, isDigit. simpl.
  ncases.
Qed.

Lemma normalizeUnits_alnum (s : jsstring) :
  forallb (fun c => isLower c || isDigit c) s = true -> normalizeUnits s = s.
Proof.
  induction s as [|c s IH]; [reflexivity|]. simpl. intros H.
  apply andb_true_iff in H as [Hc Hs].
  rewrite normalizeUnits_cons, normalizeUnits_alnum_unit, IH by assumption.
  reflexivity.
Qed.

Lemma normalizeString_alnum (x : value) :
  forallb (fun c => isLower c || isDigit c) (normalizeString x) = true.
Proof.
  destruct x as [| | | |s]; try reflexivity.
  rewrite normalizeString_units. unfold normalizeUnits, keepAlphanumeric.
  apply forallb_forall. intros c Hc. now apply filter_In in Hc.
Qed.

Lemma normalizeString_idempotent (x : value) :
  normalizeString (VString (normalizeString x)) = normalizeString x.
Proof.
  rewrite normalizeString_units. apply normalizeUnits_alnum, normalizeString_alnum.
Qed.

Lemma normalizeUnits_inside (a b u v : jsstring) :
  normalizeUnits u = normalizeUnits v ->
  normalizeString (VString (a ++ u ++ b)) = normalizeString (VString (a ++ v ++ b)).
Proof.
  intros H. rewrite !normalizeString_units, !normalizeUnits_app. now rewrite H.
Qed.

Lemma normalizeUnits_upper (c : N) :
  isUpper c = true -> normalizeUnits [c] = normalizeUnits [(c + 32)%N].
Proof.
  intros H. assert (Hc : (65 <= c <= 90)%N) by (unfold isUpper in H; ncases).
  unfold normalizeUnits, normalizeNFD. cbn [flat_map]. rewrite app_nil_r.
  rewrite !(@decomposition_ascii decomposition_table _
              decomposition_table_above_ascii) by lia.
  unfold removeDiacritics, toLowerCase, replaceDStroke, keepAlphanumeric,
    lowerUnit, isUpper, isLower, isDigit. simpl.
  ncases.
Qed.

Lemma normalizeUnits_accent_table :
  forallb (fun kd => str_eqb (normalizeUnits [fst kd]) (normalizeUnits (firstn 1 (snd kd))))
          decomposition_table = true.
Proof. vm_compute. reflexivity. Qed.

(** C7.  The normalizer is total and idempotent; a value that is not a
    string, and the empty string, give the empty key; variants of a name
    that differ by a space, by the case of a letter or by the accents of a
    letter have the same key, in particular "Đề Tài", "de tai" and
    "DÊ TAI". *)
Theorem normalizer_idempotent_total :
  (forall x : value, normalizeString (VString (normalizeString x)) = normalizeString x) /\
  (forall x : value, (forall s, x <> VString s) -> normalizeString x = []) /\
  normalizeString (VString []) = [] /\
  normalizeString VNull = normalizeString (VString []) /\
  (forall a b : jsstring,
     normalizeString (VString (a ++ lit " " ++ b)) = normalizeString (VString (a ++ b))) /\
  (forall (a b : jsstring) (c : N), isUpper c = true ->
     normalizeString (VString (a ++ c :: b)) = normalizeString (VString (a ++ (c + 32)%N :: b))) /\
  (forall (a b : jsstring) (c : N) (d : jsstring), In (c, d) decomposition_table ->
     normalizeString (VString (a ++ c :: b)) = normalizeString (VString (a ++ firstn 1 d ++ b))) /\
  normalizeString (VString (lit "Đề Tài")) = normalizeString (VString (lit "de tai")) /\
  normalizeString (VString (lit "DÊ TAI")) = normalizeString (VString (lit "de tai")) /\
  normalizeString (VString (lit "de tai")) = lit "detai".
Proof.
  split; [exact normalizeString_idempotent|].
  split. { intros [| | | |s] H; try reflexivity. now destruct (H s). }
  split; [reflexivity|]. split; [reflexivity|].
  split. { intros a b. exact (@normalizeUnits_inside a b (lit " ") [] eq_refl). }
  split. { intros a b c H. apply (@normalizeUnits_inside a b [c] [(c + 32)%N]).
           now apply normalizeUnits_upper. }
  split. { intros a b c d H. apply (@normalizeUnits_inside a b [c] (firstn 1 d)).
           pose proof normalizeUnits_accent_table as T.
           rewrite forallb_forall in T. apply T in H. now apply str_eqb_eq in H. }
  conj_compute.
Qed.

(** ** The effective project type *)

(** C6.  The effective project type is ĐATN when the normalized file name
    contains "datn" or "kltn", else BCCĐ when it contains "bccd", else the
    configured type; the statistics of [App] and the report generator
    resolve it in the same way.  "Mau_DATN_v2.docx" gives ĐATN and the
    base name "KQ_ĐATN" whatever is configured; "template.docx" falls back
    to the configured type. *)
Theorem effective_project_type_precedence :
  (forall (name : jsstring) (configured : projectType),
     let n := normalizeString (VString name) in
     (includes n (lit "datn") = true \/ includes n (lit "kltn") = true ->
        effectiveProjectType name configured = DATN) /\
     (includes n (lit "datn") = false -> includes n (lit "kltn") = false ->
        includes n (lit "bccd") = true ->
        effectiveProjectType name configured = BCCD) /\
     (includes n (lit "datn") = false -> includes n (lit "kltn") = false ->
        includes n (lit "bccd") = false ->
        effectiveProjectType name configured = configured) /\
     App.effectiveProjectType name configured = effectiveProjectType name configured) /\
  (forall configured : projectType,
     effectiveProjectType (lit "Mau_DATN_v2.docx") configured = DATN /\
     App.effectiveProjectType (lit "Mau_DATN_v2.docx") configured = DATN /\
     baseName (lit "Mau_DATN_v2.docx") configured = lit "KQ_ĐATN") /\
  (forall configured : projectType,
     effectiveProjectType (lit "template.docx") configured = configured /\
     App.effectiveProjectType (lit "template.docx") configured = configured /\
     baseName (lit "template.docx") configured = lit "KQ_" ++ projectTypeName configured).
Proof.
  split; [|split].
  - intros name cfg n. unfold effectiveProjectType, App.effectiveProjectType. fold n.
    repeat split.
    + intros [H|H]; rewrite H; [reflexivity | now rewrite orb_true_r].
    + intros H1 H2 H3. now rewrite H1, H2, H3.
    + intros H1 H2 H3. now rewrite H1, H2, H3.
  - intros cfg. conj_compute.
  - intros cfg. destruct cfg; conj_compute.
Qed.

(** ** Substrings *)

Lemma startsWith_spec (s p : jsstring) :
  startsWith s p = true <-> exists b, s = p ++ b.
Proof.
  revert s; induction p as [|y p IH]; intros [|x s]; simpl.
  - split; [now exists [] | reflexivity].
  - split; [now exists (x :: s) | reflexivity].
  - split; [discriminate | intros [b H]; discriminate].
  - rewrite andb_true_iff, N.eqb_eq, IH. split.
    + intros [-> [b ->]]. now exists b.
    + intros [b H]. injection H as -> ->. split; [reflexivity | now exists b].
Qed.

Lemma includes_spec (s p : jsstring) :
  includes s p = true <-> exists a b, s = a ++ p ++ b.
Proof.
  induction s as [|x s IH].
  - cbn [includes]. rewrite orb_false_r, startsWith_spec. split.
    + intros [b H]. now exists [], b.
    + intros (a & b & H). destruct a; [now exists b|discriminate].
  - cbn [includes]. rewrite orb_true_iff, startsWith_spec, IH. split.
    + intros [[b H]|(a & b & H)].
      * now exists [], b.
      * exists (x :: a), b. now rewrite H.
    + intros (a & b & H). destruct a as [|y a].
      * left. now exists b.
      * right. injection H as _ H. now exists a, b.
Qed.

(** ** The header locator *)

Lemma matchCount_filter (keywords : list jsstring) (row : list value) :
  matchCount keywords row = length (filter (cellMatches keywords) row).
Proof.
  unfold matchCount.
  assert (H : forall n,
             fold_left (fun count cell => if cellMatches keywords cell then S count else count)
                       row n
             = n + length (filter (cellMatches keywords) row)).
  { induction row as [|c row IH]; intros n; simpl; [lia|].
    rewrite IH. destruct (cellMatches keywords c); simpl; lia. }
  now rewrite H.
Qed.

Lemma cellMatches_spec (keywords : list jsstring) (cell : value) :
  cellMatches keywords cell = true <->
  exists kw, In kw keywords /\
             exists a b, normalizeString cell = a ++ normalizeString (VString kw) ++ b.
Proof.
  unfold cellMatches. rewrite existsb_exists.
  split; intros (kw & Hin & H); exists kw; (split; [exact Hin|]); now apply includes_spec.
Qed.

Lemma detectFrom_Some (keywords : list jsstring) (rows : grid) (i k : nat) :
  detectFrom keywords rows i = Some k <->
  exists j row, k = i + j /\ nth_error rows j = Some row /\
                2 <= matchCount keywords row /\
                forall j' row', j' < j -> nth_error rows j' = Some row' ->
                                matchCount keywords row' < 2.
Proof.
  revert i; induction rows as [|r rows IH]; intros i; cbn [detectFrom].
  - split; [discriminate|]. intros (j & row & _ & H & _). now destruct j.
  - destruct (Nat.leb_spec 2 (matchCount keywords r)) as [Hr|Hr].
    + split.
      * intros H. injection H as <-. exists 0, r. repeat split; [lia | assumption | lia].
      * intros (j & row & -> & Hj & Hrow & Hfirst). destruct j as [|j]; [f_equal; lia|].
        specialize (Hfirst 0 r (Nat.lt_0_succ j) eq_refl). lia.
    + rewrite IH. split.
      * intros (j & row & -> & Hj & Hrow & Hfirst). exists (S j), row.
        repeat split; [lia | assumption | assumption |].
        intros [|j'] row' Hlt Hnth; simpl in Hnth.
        -- now injection Hnth as <-.
        -- apply (Hfirst j' row'); [lia | assumption].
      * intros (j & row & -> & Hj & Hrow & Hfirst). destruct j as [|j].
        -- simpl in Hj. injection Hj as <-. lia.
        -- exists j, row. repeat split; [lia | assumption | assumption |].
           intros j' row' Hlt Hnth. apply (Hfirst (S j') row'); [lia | assumption].
Qed.

Lemma detectFrom_None (keywords : list jsstring) (rows : grid) (i : nat) :
  detectFrom keywords rows i = None <->
  forall j row, nth_error rows j = Some row -> matchCount keywords row < 2.
Proof.
  revert i; induction rows as [|r rows IH]; intros i; cbn [detectFrom].
  - split; [|reflexivity]. intros _ [|j] row H; discriminate.
  - destruct (Nat.leb_spec 2 (matchCount keywords r)) as [Hr|Hr].
    + split; [discriminate|]. intros H. specialize (H 0 r eq_refl). lia.
    + rewrite IH. split.
      * intros H [|j] row Hnth; simpl in Hnth; [now injection Hnth as <- | eauto].
      * intros H j row Hnth. apply (H (S j) row Hnth).
Qed.

Lemma scanned_rows (data : grid) :
  firstn (Nat.min 10 (length data)) data = firstn 10 data.
Proof.
  destruct (Nat.le_ge_cases 10 (length data)) as [H|H].
  - now rewrite Nat.min_l.
  - rewrite Nat.min_r by assumption. now rewrite !firstn_all2 by lia.
Qed.

Lemma nth_error_scanned (data : grid) (j : nat) (row : list value) :
  nth_error (firstn 10 data) j = Some row <-> j < 10 /\ nth_error data j = Some row.
Proof.
  destruct (Nat.lt_ge_cases j 10) as [H|H].
  - rewrite nth_error_firstn. apply Nat.ltb_lt in H as H'. rewrite H'. tauto.
  - split; [|lia]. intros Hn.
    assert (Hlt : j < length (firstn 10 data)) by (apply nth_error_Some; congruence).
    rewrite length_firstn in Hlt. lia.
Qed.

Lemma detectHeaderRow_bound (data : grid) (keywords : list jsstring) :
  data <> [] -> detectHeaderRow data keywords < Nat.min 10 (length data).
Proof.
  intros Hdata. unfold detectHeaderRow. rewrite scanned_rows.
  assert (Hlen : 0 < Nat.min 10 (length data)).
  { destruct data; [congruence | simpl; lia]. }
  destruct (detectFrom keywords (firstn 10 data) 0) as [k|] eqn:E; [|exact Hlen].
  apply detectFrom_Some in E as (j & row & -> & Hj & _).
  apply nth_error_scanned in Hj as [Hlt Hj].
  assert (j < length data) by (apply nth_error_Some; congruence). lia.
Qed.

(** C8.  The header locator looks at rows 0 to min(10, number of rows) - 1
    only; a row qualifies when at least two of its cells have a normalized
    form that contains some normalized keyword; the index of the first
    qualifying row is returned, and 0 when no row qualifies.  The function
    is total. *)
Theorem header_locator_first_qualifying_row :
  forall (data : grid) (keywords : list jsstring),
    (forall row, matchCount keywords row
                 = length (filter (cellMatches keywords) row)) /\
    (forall cell, cellMatches keywords cell = true <->
                  exists kw, In kw keywords /\
                    exists a b, normalizeString cell = a ++ normalizeString (VString kw) ++ b) /\
    (forall i row,
        i < Nat.min 10 (length data) ->
        nth_error data i = Some row ->
        2 <= matchCount keywords row ->
        (forall j row', j < i -> nth_error data j = Some row' ->
                        matchCount keywords row' < 2) ->
        detectHeaderRow data keywords = i) /\
    ((forall j row', j < Nat.min 10 (length data) -> nth_error data j = Some row' ->
                     matchCount keywords row' < 2) ->
     detectHeaderRow data keywords = 0) /\
    detectHeaderRow data keywords = detectHeaderRow (firstn 10 data) keywords /\
    (data <> [] -> detectHeaderRow data keywords < Nat.min 10 (length data)).
Proof.
  intros data keywords.
  split; [intros row; apply matchCount_filter|].
  split; [intros cell; apply cellMatches_spec|].
  split; [|split; [|split]]; [| | |exact (@detectHeaderRow_bound data keywords)];
    unfold detectHeaderRow; rewrite !scanned_rows.
  - intros i row Hi Hnth Hrow Hfirst.
    assert (H : detectFrom keywords (firstn 10 data) 0 = Some i).
    { apply detectFrom_Some. exists i, row. repeat split; try assumption.
      - apply nth_error_scanned. split; [lia | assumption].
      - intros j' row' Hlt Hj. apply nth_error_scanned in Hj as [_ Hj]. eauto. }
    now rewrite H.
  - intros Hnone.
    assert (H : detectFrom keywords (firstn 10 data) 0 = None).
    { apply detectFrom_None. intros j row Hj.
      apply nth_error_scanned in Hj as [Hlt Hj]. apply (Hnone j row); [|assumption].
      assert (j < length data) by (apply nth_error_Some; congruence). lia. }
    now rewrite H.
  - now rewrite firstn_firstn, Nat.min_id.
Qed.

(** ** Arrays *)

Lemma indexOf_In (arr : list jsstring) (x : jsstring) :
  In x arr -> exists i, indexOf arr x = Some i /\ nth_error arr i = Some x.
Proof.
  induction arr as [|y arr IH]; simpl; [tauto|]. intros H.
  destruct (str_eqb y x) eqn:E.
  - apply str_eqb_eq in E as ->. now exists 0.
  - destruct H as [->|H]; [now rewrite str_eqb_refl in E|].
    destruct (IH H) as (i & -> & Hi). now exists (S i).
Qed.

Lemma mapi_from_length (A B : Type) (f : A -> nat -> B) (i : nat) (arr : list A) :
  length (mapi_from f i arr) = length arr.
Proof. revert i; induction arr; intros i; simpl; [reflexivity | now rewrite IHarr]. Qed.

Lemma mapi_from_nth_error (A B : Type) (f : A -> nat -> B) (i j : nat) (arr : list A) :
  nth_error (mapi_from f i arr) j
  = match nth_error arr j with Some x => Some (f x (i + j)) | None => None end.
Proof.
  revert i j; induction arr as [|x arr IH]; intros i [|j]; simpl; try reflexivity.
  - now rewrite Nat.add_0_r.
  - rewrite IH. now rewrite Nat.add_succ_r.
Qed.

Lemma mapi_from_In (A B : Type) (f : A -> nat -> B) (i : nat) (arr : list A) (y : B) :
  In y (mapi_from f i arr) <-> exists j x, nth_error arr j = Some x /\ y = f x (i + j).
Proof.
  split.
  - intros H. apply In_nth_error in H as [j Hj]. rewrite mapi_from_nth_error in Hj.
    destruct (nth_error arr j) as [x|] eqn:E; [|discriminate].
    exists j, x. split; [exact E | congruence].
  - intros (j & x & Hj & ->). apply nth_error_In with j.
    now rewrite mapi_from_nth_error, Hj.
Qed.

Lemma insertWith_perm (A : Type) (cmp : A -> A -> number) (x : A) (l : list A) :
  Permutation (insertWith cmp x l) (x :: l).
Proof.
  induction l as [|y l IH]; simpl; [reflexivity|].
  destruct (gtNum (cmp x y) (Finite 0 0)); [|reflexivity].
  rewrite IH. apply perm_swap.
Qed.

Lemma sortWith_perm (A : Type) (cmp : A -> A -> number) (l : list A) :
  Permutation (sortWith cmp l) l.
Proof.
  induction l as [|x l IH]; simpl; [reflexivity|].
  rewrite insertWith_perm. now constructor.
Qed.

Lemma sortWith_In (A : Type) (cmp : A -> A -> number) (l : list A) (x : A) :
  In x (sortWith cmp l) <-> In x l.
Proof.
  split; apply Permutation_in; [apply sortWith_perm | symmetry; apply sortWith_perm].
Qed.

(** ** Resolving the columns of the supplementary sheet *)

Lemma tvColumnIndex_None (headers : list jsstring) :
  tvColumnIndex headers = None <->
  forall h, In h headers -> includes (normalizeString (VString h)) (lit "tv") = false.
Proof.
  unfold tvColumnIndex, findColumn.
  change (normalizeString (VString (lit "TV"))) with (lit "tv").
  destruct (find (fun h => includes (normalizeString (VString h)) (lit "tv")) headers)
    as [found|] eqn:E.
  - apply find_some in E as [Hin Hfound]. split.
    + destruct found as [|c found]; [discriminate Hfound|].
      destruct (indexOf_In _ _ Hin) as (i & Hi & _). congruence.
    + intros H. rewrite (H _ Hin) in Hfound. discriminate.
  - split; [|reflexivity]. intros _ h Hin. exact (find_none _ _ E h Hin).
Qed.

Lemma tvColumnIndex_Some (headers : list jsstring) (i : nat) :
  tvColumnIndex headers = Some i ->
  exists h, nth_error headers i = Some h /\
            includes (normalizeString (VString h)) (lit "tv") = true.
Proof.
  unfold tvColumnIndex, findColumn.
  change (normalizeString (VString (lit "TV"))) with (lit "tv").
  destruct (find (fun h => includes (normalizeString (VString h)) (lit "tv")) headers)
    as [found|] eqn:E; [|discriminate].
  apply find_some in E as [Hin Hfound].
  destruct found as [|c found]; [discriminate|]. intros Hi.
  destruct (indexOf_In _ _ Hin) as (i' & Hi' & Hnth).
  exists (c :: found). split; [congruence | assumption].
Qed.

(** A normalized header is a ratio header when it is "tile" followed by
    digits: the alternative "ti le" of the pattern has a space, which no
    normalized text contains. *)
Lemma ratio_header_spec (x : value) :
  matchesPrefixDigits ratioPrefixes (normalizeString x) = true <->
  exists ds, ds <> [] /\ forallb isDigit ds = true /\
             normalizeString x = lit "tile" ++ ds.
Proof.
  pose proof (normalizeString_alnum x) as Halnum.
  unfold matchesPrefixDigits, ratioPrefixes. cbn [existsb].
  rewrite !orb_true_iff, !andb_true_iff, !startsWith_spec. split.
  - intros [[[b Hb] Hd]|[[[b Hb] _]|Hf]]; [| |discriminate].
    + rewrite Hb in Hd |- *. change (skipn (length (lit "tile")) (lit "tile" ++ b)) with b in Hd.
      exists b. destruct b; [discriminate|]. repeat split; [discriminate | assumption].
    + rewrite Hb in Halnum. discriminate Halnum.
  - intros (ds & Hne & Hd & Hn). left. split; [now exists ds|].
    rewrite Hn. change (skipn (length (lit "tile")) (lit "tile" ++ ds)) with ds.
    destruct ds; [congruence | assumption].
Qed.

Lemma projectRatioColumns_In (headers : list jsstring) (c : column) :
  In c (projectRatioColumns headers) <->
  nth_error headers (index c) = Some (header c) /\
  norm c = normalizeString (VString (header c)) /\
  matchesPrefixDigits ratioPrefixes (norm c) = true.
Proof.
  unfold projectRatioColumns.
  rewrite sortWith_In.
  rewrite filter_In. unfold mapi. rewrite mapi_from_In. split.
  - intros [(j & h & Hj & ->) Hm]. simpl in *. auto.
  - intros (Hn & Hnorm & Hm). split; [|assumption].
    exists (index c), (header c). split; [assumption|].
    destruct c as [h i n]. simpl in *. now subst n.
Qed.

Lemma projectRatioColumns_nil (headers : list jsstring) :
  projectRatioColumns headers = [] <->
  forall h, In h headers ->
            matchesPrefixDigits ratioPrefixes (normalizeString (VString h)) = false.
Proof.
  split.
  - intros H h Hin. apply not_true_is_false. intros Hm.
    apply In_nth_error in Hin as [i Hi].
    assert (Hc : In (mkColumn h i (normalizeString (VString h))) (projectRatioColumns headers)).
    { apply projectRatioColumns_In. simpl. auto. }
    now rewrite H in Hc.
  - intros H. destruct (projectRatioColumns headers) as [|c cs] eqn:E; [reflexivity|].
    assert (Hc : In c (projectRatioColumns headers)) by (rewrite E; now left).
    apply projectRatioColumns_In in Hc as (Hn & Hnorm & Hm).
    apply nth_error_In in Hn. rewrite Hnorm, (H _ Hn) in Hm. discriminate.
Qed.

Lemma mapi_from_index_seq (hs : list jsstring) (i : nat) :
  map index (mapi_from (fun header index => mkColumn header index (normalizeString (VString header)))
                       i hs)
  = seq i (length hs).
Proof.
  revert i; induction hs as [|h hs IH]; intros i; simpl; [reflexivity | now rewrite IH].
Qed.

Lemma filter_keeps_distinct_keys (A K : Type) (key : A -> K) (keep : A -> bool) :
  forall xs : list A, NoDup (map key xs) -> NoDup (map key (filter keep xs)).
Proof.
  intros xs. induction xs as [|x xs IH]; simpl; intros H; [constructor|].
  apply NoDup_cons_iff in H as [Hx Hl]. destruct (keep x); simpl; [|now apply IH].
  constructor; [|now apply IH]. intros Hin. apply Hx.
  apply in_map_iff in Hin as (y & Hy & Hin). apply filter_In in Hin as [Hin _].
  apply in_map_iff. now exists y.
Qed.

Lemma projectRatioColumns_NoDup (headers : list jsstring) :
  NoDup (map index (projectRatioColumns headers)).
Proof.
  unfold projectRatioColumns.
  eapply Permutation_NoDup.
  - apply Permutation_map. symmetry. apply sortWith_perm.
  - apply filter_keeps_distinct_keys. unfold mapi. rewrite mapi_from_index_seq. apply seq_NoDup.
Qed.

Lemma detectHeaderRow_in_range (data : grid) (keywords : list jsstring) :
  data <> [] -> detectHeaderRow data keywords < length data.
Proof.
  intros H. pose proof (@detectHeaderRow_bound data keywords H). lia.
Qed.

(** ** The missing-ratio-columns error *)

Lemma mergeMainAndRatios_cases (dfMain : list (object value)) (dfSupp : grid) :
  dfSupp <> [] ->
  let headerRowIndex := detectHeaderRow dfSupp suppKeywords in
  let headers := headerTexts (nth headerRowIndex dfSupp []) in
  let dataRows := skipn (headerRowIndex + 1) dfSupp in
  mergeMainAndRatios dfMain dfSupp =
  match projectRatioColumns headers, tvColumnIndex headers with
  | [], None => Throw missingRatioColumns
  | _, _ => Ok (mapi (enrichRow dataRows (tvColumnIndex headers)
                                (projectRatioColumns headers)) dfMain)
  end.
Proof.
  intros H. cbv zeta. unfold mergeMainAndRatios.
  set (headerRowIndex := detectHeaderRow dfSupp suppKeywords).
  assert (Hlt : headerRowIndex < length dfSupp) by now apply detectHeaderRow_in_range.
  destruct (nth_error dfSupp headerRowIndex) as [row|] eqn:E.
  - rewrite (nth_error_nth _ _ [] E). reflexivity.
  - apply nth_error_None in E. lia.
Qed.

(** C9.  On a supplementary sheet that has a row at all, the merger fails
    with the missing-ratio-columns error exactly when the resolved header
    row has neither a header whose normalized form contains "tv" nor a
    header whose normalized form is "tile" followed by digits; when one of
    the two exists the merge returns its records. *)
Theorem missing_ratio_columns_error :
  forall (dfMain : list (object value)) (dfSupp : grid),
    dfSupp <> [] ->
    let headers := headerTexts (nth (detectHeaderRow dfSupp suppKeywords) dfSupp []) in
    let hasTV :=
      exists h, In h headers /\ includes (normalizeString (VString h)) (lit "tv") = true in
    let hasRatio :=
      exists h ds, In h headers /\ ds <> [] /\ forallb isDigit ds = true /\
                   normalizeString (VString h) = lit "tile" ++ ds in
    (mergeMainAndRatios dfMain dfSupp = Throw missingRatioColumns <->
     ~ hasTV /\ ~ hasRatio) /\
    (hasTV \/ hasRatio -> exists out, mergeMainAndRatios dfMain dfSupp = Ok out).
Proof.
  intros dfMain dfSupp Hne headers hasTV hasRatio.
  rewrite (mergeMainAndRatios_cases dfMain Hne). cbv zeta. fold headers.
  assert (HTV : tvColumnIndex headers = None <-> ~ hasTV).
  { rewrite tvColumnIndex_None. unfold hasTV. split.
    - intros H (h & Hin & Hh). rewrite (H h Hin) in Hh. discriminate.
    - intros H h Hin. apply not_true_is_false. intros Hh. apply H. now exists h. }
  assert (HR : projectRatioColumns headers = [] <-> ~ hasRatio).
  { rewrite projectRatioColumns_nil. unfold hasRatio. split.
    - intros H (h & ds & Hin & Hds). specialize (H h Hin).
      assert (Hm : matchesPrefixDigits ratioPrefixes (normalizeString (VString h)) = true).
      { apply ratio_header_spec. now exists ds. }
      congruence.
    - intros H h Hin. apply not_true_is_false. intros Hm.
      apply ratio_header_spec in Hm as (ds & Hds). apply H. now exists h, ds. }
  destruct (projectRatioColumns headers) as [|c cs]; destruct (tvColumnIndex headers) as [i|].
  - split.
    + split; [discriminate|]. intros [H _]. apply HTV in H. discriminate.
    + intros _. eauto.
  - split.
    + split; [intros _|reflexivity]. split; [now apply HTV | now apply HR].
    + intros [H|H]; exfalso; [now apply HTV | now apply HR].
  - split.
    + split; [discriminate|]. intros [H _]. apply HTV in H. discriminate.
    + intros _. eauto.
  - split.
    + split; [discriminate|]. intros [_ H]. apply HR in H. discriminate.
    + intros _. eauto.
Qed.

Lemma missing_ratio_columns_error_witness :
  [[VString (lit "TV"); VString (lit "Ghi chú")]] <> [] /\
  exists out, mergeMainAndRatios [] [[VString (lit "TV"); VString (lit "Ghi chú")]] = Ok out.
Proof.
  split; [discriminate|].
  apply (@missing_ratio_columns_error [] [[VString (lit "TV"); VString (lit "Ghi chú")]]);
    [discriminate|].
  left. exists (lit "TV"). split; [vm_compute; auto | vm_compute; reflexivity].
Defined.

(** ** Objects *)

Lemma getOwn_setOwn (V : Type) (k k' : jsstring) (v : V) (o : object V) :
  getOwn k (setOwn k' v o) = if str_eqb k' k then Some v else getOwn k o.
Proof.
  induction o as [|[k0 v0] o IH]; simpl.
  - reflexivity.
  - destruct (str_eqb k0 k') eqn:E0; simpl.
    + apply str_eqb_eq in E0 as ->. now destruct (str_eqb k' k).
    + rewrite IH. destruct (str_eqb k0 k) eqn:E1; [|reflexivity].
      apply str_eqb_eq in E1 as ->. now rewrite str_eqb_sym, E0.
Qed.

Lemma get_setOwn (k k' : jsstring) (v : value) (o : object value) :
  get k (setOwn k' v o) = if str_eqb k' k then v else get k o.
Proof. unfold get. rewrite getOwn_setOwn. now destruct (str_eqb k' k). Qed.

Lemma filter_map_comm (A B : Type) (f : A -> B) (p : B -> bool) (l : list A) :
  filter p (map f l) = map f (filter (fun x => p (f x)) l).
Proof.
  induction l as [|x l IH]; simpl; [reflexivity|].
  rewrite IH. now destruct (p (f x)).
Qed.

(** ** The direct-read path *)

Lemma textOf_blank (cell : value) : truthy cell = false -> textOf cell = [].
Proof. unfold textOf, orElse. now intros ->. Qed.

Lemma str_eqb_head (k k' : jsstring) (c : N) :
  startsWith k [c] = false -> str_eqb (c :: k') k = false.
Proof.
  destruct k as [|x k]; simpl; [reflexivity|]. intros H.
  assert (E : startsWith k [] = true) by now destruct k.
  rewrite E, andb_true_r in H. now rewrite N.eqb_sym, H.
Qed.

Lemma readChapter_get (k : jsstring) (row : list value) (rowData : object value)
      (header : jsstring) (i : nat) :
  startsWith k (lit "c") = false ->
  get k (readChapter row rowData header i) = get k rowData.
Proof.
  intros Hk. unfold readChapter.
  destruct (matchesPrefixDigits chapterPrefixes header); [|reflexivity].
  destruct (isNullish (JS.index row i)); [reflexivity|].
  rewrite get_setOwn. change (lit "c" ++ ?x) with (99%N :: x).
  now rewrite (@str_eqb_head _ _ _ Hk).
Qed.

Lemma readChapters_get (k : jsstring) (row : list value) (his : list (jsstring * nat))
      (rowData : object value) :
  startsWith k (lit "c") = false ->
  get k (fold_left (fun rowData hi => readChapter row rowData (fst hi) (snd hi)) his rowData)
  = get k rowData.
Proof.
  intros Hk. revert rowData; induction his as [|hi his IH]; intros rowData; simpl.
  - reflexivity.
  - rewrite IH. now apply readChapter_get.
Qed.

Lemma readRow_texts (headers : list jsstring) (ti hi : nat) (si gi tvi : option nat)
      (row : list value) :
  get (lit "tendetai") (readRow headers ti hi si gi tvi row)
  = VString (textOf (JS.index row ti)) /\
  get (lit "hotenhv") (readRow headers ti hi si gi tvi row)
  = VString (textOf (JS.index row hi)).
Proof.
  unfold readRow. rewrite !readChapters_get by reflexivity.
  destruct tvi as [i|]; [destruct (isNullish (JS.index row i))|];
    rewrite ?get_setOwn; split; reflexivity.
Qed.

Lemma readDataFileForReporting_rows (headerRow row1 : list value) (rest : grid) (ti hi : nat) :
  let headers := map normalizeString headerRow in
  findHeaderIndex headers [lit "Tên đề tài"; lit "tendetai"] = Some ti ->
  findHeaderIndex headers [lit "Họ tên HV"; lit "hotenhv"] = Some hi ->
  readDataFileForReporting (headerRow :: row1 :: rest)
  = Ok (map (readRow headers ti hi
               (findHeaderIndex headers [lit "Số học viên"; lit "sohocvien"])
               (findHeaderIndex headers [lit "Người hướng dẫn"; lit "nguoihuongdan"])
               (findHeaderIndex headers [lit "TV"]))
            (filter (completeRow ti hi) (row1 :: rest))).
Proof.
  intros headers Hti Hhi. unfold readDataFileForReporting. fold headers.
  rewrite Hti, Hhi. f_equal. rewrite filter_map_comm. f_equal.
  apply filter_ext. intros row. unfold completeRow.
  now destruct (readRow_texts headers ti hi
                  (findHeaderIndex headers [lit "Số học viên"; lit "sohocvien"])
                  (findHeaderIndex headers [lit "Người hướng dẫn"; lit "nguoihuongdan"])
                  (findHeaderIndex headers [lit "TV"]) row) as [-> ->].
Qed.

Lemma readDataFileForReporting_Ok (data : grid) (out : list (object value)) :
  readDataFileForReporting data = Ok out ->
  exists headerRow row1 rest ti hi,
    data = headerRow :: row1 :: rest /\
    findHeaderIndex (map normalizeString headerRow) [lit "Tên đề tài"; lit "tendetai"] = Some ti /\
    findHeaderIndex (map normalizeString headerRow) [lit "Họ tên HV"; lit "hotenhv"] = Some hi.
Proof.
  unfold readDataFileForReporting.
  destruct data as [|headerRow [|row1 rest]]; try discriminate.
  destruct (findHeaderIndex (map normalizeString headerRow) [lit "Tên đề tài"; lit "tendetai"])
    as [ti|] eqn:Hti; [|discriminate].
  destruct (findHeaderIndex (map normalizeString headerRow) [lit "Họ tên HV"; lit "hotenhv"])
    as [hi|] eqn:Hhi; [|discriminate].
  intros _. now exists headerRow, row1, rest, ti, hi.
Qed.

(** C10.  Every record the direct-read path returns has a non-empty
    [tendetai] and a non-empty [hotenhv].  When the two columns are found,
    the path returns, without an error, the records of the rows whose
    topic-title text and student-name text are both non-empty, in order:
    a row whose topic-title or student-name cell is blank (null, undefined,
    empty) gives no record. *)
Theorem direct_read_excludes_incomplete_rows :
  (forall (data : grid) (out : list (object value)),
     readDataFileForReporting data = Ok out ->
     forall d, In d out ->
       exists t h, get (lit "tendetai") d = VString t /\ t <> [] /\
                   get (lit "hotenhv") d = VString h /\ h <> []) /\
  (forall (headerRow row1 : list value) (rest : grid) (ti hi : nat),
     let headers := map normalizeString headerRow in
     findHeaderIndex headers [lit "Tên đề tài"; lit "tendetai"] = Some ti ->
     findHeaderIndex headers [lit "Họ tên HV"; lit "hotenhv"] = Some hi ->
     exists read,
       readDataFileForReporting (headerRow :: row1 :: rest)
       = Ok (map read (filter (completeRow ti hi) (row1 :: rest))) /\
       forall row, truthy (JS.index row ti) = false \/ truthy (JS.index row hi) = false ->
                   completeRow ti hi row = false) /\
  readDataFileForReporting
    [ [VString (lit "Tên đề tài"); VString (lit "Họ tên HV"); VString (lit "TV")];
      [VString (lit "T1"); VString (lit "A"); VNumber (ofZ 10)];
      [VString []; VString (lit "B"); VNumber (ofZ 5)];
      [VString (lit "T3"); VNull; VNumber (ofZ 7)] ]
  = Ok [ [ (lit "tendetai", VString (lit "T1")); (lit "hotenhv", VString (lit "A"));
           (lit "sohocvien", VNumber (ofZ 1)); (lit "nguoihuongdan", VString []);
           (lit "tv", VNumber (ofZ 10)) ] ].
Proof.
  split; [|split].
  - intros data out Hout d Hd.
    destruct (readDataFileForReporting_Ok _ Hout)
      as (headerRow & row1 & rest & ti & hi & -> & Hti & Hhi).
    rewrite (@readDataFileForReporting_rows _ row1 rest _ _ Hti Hhi) in Hout. injection Hout as <-.
    apply in_map_iff in Hd as (row & <- & Hrow).
    change (In row (filter (completeRow ti hi) (row1 :: rest))) in Hrow.
    apply filter_In in Hrow as [_ Hrow].
    unfold completeRow in Hrow. apply andb_true_iff in Hrow as [Ht Hh].
    match goal with |- context [readRow ?hs ti hi ?si ?gi ?tvi row] =>
      destruct (readRow_texts hs ti hi si gi tvi row) as [Et Eh] end.
    exists (textOf (JS.index row ti)), (textOf (JS.index row hi)).
    repeat split; try assumption.
    + intros E. rewrite E in Ht. discriminate.
    + intros E. rewrite E in Hh. discriminate.
  - intros headerRow row1 rest ti hi headers Hti Hhi.
    eexists. split; [exact (@readDataFileForReporting_rows _ row1 rest _ _ Hti Hhi)|].
    intros row [H|H]; unfold completeRow; rewrite (textOf_blank _ H); simpl;
      [reflexivity | apply andb_false_r].
  - vm_compute. reflexivity.
Qed.

(** ** Integers as Numbers *)

Lemma strip10_value (fuel : nat) (m e : Z) :
  (0 <= e)%Z ->
  (0 <= snd (strip10 fuel m e) /\
   fst (strip10 fuel m e) * 10 ^ snd (strip10 fuel m e) = m * 10 ^ e)%Z.
Proof.
  revert m e; induction fuel as [|fuel IH]; intros m e He; simpl; [split; [assumption|reflexivity]|].
  destruct (Z.eqb_spec (m mod 10) 0) as [Hm|Hm]; [|split; [assumption|reflexivity]].
  destruct (IH (m / 10)%Z (e + 1)%Z ltac:(lia)) as [H1 H2].
  split; [assumption|]. rewrite H2, Z.pow_add_r by lia.
  apply (proj2 (Z.div_exact m 10 ltac:(lia))) in Hm.
  remember (m / 10)%Z as q. rewrite Hm. ring.
Qed.

Lemma decimal_value (m e : Z) :
  (0 <= e)%Z ->
  exists m' e', decimal m e = Finite m' e' /\ (0 <= e')%Z /\ (m' * 10 ^ e' = m * 10 ^ e)%Z.
Proof.
  intros He. unfold decimal. destruct (Z.eqb_spec m 0) as [->|Hm].
  - exists 0%Z, 0%Z. repeat split; lia.
  - pose proof (strip10_value (S (Z.to_nat (Z.log2 (Z.abs m)))) m He) as [H1 H2].
    destruct (strip10 (S (Z.to_nat (Z.log2 (Z.abs m)))) m e) as [m' e']. simpl in *.
    now exists m', e'.
Qed.

Lemma ofZ_value (z : Z) :
  exists m e, ofZ z = Finite m e /\ (0 <= e)%Z /\ (m * 10 ^ e = z)%Z.
Proof.
  destruct (@decimal_value z 0 ltac:(lia)) as (m & e & H1 & H2 & H3).
  exists m, e. repeat split; try assumption. lia.
Qed.

Lemma subNum_ofZ (a b : Z) :
  exists m e, subNum (ofZ a) (ofZ b) = Finite m e /\ (0 <= e)%Z /\ (m * 10 ^ e = a - b)%Z.
Proof.
  destruct (ofZ_value a) as (m1 & e1 & -> & He1 & <-).
  destruct (ofZ_value b) as (m2 & e2 & -> & He2 & <-).
  unfold subNum. set (e := Z.min e1 e2).
  destruct (@decimal_value (m1 * 10 ^ (e1 - e) - m2 * 10 ^ (e2 - e)) e ltac:(lia))
    as (m & e' & H1 & H2 & H3).
  exists m, e'. repeat split; try assumption. rewrite H3.
  rewrite Z.mul_sub_distr_r, <- !Z.mul_assoc, <- !Z.pow_add_r by lia.
  now replace (e1 - e + e)%Z with e1 by lia; replace (e2 - e + e)%Z with e2 by lia.
Qed.

Lemma gtNum_zero (m e : Z) :
  (0 <= e)%Z -> gtNum (Finite m e) (Finite 0 0) = true <-> (0 < m * 10 ^ e)%Z.
Proof.
  intros He. unfold gtNum, ltNum, compareNum, valueQ.
  apply Z.leb_le in He. rewrite He.
  change (if (0 <=? 0)%Z then inject_Z (0 * 10 ^ 0) else Qmake 0 (Z.to_pos (10 ^ (- 0))))
    with (inject_Z 0).
  rewrite Zlt_Qlt, Qlt_alt.
  destruct (inject_Z 0 ?= inject_Z (m * 10 ^ e))%Q; split; congruence.
Qed.

Lemma gtNum_sub_ofZ (a b : Z) :
  gtNum (subNum (ofZ a) (ofZ b)) (Finite 0 0) = true <-> (b < a)%Z.
Proof.
  destruct (subNum_ofZ a b) as (m & e & -> & He & Hv).
  rewrite gtNum_zero by assumption. lia.
Qed.

(** ** Sorting *)

Section SortByKey.

Variables (A : Type) (cmp : A -> A -> number) (key : A -> Z) (P : A -> Prop).
Hypothesis cmp_key :
  forall x y, P x -> P y -> (gtNum (cmp x y) (Finite 0 0) = true <-> (key y < key x)%Z).

Lemma insertWith_sorted (x : A) (l : list A) :
  P x -> Forall P l ->
  StronglySorted (fun a b => (key a <= key b)%Z) l ->
  StronglySorted (fun a b => (key a <= key b)%Z) (insertWith cmp x l).
Proof.
  intros Hx. induction l as [|y l IH]; intros HP Hs; simpl.
  - constructor; [constructor | constructor].
  - apply StronglySorted_inv in Hs as [Hl Hy].
    apply Forall_cons_iff in HP as [Py HP].
    destruct (gtNum (cmp x y) (Finite 0 0)) eqn:E.
    + apply (cmp_key Hx Py) in E. constructor; [now apply IH|].
      apply Forall_forall. intros z Hz.
      apply (Permutation_in _ (insertWith_perm cmp x l)) in Hz.
      destruct Hz as [<-|Hz]; [lia|]. rewrite Forall_forall in Hy. now apply Hy.
    + assert (Hle : (key x <= key y)%Z).
      { destruct (Z.le_gt_cases (key x) (key y)) as [H|H]; [assumption|].
        apply (cmp_key Hx Py) in H. congruence. }
      constructor; [constructor; assumption|].
      constructor; [assumption|].
      rewrite Forall_forall in Hy |- *. intros z Hz. specialize (Hy z Hz). lia.
Qed.

Lemma sortWith_sorted (l : list A) :
  Forall P l -> StronglySorted (fun a b => (key a <= key b)%Z) (sortWith cmp l).
Proof.
  induction l as [|x l IH]; simpl; intros HP; [constructor|].
  apply Forall_cons_iff in HP as [Px HP].
  apply insertWith_sorted; [assumption | | now apply IH].
  apply Forall_forall. intros z Hz. apply sortWith_In in Hz.
  rewrite Forall_forall in HP. now apply HP.
Qed.

End SortByKey.

(** ** Digits *)

Lemma isDigit_not_space (c : N) : isDigit c = true -> isWhiteSpace c = false.
Proof. unfold isDigit, isWhiteSpace. intros H. ncases. Qed.

Lemma spanDigits_all (ds : jsstring) :
  forallb isDigit ds = true -> spanDigits ds = (ds, []).
Proof.
  induction ds as [|c ds IH]; simpl; [reflexivity|]. intros H.
  apply andb_true_iff in H as [Hc Hds]. now rewrite Hc, IH.
Qed.

Lemma readSign_digit (c : N) (s : jsstring) :
  isDigit c = true -> readSign (c :: s) = (false, c :: s).
Proof.
  intros H. unfold readSign.
  assert (Hc : (48 <= c <= 57)%N) by (unfold isDigit in H; ncases).
  destruct c as [|p]; [lia|].
  do 6 (destruct p as [p|p|]; try reflexivity; try lia).
Qed.

Lemma parseInt_digits (ds : jsstring) :
  ds <> [] -> forallb isDigit ds = true -> parseInt ds = ofZ (digitsValue ds).
Proof.
  intros Hne Hds. destruct ds as [|c ds]; [congruence|].
  simpl in Hds. apply andb_true_iff in Hds as [Hc Hds].
  unfold parseInt. cbn [trimStart]. rewrite (isDigit_not_space _ Hc).
  rewrite (readSign_digit c ds Hc), spanDigits_all by (simpl; now rewrite Hc).
  reflexivity.
Qed.

Lemma ratioNumber_value (c : column) :
  matchesPrefixDigits ratioPrefixes (norm c) = true ->
  norm c = normalizeString (VString (header c)) ->
  ratioNumber c = ofZ (trailingInteger c).
Proof.
  intros Hm Hn. rewrite Hn in Hm. apply ratio_header_spec in Hm as (ds & Hne & Hds & E).
  unfold ratioNumber, trailingInteger. rewrite Hn, E.
  assert (Hr : removePrefix ratioPrefixes (lit "tile" ++ ds) = ds).
  { unfold removePrefix, ratioPrefixes. cbn [find].
    assert (Hs : startsWith (lit "tile" ++ ds) (lit "tile") = true)
      by (apply startsWith_spec; now exists ds).
    rewrite Hs. reflexivity. }
  rewrite Hr. change (skipn (length (lit "tile")) (lit "tile" ++ ds)) with ds.
  now apply parseInt_digits.
Qed.

Lemma projectRatioColumns_sorted (headers : list jsstring) :
  StronglySorted (fun a b => (trailingInteger a <= trailingInteger b)%Z)
                 (projectRatioColumns headers).
Proof.
  unfold projectRatioColumns.
  apply sortWith_sorted with
    (P := fun c => matchesPrefixDigits ratioPrefixes (norm c) = true /\
                   norm c = normalizeString (VString (header c))).
  - intros x y [Hx Hx'] [Hy Hy'].
    rewrite (ratioNumber_value _ Hx Hx'), (ratioNumber_value _ Hy Hy').
    apply gtNum_sub_ofZ.
  - apply Forall_forall. intros c Hc. apply filter_In in Hc as [Hc Hm].
    split; [assumption|]. unfold mapi in Hc. apply mapi_from_In in Hc as (j & h & _ & ->).
    reflexivity.
Qed.

(** ** Chapter keys *)

Lemma uintUnits_inj (d d' : Decimal.uint) : uintUnits d = uintUnits d' -> d = d'.
Proof.
  revert d'; induction d; intros [] H; simpl in H; try discriminate; try reflexivity;
    injection H as H; f_equal; now apply IHd.
Qed.

Lemma digitsOfNat_inj (n n' : nat) : digitsOfNat n = digitsOfNat n' -> n = n'.
Proof.
  unfold digitsOfNat, digitsOfN. intros H.
  apply uintUnits_inj, DecimalN.Unsigned.to_uint_inj in H. now apply Nat2N.inj.
Qed.

Lemma chapterKey_inj (n n' : nat) : chapterKey n = chapterKey n' -> n = n'.
Proof. unfold chapterKey. intros H. injection H as H. now apply digitsOfNat_inj. Qed.

Lemma chapterKey_neq (n n' : nat) : n <> n' -> str_eqb (chapterKey n) (chapterKey n') = false.
Proof. intros H. apply str_eqb_neq. intros E. now apply chapterKey_inj in E. Qed.

(** ** The updates of the ratio merger *)

Lemma assignTV_spec (dataRows : grid) (tvCol : option nat) (i : nat) (o : object value) :
  assignTV dataRows tvCol i o =
  match nth_error dataRows i, tvCol with
  | Some row, Some c =>
    match parsedNumber (JS.index row c) with
    | Some n => setOwn (lit "tv") (VNumber n) o
    | None => o
    end
  | _, _ => o
  end.
Proof.
  unfold assignTV, parsedNumber.
  destruct (nth_error dataRows i) as [row|]; [|reflexivity].
  destruct tvCol as [c|]; [|reflexivity].
  destruct (isNullish (JS.index row c)); [reflexivity|].
  destruct (cellNumber (JS.index row c)) as [x|]; [|reflexivity].
  now destruct (isNaN x).
Qed.

Lemma assignChapter_spec (col : nat) (o : object value) (row : list value) (idx : nat) :
  assignChapter col o row idx =
  match chapterNumber (JS.index row col) with
  | Some n => setOwn (chapterKey (idx + 1)) (VNumber n) o
  | None => o
  end.
Proof.
  unfold assignChapter, chapterNumber, blankCell, parsedNumber.
  destruct (isNullish (JS.index row col)); [reflexivity|]. simpl.
  destruct (trim (ToString (JS.index row col))); [reflexivity|].
  destruct (cellNumber (JS.index row col)) as [x|]; [|reflexivity].
  now destruct (isNaN x).
Qed.

Lemma assignChaptersFrom_untouched (col : nat) (k : jsstring) (rows : grid)
      (start : nat) (o : object value) :
  (forall j, j < length rows -> k <> chapterKey (start + j + 1)) ->
  getOwn k (assignChaptersFrom col start rows o) = getOwn k o.
Proof.
  revert start o; induction rows as [|row rows IH]; intros start o H; simpl; [reflexivity|].
  rewrite IH.
  - rewrite assignChapter_spec. destruct (chapterNumber (JS.index row col)); [|reflexivity].
    rewrite getOwn_setOwn.
    assert (E : str_eqb (chapterKey (start + 1)) k = false).
    { apply str_eqb_neq. intros E. apply (H 0); [simpl; lia|].
      now rewrite Nat.add_0_r. }
    now rewrite E.
  - intros j Hj. replace (S start + j + 1) with (start + S j + 1) by lia.
    apply H. simpl. lia.
Qed.

Lemma assignChaptersFrom_at (col : nat) (rows : grid) (start j : nat)
      (o : object value) (row : list value) :
  nth_error rows j = Some row ->
  getOwn (chapterKey (start + j + 1)) (assignChaptersFrom col start rows o) =
  match chapterNumber (JS.index row col) with
  | Some n => Some (VNumber n)
  | None => getOwn (chapterKey (start + j + 1)) o
  end.
Proof.
  revert start j o; induction rows as [|row0 rows IH]; intros start j o Hj;
    [destruct j; discriminate|].
  simpl. destruct j as [|j]; simpl in Hj.
  - injection Hj as ->. rewrite assignChaptersFrom_untouched.
    + rewrite Nat.add_0_r, assignChapter_spec.
      destruct (chapterNumber (JS.index row col)); [|reflexivity].
      now rewrite getOwn_setOwn, str_eqb_refl.
    + intros j' _ E. apply chapterKey_inj in E. lia.
  - replace (start + S j + 1) with (S start + j + 1) by lia.
    rewrite (IH _ _ _ Hj). destruct (chapterNumber (JS.index row col)); [reflexivity|].
    rewrite assignChapter_spec. destruct (chapterNumber (JS.index row0 col)); [|reflexivity].
    rewrite getOwn_setOwn, chapterKey_neq by lia. reflexivity.
Qed.

Lemma assignChaptersFrom_keys (col : nat) (k : jsstring) (rows : grid)
      (start : nat) (o : object value) :
  getOwn k (assignChaptersFrom col start rows o) <> None ->
  getOwn k o <> None \/ exists j, j < length rows /\ k = chapterKey (start + j + 1).
Proof.
  revert start o; induction rows as [|row rows IH]; intros start o H; simpl in *; [now left|].
  apply IH in H as [H|(j & Hj & ->)].
  - rewrite assignChapter_spec in H.
    destruct (chapterNumber (JS.index row col)); [|now left].
    rewrite getOwn_setOwn in H. destruct (str_eqb (chapterKey (start + 1)) k) eqn:E.
    + right. exists 0. split; [lia|]. apply str_eqb_eq in E. now rewrite Nat.add_0_r.
    + now left.
  - right. exists (S j). split; [lia|]. f_equal. lia.
Qed.

Lemma not_chapterKey (k : jsstring) (n : nat) :
  startsWith k (lit "c") = false -> k <> chapterKey n.
Proof.
  intros H E. subst k. unfold chapterKey in H. simpl in H.
  now destruct (digitsOfNat n).
Qed.

Lemma enrichRow_core (dataRows : grid) (tvCol : option nat) (ratioCols : list column)
      (mainRow : object value) (i : nat) (k : jsstring) :
  startsWith k (lit "c") = false -> str_eqb (lit "tv") k = false ->
  getOwn k (enrichRow dataRows tvCol ratioCols mainRow i) =
  getOwn k [ (lit "hotenhv", get (lit "Họ tên HV") mainRow);
             (lit "tendetai", get (lit "Tên đề tài") mainRow);
             (lit "sohocvien", get (lit "Số học viên") mainRow);
             (lit "nguoihuongdan", get (lit "Người hướng dẫn") mainRow) ].
Proof.
  intros Hc Htv. unfold enrichRow.
  assert (Hframe : forall o, getOwn k (assignTV dataRows tvCol i o) = getOwn k o).
  { intros o. rewrite assignTV_spec.
    destruct (nth_error dataRows i) as [row|]; [|reflexivity].
    destruct tvCol as [c|]; [|reflexivity].
    destruct (parsedNumber (JS.index row c)); [|reflexivity].
    now rewrite getOwn_setOwn, Htv. }
  destruct (nth_error ratioCols i) as [col|].
  - rewrite assignChaptersFrom_untouched; [apply Hframe|].
    intros j _. now apply not_chapterKey.
  - apply Hframe.
Qed.

Lemma enrichRow_tv (dataRows : grid) (tvCol : option nat) (ratioCols : list column)
      (mainRow : object value) (i : nat) :
  getOwn (lit "tv") (enrichRow dataRows tvCol ratioCols mainRow i) =
  match tvCol, nth_error dataRows i with
  | Some c, Some row => option_map VNumber (parsedNumber (JS.index row c))
  | _, _ => None
  end.
Proof.
  unfold enrichRow.
  assert (Htv : forall o, getOwn (lit "tv") o = None ->
                getOwn (lit "tv") (assignTV dataRows tvCol i o) =
                match tvCol, nth_error dataRows i with
                | Some c, Some row => option_map VNumber (parsedNumber (JS.index row c))
                | _, _ => None
                end).
  { intros o Ho. rewrite assignTV_spec.
    destruct (nth_error dataRows i) as [row|]; [|now destruct tvCol].
    destruct tvCol as [c|]; [|assumption].
    destruct (parsedNumber (JS.index row c)); [|assumption].
    now rewrite getOwn_setOwn. }
  destruct (nth_error ratioCols i) as [col|].
  - rewrite assignChaptersFrom_untouched; [now apply Htv|].
    intros j _. now apply not_chapterKey.
  - now apply Htv.
Qed.

Lemma enrichRow_chapter (dataRows : grid) (tvCol : option nat) (ratioCols : list column)
      (mainRow : object value) (i j : nat) :
  getOwn (chapterKey (j + 1)) (enrichRow dataRows tvCol ratioCols mainRow i) =
  match nth_error ratioCols i, nth_error dataRows j with
  | Some col, Some row => option_map VNumber (chapterNumber (JS.index row (index col)))
  | _, _ => None
  end.
Proof.
  unfold enrichRow.
  assert (Hbase : forall o, getOwn (chapterKey (j + 1)) o = None ->
                  getOwn (chapterKey (j + 1)) (assignTV dataRows tvCol i o) = None).
  { intros o Ho. rewrite assignTV_spec.
    destruct (nth_error dataRows i) as [row|]; [|assumption].
    destruct tvCol as [c|]; [|assumption].
    destruct (parsedNumber (JS.index row c)); [|assumption].
    now rewrite getOwn_setOwn. }
  destruct (nth_error ratioCols i) as [col|]; [|now apply Hbase].
  destruct (nth_error dataRows j) as [row|] eqn:Ej.
  - rewrite (assignChaptersFrom_at (index col) dataRows 0 j _ Ej : _ = _).
    destruct (chapterNumber (JS.index row (index col))); [reflexivity|].
    now apply Hbase.
  - rewrite assignChaptersFrom_untouched; [now apply Hbase|].
    intros j' Hj' E. apply chapterKey_inj in E. apply nth_error_None in Ej. lia.
Qed.

Lemma enrichRow_keys (dataRows : grid) (tvCol : option nat) (ratioCols : list column)
      (mainRow : object value) (i : nat) (k : jsstring) :
  getOwn k (enrichRow dataRows tvCol ratioCols mainRow i) <> None ->
  In k coreFields \/ k = lit "tv" \/
  exists j, j < length dataRows /\ k = chapterKey (j + 1).
Proof.
  unfold enrichRow.
  assert (Hbase : forall o,
             (getOwn k o <> None -> In k coreFields) ->
             getOwn k (assignTV dataRows tvCol i o) <> None ->
             In k coreFields \/ k = lit "tv").
  { intros o Ho. rewrite assignTV_spec.
    destruct (nth_error dataRows i) as [row|]; [|auto].
    destruct tvCol as [c|]; [|auto].
    destruct (parsedNumber (JS.index row c)); [|auto].
    rewrite getOwn_setOwn. destruct (str_eqb (lit "tv") k) eqn:E; [|auto].
    apply str_eqb_eq in E. auto. }
  assert (Hcore : forall o : object value,
             o = [ (lit "hotenhv", get (lit "Họ tên HV") mainRow);
                   (lit "tendetai", get (lit "Tên đề tài") mainRow);
                   (lit "sohocvien", get (lit "Số học viên") mainRow);
                   (lit "nguoihuongdan", get (lit "Người hướng dẫn") mainRow) ] ->
             getOwn k o <> None -> In k coreFields).
  { intros o -> H. cbn [getOwn] in H. unfold coreFields.
    repeat match type of H with
           | context [str_eqb ?a k] =>
             let E := fresh "E" in
             destruct (str_eqb a k) eqn:E;
               [apply str_eqb_eq in E; subst k; simpl; tauto|]
           end.
    congruence. }
  intros H. destruct (nth_error ratioCols i) as [col|].
  - apply assignChaptersFrom_keys in H as [H|(j & Hj & ->)].
    + destruct (Hbase _ (Hcore _ eq_refl) H); auto.
    + right; right. exists j. auto.
  - destruct (Hbase _ (Hcore _ eq_refl) H); auto.
Qed.

(** ** Grouping in order of first appearance *)

Lemma mem_In (k : jsstring) (ks : list jsstring) : mem k ks = true <-> In k ks.
Proof.
  unfold mem. rewrite existsb_exists. split.
  - intros (x & Hx & E). apply str_eqb_eq in E. now subst.
  - intros H. exists k. split; [assumption | apply str_eqb_refl].
Qed.

Lemma firstKeys_In (k : jsstring) (ks : list jsstring) : In k (firstKeys ks) <-> In k ks.
Proof.
  induction ks as [|a ks IH]; simpl; [tauto|].
  rewrite filter_In, IH. destruct (str_eqb k a) eqn:E.
  - apply str_eqb_eq in E. subst. simpl. tauto.
  - apply str_eqb_neq in E. simpl. split; [tauto|]. intros [H|H]; [congruence | tauto].
Qed.

Lemma firstKeys_NoDup (ks : list jsstring) : NoDup (firstKeys ks).
Proof.
  induction ks as [|a ks IH]; simpl; constructor.
  - rewrite filter_In. intros [_ H]. now rewrite str_eqb_refl in H.
  - now apply NoDup_filter.
Qed.

Lemma firstKeys_snoc (ks : list jsstring) (k : jsstring) :
  firstKeys (ks ++ [k]) = if mem k ks then firstKeys ks else firstKeys ks ++ [k].
Proof.
  induction ks as [|a ks IH]; [reflexivity|].
  cbn [app firstKeys]. rewrite IH. unfold mem in *. cbn [existsb].
  destruct (existsb (str_eqb k) ks).
  - now rewrite orb_true_r.
  - rewrite orb_false_r, filter_app. cbn [filter].
    destruct (str_eqb k a); [now rewrite app_nil_r | reflexivity].
Qed.

Section Grouped.

Variables (V : Type) (F : jsstring -> V).

Lemma getOwn_tabulate (k : jsstring) (ks : list jsstring) :
  getOwn k (map (fun t => (t, F t)) ks) = if mem k ks then Some (F k) else None.
Proof.
  induction ks as [|a ks IH]; [reflexivity|]. unfold mem in *. simpl.
  rewrite (str_eqb_sym k a). destruct (str_eqb a k) eqn:E; [|exact IH].
  apply str_eqb_eq in E. now subst.
Qed.

Lemma setOwn_tabulate_new (k : jsstring) (v : V) (ks : list jsstring) :
  mem k ks = false ->
  setOwn k v (map (fun t => (t, F t)) ks) = map (fun t => (t, F t)) ks ++ [(k, v)].
Proof.
  unfold mem. induction ks as [|a ks IH]; [reflexivity|]. simpl.
  rewrite (str_eqb_sym k a). intros H. apply orb_false_iff in H as [H1 H2].
  now rewrite H1, IH.
Qed.

Lemma setOwn_tabulate_old (k : jsstring) (v : V) (ks : list jsstring) :
  NoDup ks -> In k ks ->
  setOwn k v (map (fun t => (t, F t)) ks)
  = map (fun t => (t, if str_eqb t k then v else F t)) ks.
Proof.
  induction ks as [|a ks IH]; [contradiction|]. intros Hnd Hin.
  apply NoDup_cons_iff in Hnd as [Ha Hnd]. simpl.
  destruct (str_eqb a k) eqn:E.
  - apply str_eqb_eq in E. subst a. f_equal.
    apply map_ext_in. intros t Ht.
    assert (Hne : str_eqb t k = false) by (apply str_eqb_neq; intros ->; contradiction).
    now rewrite Hne.
  - f_equal. apply IH; [assumption|].
    destruct Hin as [->|Hin]; [now rewrite str_eqb_refl in E | assumption].
Qed.

End Grouped.

Lemma groupStep_groupsOf (topicCol : jsstring) (seen : list (object value))
      (row : object value) :
  inherited (titleOf topicCol row) = false ->
  groupStep topicCol (groupsOf topicCol seen) row = Ok (groupsOf topicCol (seen ++ [row])).
Proof.
  intros Hinh. unfold groupStep. fold (titleOf topicCol row).
  set (t := titleOf topicCol row) in *.
  unfold groupsOf at 1. rewrite getOwn_tabulate.
  unfold groupsOf. rewrite (map_app (titleOf topicCol) seen [row]).
  cbn [map]. rewrite firstKeys_snoc.
  fold t. destruct (mem t (firstKeys (map (titleOf topicCol) seen))) eqn:E.
  - assert (E' : mem t (map (titleOf topicCol) seen) = true)
      by (apply mem_In, firstKeys_In, mem_In; exact E).
    rewrite E'. f_equal.
    rewrite setOwn_tabulate_old; [|apply firstKeys_NoDup | now apply mem_In].
    apply map_ext. intros k. f_equal. rewrite filter_app. cbn [filter]. fold t.
    destruct (str_eqb k t) eqn:Ek.
    + apply str_eqb_eq in Ek. subst k. now rewrite str_eqb_refl.
    + rewrite (str_eqb_sym t k), Ek. now rewrite app_nil_r.
  - assert (E' : mem t (map (titleOf topicCol) seen) = false).
    { apply not_true_is_false. intros H. apply mem_In, firstKeys_In, mem_In in H. congruence. }
    rewrite E', Hinh. f_equal.
    rewrite setOwn_tabulate_new by assumption. rewrite map_app. cbn [map]. f_equal.
    + apply map_ext_in. intros k Hk. f_equal. rewrite filter_app. cbn [filter]. fold t.
      assert (Hne : str_eqb t k = false).
      { apply str_eqb_neq. intros ->. apply mem_In in Hk. congruence. }
      now rewrite Hne, app_nil_r.
    + f_equal. f_equal. rewrite filter_app. cbn [filter]. fold t. rewrite str_eqb_refl.
      assert (Hnil : filter (fun obj => str_eqb (titleOf topicCol obj) t) seen = []).
      { destruct (filter (fun obj => str_eqb (titleOf topicCol obj) t) seen) as [|o l] eqn:Ef;
          [reflexivity|].
        exfalso. assert (Ho : In o (o :: l)) by now left. rewrite <- Ef in Ho.
        apply filter_In in Ho as [Ho Et]. apply str_eqb_eq in Et.
        assert (Hm : mem t (map (titleOf topicCol) seen) = true).
        { apply mem_In, in_map_iff. now exists o. }
        congruence. }
      now rewrite Hnil.
Qed.

Lemma groupRows_groupsOf (topicCol : jsstring) (rows seen : list (object value)) :
  (forall obj, In obj rows -> inherited (titleOf topicCol obj) = false) ->
  groupRows topicCol (groupsOf topicCol seen) rows = Ok (groupsOf topicCol (seen ++ rows)).
Proof.
  revert seen; induction rows as [|row rows IH]; intros seen H; simpl.
  - now rewrite app_nil_r.
  - rewrite groupStep_groupsOf by (apply H; now left). simpl.
    rewrite IH by (intros obj Ho; apply H; now right).
    now rewrite <- app_assoc.
Qed.

Lemma values_names (V : Type) (o : object V) :
  (forall kv, In kv o -> arrayIndex (fst kv) = None) -> values o = map snd o.
Proof.
  intros H. unfold values.
  assert (Hi : indexEntries o = [] /\ nameEntries o = o).
  { unfold nameEntries. induction o as [|[k v] o IH]; [split; reflexivity|].
    pose proof (H (k, v) (or_introl eq_refl)) as Hk. simpl in Hk. simpl.
    rewrite Hk. destruct IH as [IH1 IH2]; [intros kv Hkv; apply H; now right|].
    split; [assumption | now f_equal]. }
  destruct Hi as [-> ->]. reflexivity.
Qed.

(** ** The main-roster aggregator *)

Lemma findColumn_found (headers keywords : list jsstring) (h : jsstring) :
  findColumn headers keywords = Some h ->
  In h headers /\
  exists kw, In kw keywords /\
             includes (normalizeString (VString h)) (normalizeString (VString kw)) = true.
Proof.
  unfold findColumn. induction keywords as [|kw kws IH]; [discriminate|].
  destruct (find (fun h0 => includes (normalizeString (VString h0))
                                     (normalizeString (VString kw))) headers)
    as [found|] eqn:E.
  - intros H. injection H as <-. apply find_some in E as [Hin Hf].
    split; [assumption|]. exists kw. split; [now left | assumption].
  - intros H. apply IH in H as (Hin & kw' & Hkw & Hf).
    split; [assumption|]. exists kw'. split; [now right | assumption].
Qed.

Lemma includes_empty (p : jsstring) : includes [] p = true -> p = [].
Proof. destruct p; [reflexivity | discriminate]. Qed.

Lemma findColumn_present (headers keywords : list jsstring) (h : jsstring) :
  forallb (fun kw => nonEmpty (normalizeString (VString kw))) keywords = true ->
  findColumn headers keywords = Some h -> h <> [].
Proof.
  intros Hk H ->. apply findColumn_found in H as (_ & kw & Hkw & Hf).
  rewrite forallb_forall in Hk. specialize (Hk kw Hkw).
  apply includes_empty in Hf. now rewrite Hf in Hk.
Qed.

Lemma hd_lastNonBlank (last c : value) (cs : list value) :
  hd last (filter truthy (rev (c :: cs)))
  = hd (if truthy c then c else last) (filter truthy (rev cs)).
Proof.
  simpl rev. rewrite filter_app. cbn [filter].
  destruct (filter truthy (rev cs)); [now destruct (truthy c) | reflexivity].
Qed.

Lemma fillTopics_nth (headers : list jsstring) (topicCol : jsstring)
      (rows : grid) (last : value) (j : nat) (row : list value) :
  nth_error rows j = Some row ->
  exists obj,
    nth_error (fillTopics headers topicCol last rows) j = Some obj /\
    get topicCol obj
    = hd last (filter truthy (rev (map (fun r => get topicCol (rowObject headers r))
                                       (firstn (S j) rows)))) /\
    forall k, k <> topicCol -> get k obj = get k (rowObject headers row).
Proof.
  revert last j; induction rows as [|row0 rows IH]; intros last j Hj;
    [destruct j; discriminate|].
  cbn [fillTopics]. rewrite firstn_cons. cbn [map]. rewrite hd_lastNonBlank.
  destruct j as [|j]; simpl in Hj.
  - injection Hj as ->. rewrite firstn_O. cbn [map rev filter hd].
    destruct (truthy (get topicCol (rowObject headers row))) eqn:E.
    + eexists. split; [reflexivity|]. split; [reflexivity | auto].
    + eexists. split; [reflexivity|]. split.
      * now rewrite get_setOwn, str_eqb_refl.
      * intros k Hk. rewrite get_setOwn.
        assert (Hne : str_eqb topicCol k = false) by (apply str_eqb_neq; congruence).
        now rewrite Hne.
  - destruct (truthy (get topicCol (rowObject headers row0))); cbn [nth_error];
      now apply IH.
Qed.

Lemma Forall2_map_self (A B : Type) (P : B -> A -> Prop) (f : A -> B) (l : list A) :
  (forall x, In x l -> P (f x) x) -> Forall2 P (map f l) l.
Proof.
  induction l as [|x l IH]; intros H; simpl; constructor.
  - apply H. now left.
  - apply IH. intros y Hy. apply H. now right.
Qed.

Lemma groupsOf_values (topicCol : jsstring) (kept : list (object value)) :
  (forall obj, In obj kept -> arrayIndex (titleOf topicCol obj) = None) ->
  values (groupsOf topicCol kept)
  = map (fun t => filter (fun obj => str_eqb (titleOf topicCol obj) t) kept)
        (firstKeys (map (titleOf topicCol) kept)).
Proof.
  intros H. rewrite values_names.
  - unfold groupsOf. rewrite map_map. reflexivity.
  - intros [t g] Hkv. unfold groupsOf in Hkv. apply in_map_iff in Hkv as (t' & E & Ht).
    injection E as <- _. apply firstKeys_In, in_map_iff in Ht as (obj & <- & Hobj).
    now apply H.
Qed.

(** What [processMainData] computes, its two defects included.  With the
    topic and name columns resolved, it forward-fills a blank topic with
    the last non-blank topic in row order ([''] before the first one) and
    keeps the rows whose name is truthy.  When no title is the decimal form
    of an array index or the name of a member of [Object.prototype], it
    returns one record per title in order of first appearance: its title
    is the topic of the first row of the group, its names are the
    non-empty trimmed names of the group joined by ", " in row order, its
    count is the number of rows of the group, whether their names are
    listed or not.  The rows ("T1","A"), (blank,"B"), ("T2","C") give
    T1 / "A, B" / 2 and T2 / "C" / 1. *)
Lemma roster_aggregation :
  (forall (rawData : grid) (headerRow : list value) (topicCol nameCol : jsstring),
     let headerRowIndex := detectHeaderRow rawData mainKeywords in
     let headers := headerTexts headerRow in
     let dataRows := skipn (headerRowIndex + 1) rawData in
     let filled := fillTopics headers topicCol (VString []) dataRows in
     let kept := filter (fun obj => truthy (get nameCol obj)) filled in
     nth_error rawData headerRowIndex = Some headerRow ->
     findColumn headers [lit "Tên đề tài"; lit "De tai"] = Some topicCol ->
     findColumn headers [lit "Họ tên HV"; lit "Ten hoc vien"] = Some nameCol ->
     (forall j row, nth_error dataRows j = Some row ->
        exists obj,
          nth_error filled j = Some obj /\
          get topicCol obj
          = lastNonBlank (map (fun r => get topicCol (rowObject headers r))
                              (firstn (S j) dataRows)) /\
          forall k, k <> topicCol -> get k obj = get k (rowObject headers row)) /\
     ((forall obj, In obj kept ->
         arrayIndex (titleOf topicCol obj) = None /\
         inherited (titleOf topicCol obj) = false) ->
      exists out,
        processMainData rawData = Ok out /\
        Forall2 (fun rec t =>
                   let group := filter (fun obj => str_eqb (titleOf topicCol obj) t) kept in
                   group <> [] /\
                   get (lit "Tên đề tài") rec = get topicCol (hd [] group) /\
                   ToString (get (lit "Tên đề tài") rec) = t /\
                   get (lit "Họ tên HV") rec
                   = VString (join (lit ", ")
                                   (filter nonEmpty (map (trimmedName nameCol) group))) /\
                   get (lit "Số học viên") rec = VNumber (ofNat (length group)))
                out (firstKeys (map (titleOf topicCol) kept)))) /\
  (exists out,
     processMainData (rosterSheet [ (VString (lit "T1"), VString (lit "A"));
                                    (VNull, VString (lit "B"));
                                    (VString (lit "T2"), VString (lit "C")) ]) = Ok out /\
     map topicSummary out = [ (lit "T1", lit "A, B", VNumber (ofNat 2));
                              (lit "T2", lit "C", VNumber (ofNat 1)) ]).
Proof.
  split; [|eexists; split; vm_compute; reflexivity].
  intros rawData headerRow topicCol nameCol headerRowIndex headers dataRows filled kept
         Hrow Htopic Hname.
  split; [intros j row Hj; now apply fillTopics_nth|].
  intros Hkeys.
  assert (Ht : topicCol <> []).
  { apply (@findColumn_present headers [lit "Tên đề tài"; lit "De tai"] topicCol);
      [vm_compute; reflexivity | exact Htopic]. }
  assert (Hn : nameCol <> []).
  { apply (@findColumn_present headers [lit "Họ tên HV"; lit "Ten hoc vien"] nameCol);
      [vm_compute; reflexivity | exact Hname]. }
  destruct topicCol as [|t tc]; [congruence|]. destruct nameCol as [|n nc]; [congruence|].
  unfold processMainData. fold headerRowIndex. rewrite Hrow. fold headers.
  rewrite Htopic, Hname. fold dataRows. fold filled. fold kept.
  pose proof (@groupRows_groupsOf (t :: tc) kept []
                (fun obj Ho => proj2 (Hkeys obj Ho))) as Hg.
  change (groupsOf (t :: tc) []) with (@nil (jsstring * list (object value))) in Hg.
  rewrite Hg. cbn [bind app].
  rewrite groupsOf_values by (intros obj Ho; apply (Hkeys obj Ho)).
  eexists. split; [reflexivity|]. rewrite map_map.
  apply Forall2_map_self. intros k Hk. cbv zeta.
  apply firstKeys_In, in_map_iff in Hk as (obj & Hobj & Hin).
  destruct (filter (fun o => str_eqb (titleOf (t :: tc) o) k) kept) as [|o g] eqn:E.
  { exfalso. assert (Ho : In obj []); [|contradiction].
    rewrite <- E. apply filter_In. split; [assumption|]. now apply str_eqb_eq. }
  assert (Ho : str_eqb (titleOf (t :: tc) o) k = true).
  { assert (Hi : In o (o :: g)) by now left. rewrite <- E in Hi.
    now apply filter_In in Hi. }
  apply str_eqb_eq in Ho.
  split; [discriminate|]. split; [reflexivity|]. split; [exact Ho|].
  split; reflexivity.
Qed.

(** C4.  The code does not aggregate as C4 states.  On the rows
    ("T1","A"), ("T1"," ") it returns the names "A" with the count 2: the
    row whose name is a space passes the filter that is to keep the rows
    with a student name, is left out of the names after trimming, and is
    counted all the same.  Whether "blank" means empty or empty after
    trimming, C4 gives another record.  On the rows ("2","A"), ("1","B")
    it returns the group of "1" before the group of "2": titles that are
    array indices come out of [Object.values] in numeric order, not in
    order of first appearance. *)
Lemma roster_aggregation_differs :
  (exists out,
     processMainData (rosterSheet [ (VString (lit "T1"), VString (lit "A"));
                                    (VString (lit "T1"), VString (lit " ")) ]) = Ok out /\
     map topicSummary out = [ (lit "T1", lit "A", VNumber (ofNat 2)) ] /\
     map topicSummary out
     <> map statedSummary
            (statedAggregate blankEmpty [ (VString (lit "T1"), VString (lit "A"));
                                          (VString (lit "T1"), VString (lit " ")) ]) /\
     map topicSummary out
     <> map statedSummary
            (statedAggregate blankTrimmed [ (VString (lit "T1"), VString (lit "A"));
                                            (VString (lit "T1"), VString (lit " ")) ])) /\
  (exists out,
     processMainData (rosterSheet [ (VString (lit "2"), VString (lit "A"));
                                    (VString (lit "1"), VString (lit "B")) ]) = Ok out /\
     map topicSummary out = [ (lit "1", lit "B", VNumber (ofNat 1));
                              (lit "2", lit "A", VNumber (ofNat 1)) ] /\
     map topicSummary out
     <> map statedSummary
            (statedAggregate blankEmpty [ (VString (lit "2"), VString (lit "A"));
                                          (VString (lit "1"), VString (lit "B")) ]) /\
     map topicSummary out
     <> map statedSummary
            (statedAggregate blankTrimmed [ (VString (lit "2"), VString (lit "A"));
                                            (VString (lit "1"), VString (lit "B")) ])).
Proof.
  split; eexists; (split; [vm_compute; reflexivity|]);
    (split; [vm_compute; reflexivity|]);
    split; intros H; vm_compute in H; discriminate H.
Qed.

(** ** The text of a number *)

Lemma uintUnits_digits (d : Decimal.uint) : forallb isDigit (uintUnits d) = true.
Proof. induction d; simpl; auto. Qed.

Lemma digitsOfN_digits (n : N) : forallb isDigit (digitsOfN n) = true.
Proof. apply uintUnits_digits. Qed.

Lemma digitsOfN_nonempty (n : N) : digitsOfN n <> [].
Proof.
  unfold digitsOfN. destruct n as [|p]; [discriminate|]. simpl.
  pose proof (DecimalPos.Unsigned.to_uint_nonnil p) as H.
  destruct (Pos.to_uint p); [congruence | discriminate ..].
Qed.

Lemma digits_visibleHead (ds : jsstring) :
  ds <> [] -> forallb isDigit ds = true -> visibleHead ds = true.
Proof.
  destruct ds as [|c ds]; [congruence|]. simpl. intros _ H.
  apply andb_true_iff in H as [H _]. now rewrite (isDigit_not_space _ H).
Qed.

Lemma visibleHead_app (a b : jsstring) : visibleHead a = true -> visibleHead (a ++ b) = true.
Proof. now destruct a. Qed.

Lemma positiveToString_head (ds : jsstring) (n : Z) :
  ds <> [] -> forallb isDigit ds = true -> visibleHead (positiveToString ds n) = true.
Proof.
  intros Hne Hd. pose proof (digits_visibleHead Hne Hd) as Hv.
  unfold positiveToString.
  destruct ((Z.of_nat (length ds) <=? n) && (n <=? 21))%Z; [now apply visibleHead_app|].
  destruct ((0 <? n) && (n <=? 21))%Z eqn:E.
  - apply andb_true_iff in E as [E _]. apply Z.ltb_lt in E.
    destruct (Z.to_nat n) as [|k] eqn:Ek; [lia|].
    destruct ds as [|c ds]; [congruence|]. exact Hv.
  - destruct ((-6 <? n) && (n <=? 0))%Z; [reflexivity|].
    destruct ds as [|c [|c' ds]]; [congruence | exact Hv | exact Hv].
Qed.

Lemma decimal_Finite (m e : Z) : exists m' e', decimal m e = Finite m' e'.
Proof.
  unfold decimal. destruct (m =? 0)%Z; [now exists 0%Z, 0%Z|].
  destruct (strip10 (S (Z.to_nat (Z.log2 (Z.abs m)))) m e) as [m' e']. now exists m', e'.
Qed.

Lemma numberToString_head (x : number) : visibleHead (numberToString x) = true.
Proof.
  destruct x as [|[|]|m e]; try reflexivity.
  unfold numberToString. destruct (decimal_Finite m e) as (m' & e' & ->).
  destruct (m' =? 0)%Z; [reflexivity|].
  destruct (m' <? 0)%Z; [reflexivity|]. cbn [app].
  apply positiveToString_head; [apply digitsOfN_nonempty | apply digitsOfN_digits].
Qed.

Lemma trimStart_snoc_visible (l : jsstring) (c : N) :
  isWhiteSpace c = false -> trimStart (l ++ [c]) <> [].
Proof.
  intros Hc. induction l as [|x l IH]; simpl.
  - now rewrite Hc.
  - destruct (isWhiteSpace x); [exact IH | discriminate].
Qed.

Lemma trim_visible (s : jsstring) : visibleHead s = true -> trim s <> [].
Proof.
  destruct s as [|c s]; [discriminate|]. simpl. intros H.
  apply negb_true_iff in H. unfold trim. cbn [trimStart]. rewrite H.
  unfold trimEnd. cbn [rev]. intros E.
  apply (f_equal (@rev N)) in E. rewrite rev_involutive in E. simpl in E.
  now apply (trimStart_snoc_visible (rev s) c H).
Qed.

Lemma nonBlankCell_number (n : number) : nonBlankCell (VNumber n) = true.
Proof.
  unfold nonBlankCell. pose proof (trim_visible _ (numberToString_head n)) as H.
  cbn [ToString]. now destruct (trim (numberToString n)).
Qed.

Lemma digitsOfNat_digits (n : nat) : forallb isDigit (digitsOfNat n) = true.
Proof. apply digitsOfN_digits. Qed.

Lemma digitsOfNat_nonempty (n : nat) : digitsOfNat n <> [].
Proof. apply digitsOfN_nonempty. Qed.

(** ** Chapter keys in the merged sheet *)

Lemma toUpperCase_digits (ds : jsstring) :
  forallb isDigit ds = true -> toUpperCase ds = ds.
Proof.
  unfold toUpperCase. induction ds as [|c ds IH]; simpl; [reflexivity|]. intros H.
  apply andb_true_iff in H as [Hc Hds]. rewrite IH by assumption. f_equal.
  unfold isDigit in Hc. unfold isLower. ncases.
Qed.

Lemma toUpperCase_chapterKey (j : nat) : toUpperCase (chapterKey j) = upperKey j.
Proof.
  unfold chapterKey, upperKey.
  change (toUpperCase (99%N :: digitsOfNat j)) with (67%N :: toUpperCase (digitsOfNat j)).
  now rewrite toUpperCase_digits by apply digitsOfNat_digits.
Qed.

Lemma digits_alnum (ds : jsstring) :
  forallb isDigit ds = true -> forallb (fun c => isLower c || isDigit c) ds = true.
Proof.
  intros H. apply forallb_forall. intros c Hc. rewrite forallb_forall in H.
  rewrite (H c Hc). apply orb_true_r.
Qed.

Lemma normalize_upperKey (j : nat) :
  normalizeString (VString (upperKey j)) = chapterKey j.
Proof.
  rewrite normalizeString_units. unfold upperKey. rewrite normalizeUnits_cons.
  rewrite (normalizeUnits_alnum _ (digits_alnum _ (digitsOfNat_digits j))).
  reflexivity.
Qed.

Lemma chapterKey_header (j : nat) :
  matchesPrefixDigits chapterPrefixes (chapterKey j) = true /\
  lit "c" ++ removePrefix chapterPrefixes (chapterKey j) = chapterKey j.
Proof.
  unfold matchesPrefixDigits, removePrefix, chapterPrefixes, chapterKey.
  change (lit "c") with [99%N]. cbn [existsb find].
  assert (Hs : startsWith (99%N :: digitsOfNat j) [99%N] = true).
  { apply startsWith_spec. now exists (digitsOfNat j). }
  rewrite Hs. cbn [length skipn app andb].
  pose proof (digitsOfNat_nonempty j) as Hne. pose proof (digitsOfNat_digits j) as Hd.
  destruct (digitsOfNat j); [congruence|]. rewrite Hd. split; reflexivity.
Qed.

Lemma chapterKey_not_index (j : nat) : arrayIndex (chapterKey j) = None.
Proof. reflexivity. Qed.

Lemma upperKey_not_index (j : nat) : arrayIndex (upperKey j) = None.
Proof. reflexivity. Qed.

Lemma upperKey_inj (j j' : nat) : upperKey j = upperKey j' -> j = j'.
Proof. unfold upperKey. intros H. injection H as H. now apply digitsOfNat_inj. Qed.

(** ** The records of [generateMergedExcel] *)

Lemma processMainData_shape (rawData : grid) (out : list (object value)) :
  processMainData rawData = Ok out ->
  forall r, In r out -> exists tc nc gc g, r = aggregateGroup tc nc gc g.
Proof.
  unfold processMainData.
  destruct (nth_error rawData (detectHeaderRow rawData mainKeywords)) as [headerRow|];
    [|discriminate].
  destruct (findColumn (headerTexts headerRow) [lit "Tên đề tài"; lit "De tai"])
    as [[|t tc]|]; try discriminate.
  destruct (findColumn (headerTexts headerRow) [lit "Họ tên HV"; lit "Ten hoc vien"])
    as [[|n nc]|]; try discriminate.
  destruct (groupRows (t :: tc) [] _) as [grouped|]; [|discriminate].
  cbn [bind]. intros H. injection H as <-. intros r Hr.
  apply in_map_iff in Hr as (g & <- & _). eauto.
Qed.

Lemma mergeMainAndRatios_shape (dfMain : list (object value)) (dfSupp : grid)
      (out : list (object value)) :
  mergeMainAndRatios dfMain dfSupp = Ok out ->
  exists h tvCol ratioCols, out = mapi (enrichRow (skipn h dfSupp) tvCol ratioCols) dfMain.
Proof.
  unfold mergeMainAndRatios.
  destruct (nth_error dfSupp (detectHeaderRow dfSupp suppKeywords)) as [headerRow|];
    [|discriminate].
  destruct (projectRatioColumns (headerTexts headerRow)) as [|c cs];
    destruct (tvColumnIndex (headerTexts headerRow)) as [t|];
    try discriminate; intros H; injection H as <-; eauto.
Qed.

Lemma enrichRow_mergedRecord (dataRows : grid) (tvCol : option nat)
      (ratioCols : list column) (tc nc : jsstring) (gc : option jsstring)
      (g : list (object value)) (i : nat) :
  mergedRecord (enrichRow dataRows tvCol ratioCols (aggregateGroup tc nc gc g) i).
Proof.
  set (rec := enrichRow dataRows tvCol ratioCols (aggregateGroup tc nc gc g) i).
  assert (Hkeys : forall k, getOwn k rec <> None ->
            In k coreFields \/ k = lit "tv" \/ exists j, k = chapterKey j).
  { intros k Hk. apply enrichRow_keys in Hk as [H|[H|(j & _ & H)]]; eauto. }
  split; [|split; [|split]].
  - exists (studentNamesOf nc g). unfold get, rec. now rewrite enrichRow_core.
  - exists (ofNat (length g)). unfold get, rec. now rewrite enrichRow_core.
  - exact Hkeys.
  - intros k v [->|(j & ->)] Hv.
    + unfold rec in Hv. rewrite enrichRow_tv in Hv.
      destruct tvCol as [c|]; [|discriminate].
      destruct (nth_error dataRows i) as [row|]; [|discriminate].
      destruct (parsedNumber (JS.index row c)) as [n|]; [|discriminate].
      injection Hv as <-. now exists n.
    + destruct j as [|j].
      * assert (Hk : getOwn (chapterKey 0) rec <> None) by congruence.
        apply enrichRow_keys in Hk as [H|[H|(j & _ & H)]].
        -- exfalso. simpl in H. repeat (destruct H as [H|H]; [discriminate H|]). exact H.
        -- discriminate H.
        -- apply chapterKey_inj in H. lia.
      * unfold rec in Hv. replace (S j) with (j + 1) in Hv by lia.
        rewrite enrichRow_chapter in Hv.
        destruct (nth_error ratioCols i) as [col|]; [|discriminate].
        destruct (nth_error dataRows j) as [row|]; [|discriminate].
        destruct (chapterNumber (JS.index row (index col))) as [n|]; [|discriminate].
        injection Hv as <-. now exists n.
Qed.

Lemma generateMergedExcel_records (mainRawData suppRawData : grid)
      (mergedData sheet : list (object value)) :
  generateMergedExcel mainRawData suppRawData = Ok (mergedData, sheet) ->
  sheet = map sheetRow mergedData /\ Forall mergedRecord mergedData.
Proof.
  unfold generateMergedExcel. destruct mainRawData as [|r0 main]; [discriminate|].
  destruct (processMainData (r0 :: main)) as [mainProcessed|] eqn:Em; [|discriminate].
  cbn [bind]. destruct suppRawData as [|s0 supp]; [discriminate|].
  destruct (mergeMainAndRatios mainProcessed (s0 :: supp)) as [merged|] eqn:Es;
    [|discriminate].
  cbn [bind]. intros H. injection H as <- <-. split; [reflexivity|].
  apply mergeMainAndRatios_shape in Es as (h & tvCol & ratioCols & ->).
  apply Forall_forall. intros rec Hrec. unfold mapi in Hrec.
  apply mapi_from_In in Hrec as (j & mainRow & Hj & ->).
  apply nth_error_In in Hj.
  destruct (processMainData_shape _ Em _ Hj) as (tc & nc & gc & g & ->).
  apply enrichRow_mergedRecord.
Qed.

(** ** Keys of objects *)

Lemma getOwn_In (V : Type) (k : jsstring) (o : object V) :
  getOwn k o <> None <-> In k (map fst o).
Proof.
  induction o as [|[k' v] o IH]; simpl; [tauto|].
  destruct (str_eqb k' k) eqn:E.
  - apply str_eqb_eq in E. split; [now left | discriminate].
  - apply str_eqb_neq in E. rewrite IH. split; [now right | intros [H|H]; tauto].
Qed.

Lemma keys_names (V : Type) (o : object V) :
  (forall k, In k (map fst o) -> arrayIndex k = None) -> keys o = map fst o.
Proof.
  intros H. unfold keys.
  assert (Hi : indexEntries o = [] /\ nameEntries o = o).
  { unfold nameEntries. induction o as [|[k v] o IH]; [split; reflexivity|].
    pose proof (H k (or_introl eq_refl)) as Hk. simpl. rewrite Hk.
    destruct IH as [IH1 IH2]; [intros k' Hk'; apply H; now right|].
    split; [assumption | now f_equal]. }
  destruct Hi as [-> ->]. reflexivity.
Qed.

Lemma setOwn_keys_In (V : Type) (k K : jsstring) (v : V) (o : object V) :
  In K (map fst (setOwn k v o)) <-> In K (map fst o) \/ K = k.
Proof.
  rewrite <- !getOwn_In, getOwn_setOwn. destruct (str_eqb k K) eqn:E.
  - apply str_eqb_eq in E. split; [auto | discriminate].
  - apply str_eqb_neq in E. split; [auto | intros [H|H]; [assumption | congruence]].
Qed.

Lemma setOwn_keys_prefix (V : Type) (k : jsstring) (v : V) (o : object V) :
  exists extra, map fst (setOwn k v o) = map fst o ++ extra /\
                forall K, In K extra -> K = k.
Proof.
  induction o as [|[k' v'] o IH]; simpl.
  - exists [k]. split; [reflexivity|]. intros K [H|[]]. congruence.
  - destruct (str_eqb k' k).
    + exists []. split; [now rewrite app_nil_r | contradiction].
    + destruct IH as (extra & E & H). exists extra. simpl. now rewrite E.
Qed.

(** ** The rows given to the sheet writer *)

Section SheetRow.

Variable rec : object value.

Lemma sheetFold_untouched (K : jsstring) (cks : list jsstring) (base : object value) :
  ~ In K (map toUpperCase cks) ->
  getOwn K (fold_left (fun newRow key => setOwn (toUpperCase key) (get key rec) newRow)
                      cks base)
  = getOwn K base.
Proof.
  revert base; induction cks as [|x cks IH]; intros base H; simpl; [reflexivity|].
  rewrite IH by (intros Hin; apply H; now right).
  rewrite getOwn_setOwn.
  assert (E : str_eqb (toUpperCase x) K = false).
  { apply str_eqb_neq. intros E. apply H. now left. }
  now rewrite E.
Qed.

Lemma sheetFold_set (key : jsstring) (cks : list jsstring) (base : object value) :
  In key cks ->
  (forall key', In key' cks -> toUpperCase key' = toUpperCase key -> key' = key) ->
  getOwn (toUpperCase key)
         (fold_left (fun newRow k => setOwn (toUpperCase k) (get k rec) newRow) cks base)
  = Some (get key rec).
Proof.
  revert base; induction cks as [|x cks IH]; intros base Hin Hinj; [contradiction|].
  simpl. destruct (mem key cks) eqn:Em.
  - apply mem_In in Em. apply IH; [assumption|]. intros key' Hk. apply Hinj. now right.
  - assert (Hx : x = key).
    { destruct Hin as [H|H]; [assumption|]. apply mem_In in H. congruence. }
    subst x. rewrite sheetFold_untouched.
    + now rewrite getOwn_setOwn, str_eqb_refl.
    + intros H. apply in_map_iff in H as (key' & E & Hk).
      apply Hinj in E; [|now right]. subst key'. apply mem_In in Hk. congruence.
Qed.

Lemma sheetFold_keys_In (K : jsstring) (cks : list jsstring) (base : object value) :
  In K (map fst (fold_left (fun newRow key => setOwn (toUpperCase key) (get key rec) newRow)
                    cks base)) <->
  In K (map fst base) \/ In K (map toUpperCase cks).
Proof.
  revert base; induction cks as [|x cks IH]; intros base; simpl; [tauto|].
  rewrite IH. rewrite setOwn_keys_In. intuition congruence.
Qed.

Lemma sheetFold_keys_prefix (cks : list jsstring) (base : object value) :
  exists extra, map fst (fold_left (fun newRow key => setOwn (toUpperCase key) (get key rec) newRow)
                    cks base) = map fst base ++ extra.
Proof.
  revert base; induction cks as [|x cks IH]; intros base; simpl.
  - exists []. now rewrite app_nil_r.
  - destruct (IH (setOwn (toUpperCase x) (get x rec) base)) as (extra & E).
    destruct (setOwn_keys_prefix (toUpperCase x) (get x rec) base) as (extra0 & E0 & _).
    exists (extra0 ++ extra). rewrite E. now rewrite E0, app_assoc.
Qed.

End SheetRow.

Lemma coreFields_cases (P : jsstring -> Prop) :
  P (lit "hotenhv") -> P (lit "tendetai") -> P (lit "sohocvien") ->
  P (lit "nguoihuongdan") -> forall k, In k coreFields -> P k.
Proof.
  intros H1 H2 H3 H4 k Hk. unfold coreFields in Hk.
  repeat (destruct Hk as [<-|Hk]; [assumption|]). contradiction.
Qed.

Lemma mergedRecord_key_cases (rec : object value) (P : jsstring -> Prop) :
  mergedRecord rec ->
  P (lit "hotenhv") -> P (lit "tendetai") -> P (lit "sohocvien") ->
  P (lit "nguoihuongdan") -> P (lit "tv") -> (forall j, P (chapterKey j)) ->
  forall k, In k (map fst rec) -> P k.
Proof.
  intros (_ & _ & Hkeys & _) H1 H2 H3 H4 H5 H6 k Hk.
  apply getOwn_In, Hkeys in Hk as [Hk|[->|(j & ->)]]; [|assumption|apply H6].
  now apply (@coreFields_cases P).
Qed.

Lemma mergedRecord_keys (rec : object value) :
  mergedRecord rec -> keys rec = map fst rec.
Proof.
  intros H. apply keys_names.
  apply (mergedRecord_key_cases (fun k => arrayIndex k = None) H); reflexivity.
Qed.

Lemma startsWith_chapterKey (j : nat) : startsWith (chapterKey j) (lit "c") = true.
Proof. apply startsWith_spec. now exists (digitsOfNat j). Qed.

Lemma chapterKeys_In (rec : object value) (k : jsstring) :
  mergedRecord rec ->
  (In k (chapterKeys rec) <-> exists j, k = chapterKey j /\ getOwn k rec <> None).
Proof.
  intros H. unfold chapterKeys. rewrite sortWith_In, filter_In, (mergedRecord_keys H).
  rewrite <- getOwn_In. split.
  - intros [Hk Hc].
    assert (Hcase : startsWith k (lit "c") = true -> exists j, k = chapterKey j).
    { apply getOwn_In in Hk. clear Hc. revert k Hk.
      apply (mergedRecord_key_cases
               (fun k => startsWith k (lit "c") = true -> exists j, k = chapterKey j) H);
        try discriminate. intros j _. now exists j. }
    destruct (Hcase Hc) as (j & ->). now exists j.
  - intros (j & -> & Hk). split; [assumption | apply startsWith_chapterKey].
Qed.

Lemma chapterKeys_upper (rec : object value) (K : jsstring) :
  mergedRecord rec ->
  (In K (map toUpperCase (chapterKeys rec)) <->
   exists j, K = upperKey j /\ getOwn (chapterKey j) rec <> None).
Proof.
  intros H. rewrite in_map_iff. split.
  - intros (k & <- & Hk). apply (chapterKeys_In k H) in Hk as (j & -> & Hj).
    exists j. split; [apply toUpperCase_chapterKey | assumption].
  - intros (j & -> & Hj). exists (chapterKey j).
    split; [apply toUpperCase_chapterKey|]. apply (chapterKeys_In _ H). now exists j.
Qed.

Lemma sheetRow_fields (rec : object value) :
  mergedRecord rec ->
  getOwn (lit "Tên đề tài") (sheetRow rec) = Some (get (lit "tendetai") rec) /\
  getOwn (lit "Người hướng dẫn") (sheetRow rec) = Some (get (lit "nguoihuongdan") rec) /\
  getOwn (lit "Số học viên") (sheetRow rec) = Some (get (lit "sohocvien") rec) /\
  getOwn (lit "Họ tên HV") (sheetRow rec) = Some (get (lit "hotenhv") rec) /\
  getOwn (lit "TV") (sheetRow rec) = Some (get (lit "tv") rec).
Proof.
  intros H. unfold sheetRow.
  assert (Hnot : forall K, In K sheetFields ->
                           ~ In K (map toUpperCase (chapterKeys rec))).
  { intros K HK Hin. apply (chapterKeys_upper K H) in Hin as (j & -> & _).
    unfold sheetFields in HK. simpl in HK.
    repeat (destruct HK as [HK|HK]; [discriminate HK|]). exact HK. }
  repeat split; (rewrite sheetFold_untouched; [reflexivity|]);
    apply Hnot; unfold sheetFields; simpl; tauto.
Qed.

Lemma sheetRow_chapter (rec : object value) (j : nat) :
  mergedRecord rec ->
  getOwn (upperKey j) (sheetRow rec) = getOwn (chapterKey j) rec.
Proof.
  intros H. unfold sheetRow.
  destruct (getOwn (chapterKey j) rec) as [v|] eqn:E.
  - rewrite <- toUpperCase_chapterKey. rewrite sheetFold_set.
    + unfold get. now rewrite E.
    + apply (chapterKeys_In _ H). exists j. split; [reflexivity | congruence].
    + intros key' Hk Hu. apply (chapterKeys_In _ H) in Hk as (j' & -> & _).
      rewrite !toUpperCase_chapterKey in Hu. apply upperKey_inj in Hu. now subst.
  - rewrite sheetFold_untouched; [reflexivity|].
    intros Hin. apply (chapterKeys_upper _ H) in Hin as (j' & Hj & Hne).
    apply upperKey_inj in Hj. subst j'. congruence.
Qed.

Lemma sheetRow_keys (rec : object value) :
  mergedRecord rec ->
  (exists extra, keys (sheetRow rec) = sheetFields ++ extra) /\
  (forall K, In K (keys (sheetRow rec)) <->
             In K sheetFields \/
             exists j, K = upperKey j /\ getOwn (chapterKey j) rec <> None).
Proof.
  intros H.
  assert (Hin : forall K, In K (map fst (sheetRow rec)) <->
                          In K sheetFields \/
                          exists j, K = upperKey j /\ getOwn (chapterKey j) rec <> None).
  { intros K. unfold sheetRow. rewrite sheetFold_keys_In, (chapterKeys_upper K H).
    reflexivity. }
  assert (Hk : keys (sheetRow rec) = map fst (sheetRow rec)).
  { apply keys_names. intros K HK. apply Hin in HK as [HK|(j & -> & _)]; [|reflexivity].
    unfold sheetFields in HK. simpl in HK.
    repeat (destruct HK as [<-|HK]; [reflexivity|]). contradiction. }
  rewrite Hk. split; [|exact Hin].
  unfold sheetRow. apply sheetFold_keys_prefix.
Qed.

(** ** The header of the merged sheet *)

Lemma filter_twice (A : Type) (f g : A -> bool) (l : list A) :
  filter f (filter g l) = filter (fun x => g x && f x) l.
Proof.
  induction l as [|x l IH]; simpl; [reflexivity|].
  destruct (g x); simpl; [destruct (f x)|]; now rewrite IH.
Qed.

Lemma filter_all (A : Type) (f : A -> bool) (l : list A) :
  (forall x, In x l -> f x = true) -> filter f l = l.
Proof.
  induction l as [|x l IH]; simpl; intros H; [reflexivity|].
  rewrite (H x) by now left. f_equal. apply IH. intros y Hy. apply H. now right.
Qed.

Lemma firstKeys_prefix (a x : list jsstring) :
  NoDup a ->
  firstKeys (a ++ x) = a ++ filter (fun k => negb (mem k a)) (firstKeys x).
Proof.
  induction a as [|k a IH]; intros Hnd.
  - simpl. symmetry. now apply filter_all.
  - apply NoDup_cons_iff in Hnd as [Hk Hnd]. cbn [app firstKeys].
    rewrite (IH Hnd), filter_app, filter_twice. f_equal. f_equal.
    + apply filter_all. intros z Hz. apply negb_true_iff, str_eqb_neq. congruence.
    + apply filter_ext. intros z. unfold mem. cbn [existsb].
      now rewrite negb_orb, andb_comm.
Qed.

Lemma upperKeys_of (ks : list jsstring) :
  (forall K, In K ks -> exists j, K = upperKey j) -> exists js, ks = map upperKey js.
Proof.
  induction ks as [|K ks IH]; intros H; [now exists []|].
  destruct (H K (or_introl eq_refl)) as (j & ->).
  destruct IH as (js & ->); [intros K' HK'; apply H; now right|].
  now exists (j :: js).
Qed.

Lemma upperKey_not_field (j : nat) : ~ In (upperKey j) sheetFields.
Proof.
  unfold sheetFields. simpl. intros H.
  repeat (destruct H as [H|H]; [discriminate H|]). exact H.
Qed.

Lemma sheetHeader_merged (rec1 : object value) (rest : list (object value)) :
  Forall mergedRecord (rec1 :: rest) ->
  exists js,
    sheetHeader (map sheetRow (rec1 :: rest)) = sheetFields ++ map upperKey js /\
    NoDup js /\
    forall j, In j js <->
              exists rec, In rec (rec1 :: rest) /\ getOwn (chapterKey j) rec <> None.
Proof.
  intros Hall. set (merged := rec1 :: rest) in *.
  assert (Hmem : forall K, In K (flat_map (@keys value) (map sheetRow merged)) <->
                           In K sheetFields \/
                           exists j, K = upperKey j /\
                             exists rec, In rec merged /\ getOwn (chapterKey j) rec <> None).
  { intros K. rewrite in_flat_map. split.
    - intros (sr & Hsr & HK). apply in_map_iff in Hsr as (rec & <- & Hrec).
      rewrite Forall_forall in Hall.
      apply (proj2 (sheetRow_keys (Hall rec Hrec))) in HK as [HK|(j & -> & Hj)];
        [now left | right; exists j; split; [reflexivity|]; exists rec; now split].
    - rewrite Forall_forall in Hall. intros [HK|(j & -> & rec & Hrec & Hj)].
      + exists (sheetRow rec1). split; [apply in_map; now left|].
        apply (proj2 (sheetRow_keys (Hall rec1 (or_introl eq_refl)))). now left.
      + exists (sheetRow rec). split; [now apply in_map|].
        apply (proj2 (sheetRow_keys (Hall rec Hrec))). right. now exists j. }
  assert (Hpre : exists x, flat_map (@keys value) (map sheetRow merged) = sheetFields ++ x).
  { pose proof (Forall_inv Hall) as H1.
    destruct (proj1 (sheetRow_keys H1)) as (extra & E).
    exists (extra ++ flat_map (@keys value) (map sheetRow rest)).
    unfold merged. cbn [map flat_map]. now rewrite E, app_assoc. }
  destruct Hpre as (x & Ex).
  assert (Hnd : NoDup sheetFields) by (vm_compute; repeat constructor; simpl; intuition discriminate).
  unfold sheetHeader. pose proof (firstKeys_NoDup (flat_map (@keys value) (map sheetRow merged))) as HndH.
  pose proof (fun K => firstKeys_In K (flat_map (@keys value) (map sheetRow merged))) as HinH.
  rewrite Ex in HndH, HinH |- *. rewrite (firstKeys_prefix x Hnd) in HndH, HinH |- *.
  set (tail := filter (fun k => negb (mem k sheetFields)) (firstKeys x)) in *.
  assert (Htail : forall K, In K tail <->
                    exists j, K = upperKey j /\
                      exists rec, In rec merged /\ getOwn (chapterKey j) rec <> None).
  { intros K. split.
    - intros HK.
      assert (Hnf : ~ In K sheetFields).
      { unfold tail in HK. apply filter_In in HK as [_ HK].
        apply negb_true_iff in HK. intros Hf. apply mem_In in Hf. congruence. }
      assert (HK' : In K (sheetFields ++ tail)) by (apply in_or_app; now right).
      apply HinH in HK'. rewrite <- Ex in HK'. apply Hmem in HK' as [Hf|Hj]; tauto.
    - intros (j & -> & Hj).
      assert (HK : In (upperKey j) (sheetFields ++ x)).
      { rewrite <- Ex. apply Hmem. right. now exists j. }
      apply HinH, in_app_or in HK as [HK|HK]; [|assumption].
      now apply upperKey_not_field in HK. }
  destruct (@upperKeys_of tail) as (js & Ejs).
  { intros K HK. apply Htail in HK as (j & -> & _). now exists j. }
  exists js. rewrite Ejs in *. split; [reflexivity|]. split.
  - apply NoDup_app_remove_l in HndH. now apply NoDup_map_inv in HndH.
  - intros j. split.
    + intros Hj. assert (HK : In (upperKey j) (map upperKey js)) by now apply in_map.
      apply Htail in HK as (j' & E & Hrec). apply upperKey_inj in E. now subst.
    + intros Hrec. assert (HK : In (upperKey j) (map upperKey js)).
      { apply Htail. now exists j. }
      apply in_map_iff in HK as (j' & E & Hj'). apply upperKey_inj in E. now subst.
Qed.

(** ** Canonical decimals *)

Lemma canonical_mantissa (m e : Z) : (m mod 10 <> 0)%Z -> canonical (Finite m e) = true.
Proof.
  intros H. unfold canonical. destruct (Z.eqb_spec m 0) as [->|_]; [now rewrite Z.mod_0_l in H|].
  now destruct (Z.eqb_spec (m mod 10) 0).
Qed.

Lemma canonical_cases (m e : Z) :
  canonical (Finite m e) = true -> (m = 0 /\ e = 0)%Z \/ (m mod 10 <> 0)%Z.
Proof.
  unfold canonical. destruct (Z.eqb_spec m 0) as [->|_].
  - intros H. apply Z.eqb_eq in H. now left.
  - destruct (Z.eqb_spec (m mod 10) 0); [discriminate | now right].
Qed.

Lemma strip10_canonical (fuel : nat) (m e : Z) :
  (m <> 0)%Z -> (Z.abs m < 2 ^ Z.of_nat fuel)%Z ->
  (fst (strip10 fuel m e) mod 10 <> 0)%Z.
Proof.
  revert m e; induction fuel as [|fuel IH]; intros m e Hm Hlt.
  - simpl in Hlt. lia.
  - cbn [strip10]. destruct (Z.eqb_spec (m mod 10) 0) as [H0|H0]; [|exact H0].
    apply (proj2 (Z.div_exact m 10 ltac:(lia))) in H0.
    apply IH; [lia|].
    rewrite Nat2Z.inj_succ, Z.pow_succ_r in Hlt by lia. lia.
Qed.

Lemma decimal_canonical (m e : Z) : canonical (decimal m e) = true.
Proof.
  unfold decimal. destruct (Z.eqb_spec m 0) as [->|Hm]; [reflexivity|].
  pose proof (@strip10_canonical (S (Z.to_nat (Z.log2 (Z.abs m)))) m e Hm) as H.
  assert (Hlt : (Z.abs m < 2 ^ Z.of_nat (S (Z.to_nat (Z.log2 (Z.abs m)))))%Z).
  { rewrite Nat2Z.inj_succ, Z2Nat.id by apply Z.log2_nonneg.
    apply Z.log2_spec. lia. }
  specialize (H Hlt).
  destruct (strip10 (S (Z.to_nat (Z.log2 (Z.abs m)))) m e) as [m' e'].
  now apply canonical_mantissa.
Qed.

Lemma decimal_mantissa (m e : Z) : (m mod 10 <> 0)%Z -> decimal m e = Finite m e.
Proof.
  intros H. unfold decimal. destruct (Z.eqb_spec m 0) as [->|Hm]; [now rewrite Z.mod_0_l in H|].
  cbn [strip10]. destruct (Z.eqb_spec (m mod 10) 0); [contradiction | reflexivity].
Qed.

Lemma strip10_scaled (a : nat) (fuel : nat) (m e : Z) :
  (m mod 10 <> 0)%Z -> a < fuel ->
  strip10 fuel (m * 10 ^ Z.of_nat a) e = (m, (e + Z.of_nat a)%Z).
Proof.
  revert fuel e; induction a as [|a IH]; intros fuel e Hm Hf.
  - destruct fuel as [|fuel]; [lia|]. cbn [strip10]. simpl Z.of_nat.
    rewrite Z.pow_0_r, Z.mul_1_r, Z.add_0_r.
    destruct (Z.eqb_spec (m mod 10) 0); [contradiction | reflexivity].
  - destruct fuel as [|fuel]; [lia|]. cbn [strip10].
    rewrite Nat2Z.inj_succ, Z.pow_succ_r by lia.
    replace (m * (10 * 10 ^ Z.of_nat a))%Z with ((m * 10 ^ Z.of_nat a) * 10)%Z by ring.
    rewrite Z.mod_mul by lia. cbn [Z.eqb]. rewrite Z.div_mul by lia.
    rewrite IH by (assumption || lia). f_equal. lia.
Qed.

Lemma decimal_scaled (a : nat) (m e : Z) :
  (m mod 10 <> 0)%Z ->
  decimal (m * 10 ^ Z.of_nat a) e = Finite m (e + Z.of_nat a).
Proof.
  intros Hm. assert (Hm0 : (m <> 0)%Z) by (intros ->; now rewrite Z.mod_0_l in Hm).
  unfold decimal.
  assert (Hp : (0 < 10 ^ Z.of_nat a)%Z) by (apply Z.pow_pos_nonneg; lia).
  destruct (Z.eqb_spec (m * 10 ^ Z.of_nat a) 0) as [H0|H0]; [nia|].
  rewrite strip10_scaled; [reflexivity | assumption|].
  assert (Hlog : (Z.of_nat a <= Z.log2 (Z.abs (m * 10 ^ Z.of_nat a)))%Z).
  { apply Z.log2_le_pow2; [lia|].
    rewrite Z.abs_mul, (Z.abs_eq (10 ^ Z.of_nat a)) by lia.
    assert (2 ^ Z.of_nat a <= 10 ^ Z.of_nat a)%Z by (apply Z.pow_le_mono_l; lia).
    nia. }
  lia.
Qed.

(** ** Printing a number and reading it back *)

Lemma parseFloat_unsigned (s : jsstring) :
  parseFloat s = let (neg, r) := readSign (trimStart s) in parseUnsigned neg r.
Proof. reflexivity. Qed.

Lemma digitStep_fold (ds : jsstring) (acc : Z) :
  fold_left digitStep ds acc
  = (acc * 10 ^ Z.of_nat (length ds) + fold_left digitStep ds 0)%Z.
Proof.
  revert acc; induction ds as [|c ds IH]; intros acc.
  - simpl. lia.
  - cbn [fold_left length]. rewrite (IH (digitStep acc c)), (IH (digitStep 0 c)).
    rewrite Nat2Z.inj_succ, Z.pow_succ_r by lia. unfold digitStep. ring.
Qed.

Lemma digitsValue_app (a b : jsstring) :
  digitsValue (a ++ b)
  = (digitsValue a * 10 ^ Z.of_nat (length b) + digitsValue b)%Z.
Proof.
  unfold digitsValue. change (fun acc c => (acc * 10 + (Z.of_N c - 48))%Z) with digitStep.
  rewrite fold_left_app. apply digitStep_fold.
Qed.

Lemma digitsValue_zeros (k : Z) : digitsValue (zeros k) = 0%Z.
Proof.
  unfold zeros, digitsValue. induction (Z.to_nat k) as [|j IH]; [reflexivity | exact IH].
Qed.

Lemma length_zeros (k : Z) : length (zeros k) = Z.to_nat k.
Proof. apply repeat_length. Qed.

Lemma zeros_digits (k : Z) : forallb isDigit (zeros k) = true.
Proof. unfold zeros. induction (Z.to_nat k) as [|j IH]; [reflexivity | exact IH]. Qed.

Lemma uint_acc_value (d : Decimal.uint) (acc : positive) :
  fold_left digitStep (uintUnits d) (Z.pos acc) = Z.pos (Pos.of_uint_acc d acc).
Proof.
  revert acc; induction d; intros acc; cbn [uintUnits fold_left Pos.of_uint_acc];
    [reflexivity | rewrite <- IHd; f_equal; unfold digitStep; lia ..].
Qed.

Lemma uint_value (d : Decimal.uint) :
  digitsValue (uintUnits d) = Z.of_N (N.of_uint d).
Proof.
  unfold digitsValue, N.of_uint.
  change (fun acc c => (acc * 10 + (Z.of_N c - 48))%Z) with digitStep.
  induction d; cbn [uintUnits fold_left Pos.of_uint];
    [reflexivity | exact IHd | cbn [N.of_uint Z.of_N]; rewrite <- uint_acc_value; reflexivity ..].
Qed.

Lemma digitsOfN_value (n : N) : digitsValue (digitsOfN n) = Z.of_N n.
Proof. unfold digitsOfN. now rewrite uint_value, DecimalN.Unsigned.of_to. Qed.

Lemma spanDigits_app (ds r : jsstring) :
  forallb isDigit ds = true -> stopsDigits r -> spanDigits (ds ++ r) = (ds, r).
Proof.
  intros Hd Hr. induction ds as [|c ds IH]; cbn [app spanDigits forallb] in *.
  - destruct r as [|c r]; [reflexivity|]. cbn [stopsDigits spanDigits] in *. now rewrite Hr.
  - apply andb_true_iff in Hd as [Hc Hd]. now rewrite Hc, (IH Hd).
Qed.

Lemma forallb_firstn (A : Type) (p : A -> bool) (n : nat) (l : list A) :
  forallb p l = true -> forallb p (firstn n l) = true.
Proof.
  revert n; induction l as [|x l IH]; intros [|n] H; simpl in *; try reflexivity.
  apply andb_true_iff in H as [Hx H]. now rewrite Hx, IH.
Qed.

Lemma forallb_skipn (A : Type) (p : A -> bool) (n : nat) (l : list A) :
  forallb p l = true -> forallb p (skipn n l) = true.
Proof.
  revert n; induction l as [|x l IH]; intros [|n] H; simpl in *; try reflexivity; try assumption.
  apply andb_true_iff in H as [_ H]. now apply IH.
Qed.

Lemma digit_not_Infinity (c : N) (r : jsstring) :
  isDigit c = true -> startsWith (c :: r) (lit "Infinity") = false.
Proof.
  intros H. change (lit "Infinity") with (73%N :: lit "nfinity"). cbn [startsWith].
  assert (Hc : (48 <= c <= 57)%N) by (unfold isDigit in H; ncases).
  destruct (N.eqb_spec c 73); [lia | reflexivity].
Qed.

Lemma parseFloat_sign (neg : bool) (c : N) (r : jsstring) :
  isDigit c = true ->
  parseFloat ((if neg then [45%N] else []) ++ c :: r) = parseUnsigned neg (c :: r).
Proof.
  intros Hc. rewrite parseFloat_unsigned. destruct neg; cbn [app].
  - reflexivity.
  - cbn [trimStart]. rewrite (isDigit_not_space _ Hc), (readSign_digit c r Hc). reflexivity.
Qed.

(** The value read from a digit string followed by an exponent part. *)
Lemma readExponent_printed (x : Z) :
  readExponent ([101%N] ++ (if (0 <=? x)%Z then [43%N] else [45%N])
                ++ digitsOfN (Z.to_N (Z.abs x))) = x.
Proof.
  cbn [app readExponent N.eqb Pos.eqb orb].
  pose proof (digitsOfN_digits (Z.to_N (Z.abs x))) as Hd.
  pose proof (@digitsOfN_nonempty (Z.to_N (Z.abs x))) as Hne.
  pose proof (digitsOfN_value (Z.to_N (Z.abs x))) as Hv.
  rewrite Z2N.id in Hv by lia.
  destruct (Z.leb_spec 0 x); cbn [app readSign]; rewrite (spanDigits_all _ Hd);
    destruct (digitsOfN (Z.to_N (Z.abs x))); try congruence; rewrite Hv; unfold signed; lia.
Qed.

Lemma parseUnsigned_integer (neg : bool) (ds : jsstring) :
  ds <> [] -> forallb isDigit ds = true ->
  parseUnsigned neg ds = decimal (signed neg (digitsValue ds)) 0.
Proof.
  intros Hne Hd. destruct ds as [|c ds]; [congruence|].
  assert (Hc : isDigit c = true) by (cbn [forallb] in Hd; now apply andb_true_iff in Hd).
  unfold parseUnsigned. rewrite (@digit_not_Infinity c ds Hc), (spanDigits_all _ Hd).
  reflexivity.
Qed.

Lemma parseUnsigned_fraction (neg : bool) (ip fp r3 : jsstring) :
  ip <> [] -> forallb isDigit ip = true -> forallb isDigit fp = true -> stopsDigits r3 ->
  parseUnsigned neg (ip ++ [46%N] ++ fp ++ r3)
  = decimal (signed neg (digitsValue (ip ++ fp)))
            (readExponent r3 - Z.of_nat (length fp)).
Proof.
  intros Hne Hi Hf Hr. destruct ip as [|c ip]; [congruence|].
  assert (Hc : isDigit c = true) by (cbn [forallb] in Hi; now apply andb_true_iff in Hi).
  unfold parseUnsigned. cbn [app]. rewrite (@digit_not_Infinity c _ Hc).
  change (c :: ip ++ 46%N :: fp ++ r3) with ((c :: ip) ++ 46%N :: fp ++ r3).
  rewrite (spanDigits_app (c :: ip) (46%N :: fp ++ r3) Hi) by reflexivity.
  rewrite (spanDigits_app fp r3 Hf Hr). reflexivity.
Qed.

Lemma parseUnsigned_exponent (neg : bool) (ip r : jsstring) :
  ip <> [] -> forallb isDigit ip = true ->
  parseUnsigned neg (ip ++ 101%N :: r)
  = decimal (signed neg (digitsValue ip)) (readExponent (101%N :: r)).
Proof.
  intros Hne Hi. destruct ip as [|c ip]; [congruence|].
  assert (Hc : isDigit c = true) by (cbn [forallb] in Hi; now apply andb_true_iff in Hi).
  unfold parseUnsigned. cbn [app]. rewrite (@digit_not_Infinity c _ Hc).
  change (c :: ip ++ 101%N :: r) with ((c :: ip) ++ 101%N :: r).
  rewrite (spanDigits_app (c :: ip) (101%N :: r) Hi) by reflexivity.
  reflexivity.
Qed.

Lemma signed_scaled (neg : bool) (v p : Z) : signed neg (v * p) = (signed neg v * p)%Z.
Proof. destruct neg; simpl; lia. Qed.

(** Reading back the digits that Number::toString lays out gives the
    mantissa and the exponent they came from. *)
Lemma parseUnsigned_printed (neg : bool) (s : jsstring) (n m : Z) :
  s <> [] -> forallb isDigit s = true ->
  (m mod 10 <> 0)%Z -> signed neg (digitsValue s) = m ->
  parseUnsigned neg (positiveToString s n) = Finite m (n - Z.of_nat (length s)).
Proof.
  intros Hne Hd Hm Hv. unfold positiveToString.
  assert (Hk : (0 < Z.of_nat (length s))%Z) by (destruct s; [congruence | simpl; lia]).
  set (k := Z.of_nat (length s)) in *.
  destruct ((k <=? n) && (n <=? 21))%Z eqn:E1.
  { apply andb_true_iff in E1 as [E1 _]. apply Z.leb_le in E1.
    rewrite parseUnsigned_integer.
    - rewrite digitsValue_app, digitsValue_zeros, length_zeros, Z.add_0_r, signed_scaled, Hv.
      rewrite decimal_scaled by assumption. f_equal. rewrite Z2Nat.id; lia.
    - destruct s; [congruence | discriminate].
    - rewrite forallb_app, Hd. apply zeros_digits. }
  destruct ((0 <? n) && (n <=? 21))%Z eqn:E2.
  { apply andb_true_iff in E2 as [E2 E2']. apply Z.ltb_lt in E2. apply Z.leb_le in E2'.
    assert (Hnk : (n < k)%Z).
    { apply andb_false_iff in E1 as [E1|E1]; [apply Z.leb_gt in E1 | apply Z.leb_gt in E1]; lia. }
    replace (firstn (Z.to_nat n) s ++ [46%N] ++ skipn (Z.to_nat n) s)
      with (firstn (Z.to_nat n) s ++ [46%N] ++ skipn (Z.to_nat n) s ++ [])
      by now rewrite app_nil_r.
    rewrite parseUnsigned_fraction.
    - rewrite firstn_skipn, Hv, decimal_mantissa by assumption. f_equal.
      cbn [readExponent]. rewrite length_skipn. subst k. lia.
    - destruct s as [|c s]; [congruence|]. destruct (Z.to_nat n) eqn:En; [lia | discriminate].
    - now apply forallb_firstn.
    - now apply forallb_skipn.
    - exact I. }
  destruct ((-6 <? n) && (n <=? 0))%Z eqn:E3.
  { apply andb_true_iff in E3 as [E3 E3']. apply Z.ltb_lt in E3. apply Z.leb_le in E3'.
    replace ([48%N; 46%N] ++ zeros (- n) ++ s)
      with ([48%N] ++ [46%N] ++ (zeros (- n) ++ s) ++ [])
      by now rewrite app_nil_r.
    rewrite parseUnsigned_fraction.
    - cbn [app]. change (48%N :: zeros (- n) ++ s) with ((48%N :: zeros (- n)) ++ s).
      rewrite digitsValue_app.
      change (digitsValue (48%N :: zeros (- n))) with (digitsValue (zeros (- n))).
      rewrite digitsValue_zeros, Z.mul_0_l, Z.add_0_l, Hv, decimal_mantissa by assumption.
      f_equal. cbn [readExponent]. rewrite length_app, length_zeros. subst k. lia.
    - discriminate.
    - reflexivity.
    - rewrite forallb_app, Hd, zeros_digits. reflexivity.
    - exact I. }
  destruct s as [|d [|d' s']]; [congruence | |].
  - cbn [app]. change (d :: 101%N :: ?r) with ([d] ++ 101%N :: r).
    rewrite parseUnsigned_exponent by (assumption || discriminate).
    change (101%N :: ?r) with ([101%N] ++ r).
    rewrite readExponent_printed, Hv, decimal_mantissa by assumption.
    f_equal; try (subst k; cbn [length]; lia).
  - cbn [firstn skipn].
    rewrite parseUnsigned_fraction.
    + change ([d] ++ d' :: s') with (d :: d' :: s').
      change ([101%N] ++ ?r) with (101%N :: r).
      change (101%N :: ?r) with ([101%N] ++ r).
      rewrite readExponent_printed, Hv, decimal_mantissa by assumption.
      f_equal; try (subst k; cbn [length]; lia).
    + discriminate.
    + cbn [forallb] in *. apply andb_true_iff in Hd as [Hd _]. now rewrite Hd.
    + cbn [forallb] in *. apply andb_true_iff in Hd as [_ Hd]. exact Hd.
    + reflexivity.
Qed.

Lemma positiveToString_digitHead (ds : jsstring) (n : Z) :
  ds <> [] -> forallb isDigit ds = true -> digitHead (positiveToString ds n) = true.
Proof.
  intros Hne Hd. destruct ds as [|c ds]; [congruence|].
  assert (Hc : isDigit c = true) by (cbn [forallb] in Hd; now apply andb_true_iff in Hd).
  unfold positiveToString.
  destruct ((Z.of_nat (length (c :: ds)) <=? n) && (n <=? 21))%Z; [exact Hc|].
  destruct ((0 <? n) && (n <=? 21))%Z eqn:E.
  - apply andb_true_iff in E as [E _]. apply Z.ltb_lt in E.
    destruct (Z.to_nat n) as [|k] eqn:Ek; [lia | exact Hc].
  - destruct ((-6 <? n) && (n <=? 0))%Z; [reflexivity|].
    destruct ds; exact Hc.
Qed.

Lemma replaceFirst_absent (c d : N) (s : jsstring) :
  ~ In c s -> replaceFirst c d s = s.
Proof.
  induction s as [|x s IH]; intros H; simpl; [reflexivity|].
  destruct (N.eqb_spec x c) as [->|Hx]; [exfalso; apply H; now left|].
  rewrite IH; [reflexivity|]. intros Hin. apply H. now right.
Qed.

Lemma digits_no_comma (s : jsstring) : forallb isDigit s = true -> ~ In 44%N s.
Proof.
  intros Hd Hin. apply (proj1 (forallb_forall _ _) Hd) in Hin. discriminate.
Qed.

Ltac split_in H :=
  repeat (cbn [app In] in H;
          match type of H with
          | _ \/ _ => destruct H as [H|H]
          | In _ (_ ++ _) => apply in_app_or in H; destruct H as [H|H]
          | False => destruct H
          | _ = _ => discriminate H
          end).

Lemma positiveToString_no_comma (s : jsstring) (n : Z) :
  forallb isDigit s = true -> ~ In 44%N (positiveToString s n).
Proof.
  intros Hd. pose proof (digits_no_comma _ Hd) as Hs.
  pose proof (digits_no_comma _ (@forallb_firstn _ isDigit (Z.to_nat n) s Hd)) as Hf.
  pose proof (digits_no_comma _ (@forallb_skipn _ isDigit (Z.to_nat n) s Hd)) as Hk.
  pose proof (digits_no_comma _ (zeros_digits (n - Z.of_nat (length s)))) as Hz.
  pose proof (digits_no_comma _ (zeros_digits (- n))) as Hz'.
  pose proof (digits_no_comma _ (digitsOfN_digits (Z.to_N (Z.abs (n - 1))))) as He.
  assert (Hsign : ~ In 44%N (if (0 <=? n - 1)%Z then [43%N] else [45%N]))
    by (destruct (0 <=? n - 1)%Z; intros [H|[]]; discriminate).
  unfold positiveToString.
  destruct ((Z.of_nat (length s) <=? n) && (n <=? 21))%Z;
    [intros H; split_in H; contradiction|].
  destruct ((0 <? n) && (n <=? 21))%Z; [intros H; split_in H; contradiction|].
  destruct ((-6 <? n) && (n <=? 0))%Z; [intros H; split_in H; contradiction|].
  destruct s as [|d [|d' s']]; cbn [firstn skipn]; intros H; split_in H;
    try contradiction; apply Hs; cbn [In]; tauto.
Qed.

(** A canonical Number survives [String] followed by the reading of the
    direct-read path. *)
Lemma readNumber_printed (x : number) :
  canonical x = true -> readNumber (VNumber x) = x.
Proof.
  destruct x as [|[|]|m e]; try reflexivity.
  intros H. apply canonical_cases in H as [[-> ->]|Hm]; [reflexivity|].
  assert (Hm0 : (m <> 0)%Z) by (intros ->; now rewrite Z.mod_0_l in Hm).
  unfold readNumber. cbn [ToString]. unfold numberToString.
  rewrite (@decimal_mantissa m e Hm).
  destruct (Z.eqb_spec m 0) as [|_]; [contradiction|].
  set (s := digitsOfN (Z.to_N (Z.abs m))).
  assert (Hd : forallb isDigit s = true) by apply digitsOfN_digits.
  assert (Hne : s <> []) by apply digitsOfN_nonempty.
  assert (Hv : digitsValue s = Z.abs m)
    by (unfold s; rewrite digitsOfN_value; apply Z2N.id; lia).
  set (n := (Z.of_nat (length s) + e)%Z).
  rewrite replaceFirst_absent.
  - pose proof (@positiveToString_digitHead s n Hne Hd) as Hh.
    pose proof (@parseUnsigned_printed (m <? 0)%Z s n m Hne Hd Hm) as Hp.
    destruct (positiveToString s n) as [|c r]; [discriminate|].
    rewrite (@parseFloat_sign (m <? 0)%Z c r Hh), Hp.
    + f_equal. subst n. lia.
    + rewrite Hv. unfold signed. destruct (Z.ltb_spec m 0); lia.
  - intros H. apply in_app_or in H as [H|H].
    + destruct (m <? 0)%Z; [destruct H as [H|[]]; discriminate | destruct H].
    + now apply (@positiveToString_no_comma s n Hd).
Qed.

(** ** The ratio merger, record by record *)

Lemma replaceFirst_first (c d : N) (a b : jsstring) :
  ~ In c a -> replaceFirst c d (a ++ c :: b) = a ++ d :: b.
Proof.
  induction a as [|x a IH]; intros H; cbn [app replaceFirst].
  - now rewrite N.eqb_refl.
  - destruct (N.eqb_spec x c) as [->|_]; [exfalso; apply H; now left|].
    rewrite IH; [reflexivity|]. intros Hin. apply H. now right.
Qed.

(** A text of digits, a comma or a dot, and digits parses to the decimal
    it writes. *)
Lemma parsedNumber_separator (ip fp : jsstring) (sep : N) :
  sep = 44%N \/ sep = 46%N ->
  ip <> [] -> forallb isDigit ip = true -> forallb isDigit fp = true ->
  parsedNumber (VString (ip ++ sep :: fp))
  = Some (decimal (digitsValue (ip ++ fp)) (- Z.of_nat (length fp))).
Proof.
  intros Hsep Hne Hi Hf.
  assert (Hr : replaceFirst 44 46 (ip ++ sep :: fp) = ip ++ 46%N :: fp).
  { destruct Hsep as [->| ->].
    - apply replaceFirst_first. now apply digits_no_comma.
    - apply replaceFirst_absent. intros Hin. apply in_app_or in Hin as [Hin|[Hin|Hin]].
      + now apply (digits_no_comma _ Hi).
      + discriminate Hin.
      + now apply (digits_no_comma _ Hf). }
  unfold parsedNumber. cbn [isNullish cellNumber]. rewrite Hr.
  destruct ip as [|c ip]; [congruence|].
  assert (Hc : isDigit c = true) by (cbn [forallb] in Hi; now apply andb_true_iff in Hi).
  pose proof (@parseFloat_sign false c (ip ++ 46%N :: fp) Hc) as Hs. cbn [app] in Hs |- *.
  rewrite Hs.
  pose proof (@parseUnsigned_fraction false (c :: ip) fp [] Hne Hi Hf I) as Hp.
  rewrite app_nil_r in Hp. cbn [app] in Hp. rewrite Hp.
  cbn [readExponent signed]. rewrite Z.sub_0_l.
  destruct (decimal_Finite (digitsValue (c :: ip ++ fp)) (- Z.of_nat (length fp)))
    as (m & e & ->).
  reflexivity.
Qed.




(** ** The canonical form of a Number *)

Lemma canon_canonical (x : number) : canonical x = true -> canon x = x.
Proof.
  destruct x as [|neg|m e]; try reflexivity.
  intros H. apply canonical_cases in H as [[-> ->]|Hm]; [reflexivity|].
  now apply decimal_mantissa.
Qed.

Lemma canonical_canon (x : number) : canonical (canon x) = true.
Proof. destruct x as [|neg|m e]; try reflexivity. apply decimal_canonical. Qed.

Lemma canon_idempotent (x : number) : canon (canon x) = canon x.
Proof. apply canon_canonical, canonical_canon. Qed.

Lemma numberToString_canon (x : number) : numberToString (canon x) = numberToString x.
Proof.
  destruct x as [|neg|m e]; try reflexivity.
  pose proof (canon_idempotent (Finite m e)) as H. cbn [canon] in *.
  destruct (decimal_Finite m e) as (m' & e' & E). rewrite E in *.
  cbn [canon] in H. unfold numberToString. now rewrite E, H.
Qed.

(** [String] followed by the reading of the direct-read path gives the
    canonical form of a Number. *)
Lemma readNumber_canon (x : number) : readNumber (VNumber x) = canon x.
Proof.
  rewrite <- (@readNumber_printed (canon x) (canonical_canon x)).
  unfold readNumber. cbn [ToString]. now rewrite numberToString_canon.
Qed.

(** ** Reading the merged sheet back *)

Lemma sheetCell_get (sr : object value) (K : jsstring) (v : value) :
  getOwn K sr = Some v -> sheetCell sr K = cellOf v.
Proof. unfold sheetCell. intros ->. now destruct v. Qed.

Lemma sheet_cells (rec : object value) (js : list nat) :
  mergedRecord rec ->
  map (sheetCell (sheetRow rec)) (sheetFields ++ map upperKey js)
  = fixedCells rec ++ map (chapterCell rec) js.
Proof.
  intros H. destruct (sheetRow_fields H) as (F1 & F2 & F3 & F4 & F5).
  rewrite map_app. f_equal.
  - unfold sheetFields, fixedCells. cbn [map].
    now rewrite (sheetCell_get _ _ F1), (sheetCell_get _ _ F2), (sheetCell_get _ _ F3),
      (sheetCell_get _ _ F4), (sheetCell_get _ _ F5).
  - rewrite map_map. apply map_ext. intros j. unfold sheetCell, chapterCell.
    rewrite (sheetRow_chapter j H). now destruct (getOwn (chapterKey j) rec) as [[]|].
Qed.

Lemma sheet_headers (js : list nat) :
  map normalizeString (map VString (sheetFields ++ map upperKey js))
  = normFields ++ map chapterKey js.
Proof.
  rewrite map_map, map_app.
  change (map (fun x => normalizeString (VString x)) sheetFields) with normFields.
  f_equal. rewrite map_map. apply map_ext. intros j. apply normalize_upperKey.
Qed.

Lemma findIndex_prefix (A : Type) (p : A -> bool) (a b : list A) (i : nat) :
  findIndex p a = Some i -> findIndex p (a ++ b) = Some i.
Proof.
  revert i; induction a as [|x a IH]; intros i; simpl; [discriminate|].
  destruct (p x); [trivial|].
  destruct (findIndex p a) as [i'|]; [|discriminate].
  intros H. now rewrite (IH i' eq_refl).
Qed.

Lemma findHeaderIndex_prefix (pre tail : list jsstring) (kw : jsstring)
      (kws : list jsstring) (i : nat) :
  findIndex (fun h => includes h (normalizeString (VString kw))) pre = Some i ->
  findHeaderIndex (pre ++ tail) (kw :: kws) = Some i.
Proof. intros H. cbn [findHeaderIndex]. now rewrite (findIndex_prefix _ _ tail H). Qed.

Lemma readChapter_getOwn (k : jsstring) (row : list value) (rowData : object value)
      (h : jsstring) (i : nat) :
  startsWith k (lit "c") = false ->
  getOwn k (readChapter row rowData h i) = getOwn k rowData.
Proof.
  intros Hk. unfold readChapter.
  destruct (matchesPrefixDigits chapterPrefixes h); [|reflexivity].
  destruct (isNullish (JS.index row i)); [reflexivity|].
  rewrite getOwn_setOwn. change (lit "c" ++ ?x) with (99%N :: x).
  now rewrite (@str_eqb_head _ _ _ Hk).
Qed.

Lemma readChapters_getOwn (k : jsstring) (row : list value) (his : list (jsstring * nat))
      (rowData : object value) :
  startsWith k (lit "c") = false ->
  getOwn k (fold_left (fun rowData hi => readChapter row rowData (fst hi) (snd hi)) his rowData)
  = getOwn k rowData.
Proof.
  intros Hk. revert rowData; induction his as [|hi his IH]; intros rowData; simpl.
  - reflexivity.
  - rewrite IH. now apply readChapter_getOwn.
Qed.

Lemma readChapter_chapterKey (row : list value) (rowData : object value) (j i : nat) :
  readChapter row rowData (chapterKey j) i =
  if isNullish (JS.index row i) then rowData
  else setOwn (chapterKey j) (VNumber (readNumber (JS.index row i))) rowData.
Proof.
  unfold readChapter. destruct (chapterKey_header j) as [-> ->]. reflexivity.
Qed.

Lemma readChapters_columns (row : list value) (cell : nat -> value) (j : nat)
      (js : list nat) (start : nat) (rowData : object value) :
  NoDup js ->
  (forall p j', nth_error js p = Some j' -> JS.index row (start + p) = cell j') ->
  getOwn (chapterKey j)
         (fold_left (fun rowData hi => readChapter row rowData (fst hi) (snd hi))
                    (mapi_from (fun h i => (h, i)) start (map chapterKey js)) rowData)
  = if existsb (Nat.eqb j) js && negb (isNullish (cell j))
    then Some (VNumber (readNumber (cell j)))
    else getOwn (chapterKey j) rowData.
Proof.
  revert start rowData; induction js as [|j0 js IH]; intros start rowData Hnd Hrow;
    [reflexivity|].
  apply NoDup_cons_iff in Hnd as [Hj0 Hnd].
  cbn [map mapi_from fold_left fst snd existsb].
  assert (Hrow' : forall p j', nth_error js p = Some j' ->
                                JS.index row (S start + p) = cell j').
  { intros p j' Hp. replace (S start + p) with (start + S p) by lia. now apply Hrow. }
  rewrite (IH (S start) _ Hnd Hrow').
  rewrite readChapter_chapterKey.
  assert (Hc : JS.index row start = cell j0).
  { rewrite <- (Hrow 0 j0 eq_refl). f_equal. lia. }
  rewrite Hc. destruct (Nat.eqb_spec j j0) as [->|Hne].
  - assert (Hnot : existsb (Nat.eqb j0) js = false).
    { apply not_true_is_false. intros H. apply existsb_exists in H as (x & Hx & E).
      apply Nat.eqb_eq in E. now subst. }
    rewrite Hnot. cbn [orb andb].
    destruct (isNullish (cell j0)); [reflexivity|].
    now rewrite getOwn_setOwn, str_eqb_refl.
  - cbn [orb]. destruct (existsb (Nat.eqb j) js && negb (isNullish (cell j))); [reflexivity|].
    destruct (isNullish (cell j0)); [reflexivity|].
    rewrite getOwn_setOwn, chapterKey_neq by congruence. reflexivity.
Qed.

Lemma textOf_cellOf (v : value) : textOf (cellOf v) = textOf v.
Proof. now destruct v. Qed.

Lemma textOf_string (s : jsstring) : textOf (VString s) = s.
Proof. now destruct s. Qed.

Lemma readChapter_other (row : list value) (rowData : object value) (h : jsstring) (i : nat) :
  matchesPrefixDigits chapterPrefixes h = false -> readChapter row rowData h i = rowData.
Proof. unfold readChapter. now intros ->. Qed.

Lemma mapi_from_app (A B : Type) (f : A -> nat -> B) (i : nat) (a b : list A) :
  mapi_from f i (a ++ b) = mapi_from f i a ++ mapi_from f (i + length a) b.
Proof.
  revert i; induction a as [|x a IH]; intros i; simpl.
  - now rewrite Nat.add_0_r.
  - rewrite IH. now rewrite Nat.add_succ_r.
Qed.

Lemma chapter_cells_index (rec : object value) (js : list nat) (p j : nat) :
  nth_error js p = Some j ->
  JS.index (fixedCells rec ++ map (chapterCell rec) js) (5 + p) = chapterCell rec j.
Proof.
  intros Hp. unfold JS.index. rewrite app_nth2 by (simpl; lia).
  replace (5 + p - length (fixedCells rec)) with p by (simpl; lia).
  apply nth_error_nth. now rewrite nth_error_map, Hp.
Qed.

Lemma readRow_tv (headers : list jsstring) (ti hi : nat) (si gi tvi : option nat)
      (row : list value) :
  getOwn (lit "tv") (readRow headers ti hi si gi tvi row)
  = match tvi with
    | Some i => if isNullish (JS.index row i) then None
                else Some (VNumber (readNumber (JS.index row i)))
    | None => None
    end.
Proof.
  unfold readRow. rewrite readChapters_getOwn by reflexivity.
  destruct tvi as [i|]; [|reflexivity].
  destruct (isNullish (JS.index row i)); [reflexivity|].
  now rewrite getOwn_setOwn.
Qed.

Lemma reread_record (rec : object value) (js : list nat) :
  mergedRecord rec -> NoDup js ->
  (forall j, getOwn (chapterKey j) rec <> None -> In j js) ->
  let row := fixedCells rec ++ map (chapterCell rec) js in
  let headers := normFields ++ map chapterKey js in
  sameFieldsAsText (readRow headers 0 3 (Some 2) (Some 1) (Some 4) row) rec /\
  completeRow 0 3 row = completeRecord rec.
Proof.
  intros Hrec Hnd Hjs row headers.
  pose proof Hrec as ((names & Hnames) & _ & _ & Hvalues).
  destruct (readRow_texts headers 0 3 (Some 2) (Some 1) (Some 4) row) as [Et Eh].
  change (JS.index row 0) with (cellOf (get (lit "tendetai") rec)) in Et.
  change (JS.index row 3) with (cellOf (get (lit "hotenhv") rec)) in Eh.
  rewrite textOf_cellOf in Et, Eh.
  split.
  - split; [exact Et|]. split; [now rewrite Eh, Hnames, textOf_string|].
    split.
    + rewrite readRow_tv.
      change (JS.index row 4) with (cellOf (get (lit "tv") rec)).
      unfold get. destruct (getOwn (lit "tv") rec) as [v|] eqn:E; [|reflexivity].
      destruct (Hvalues (lit "tv") v (or_introl eq_refl) E) as (n & ->).
      cbn [cellOf isNullish canonField]. now rewrite readNumber_canon, canon_idempotent.
    + intros j. unfold readRow, headers, mapi.
      rewrite mapi_from_app, fold_left_app.
      unfold normFields. cbn [mapi_from fold_left fst snd length Nat.add].
      rewrite !readChapter_other by reflexivity.
      rewrite (@readChapters_columns row (chapterCell rec) j js _ _ Hnd
                 (fun p j' Hp => chapter_cells_index rec js p Hp)).
      unfold chapterCell at 1 2. destruct (getOwn (chapterKey j) rec) as [v|] eqn:E.
      * destruct (Hvalues (chapterKey j) v (or_intror (ex_intro _ j eq_refl)) E) as (n & ->).
        assert (Hin : existsb (Nat.eqb j) js = true).
        { apply existsb_exists. exists j. split; [|apply Nat.eqb_refl].
          apply Hjs. congruence. }
        rewrite Hin. cbn [cellOf isNullish negb andb canonField].
        now rewrite readNumber_canon, canon_idempotent.
      * cbn [isNullish negb]. rewrite andb_false_r.
        change (JS.index row 4) with (cellOf (get (lit "tv") rec)).
        destruct (isNullish (cellOf (get (lit "tv") rec))); [reflexivity|].
        now rewrite getOwn_setOwn.
  - unfold completeRow, completeRecord.
    change (JS.index row 0) with (cellOf (get (lit "tendetai") rec)).
    change (JS.index row 3) with (cellOf (get (lit "hotenhv") rec)).
    now rewrite !textOf_cellOf.
Qed.

Lemma merged_rows_kept (merged : list (object value)) (js : list nat) :
  merged <> [] -> Forall mergedRecord merged ->
  dropBlankRows (map VString (sheetFields ++ map upperKey js)
                     :: map (fun rec => fixedCells rec ++ map (chapterCell rec) js) merged)
  = map VString (sheetFields ++ map upperKey js)
        :: map (fun rec => fixedCells rec ++ map (chapterCell rec) js) merged.
Proof.
  intros _ Hall. unfold dropBlankRows. apply filter_all. intros row [<-|Hrow].
  - apply existsb_exists. exists (VString (lit "Tên đề tài")).
    split; [now left | vm_compute; reflexivity].
  - apply in_map_iff in Hrow as (rec & <- & Hrec). rewrite Forall_forall in Hall.
    destruct (Hall rec Hrec) as (_ & (n & Hn) & _).
    apply existsb_exists. exists (VNumber n). split; [|apply nonBlankCell_number].
    apply in_or_app. left. unfold fixedCells. rewrite Hn. simpl. tauto.
Qed.

Lemma sameFields_of_text (rec' rec : object value) (t : jsstring) :
  get (lit "tendetai") rec = VString t ->
  sameFieldsAsText rec' rec -> sameFields rec' rec.
Proof.
  intros Ht (H1 & H2). split; [|exact H2].
  rewrite H1, Ht. now destruct t.
Qed.

Section Workbook.

(** What [XLSX.utils.sheet_to_json] gives [readFileAsArray] for the file
    that [generateMergedExcel] writes from the given sheet rows.  The
    library is not part of the repository. *)
Variable workbookArrays : list (object value) -> grid.


End Workbook.



(** ** Searching lists *)

Lemma find_first (A : Type) (p : A -> bool) (l : list A) (x : A) :
  find p l = Some x <->
  exists l1 l2, l = l1 ++ x :: l2 /\ p x = true /\ forall y, In y l1 -> p y = false.
Proof.
  induction l as [|a l IH]; simpl.
  - split; [discriminate|]. intros ([|? ?] & l2 & H & _); discriminate.
  - destruct (p a) eqn:Ea.
    + split.
      * intros H. injection H as <-. exists [], l. repeat split; [assumption | contradiction].
      * intros ([|b l1] & l2 & H & Hx & Hl1).
        -- injection H as <- _. reflexivity.
        -- injection H as <- _. rewrite (Hl1 a (or_introl eq_refl)) in Ea. discriminate.
    + rewrite IH. split.
      * intros (l1 & l2 & -> & Hx & Hl1). exists (a :: l1), l2. repeat split; [assumption|].
        intros y [<-|Hy]; [assumption | now apply Hl1].
      * intros ([|b l1] & l2 & H & Hx & Hl1).
        -- injection H as <- _. congruence.
        -- injection H as <- ->. exists l1, l2. repeat split; [assumption|].
           intros y Hy. apply Hl1. now right.
Qed.

Lemma find_nothing (A : Type) (p : A -> bool) (l : list A) :
  find p l = None <-> forall y, In y l -> p y = false.
Proof.
  induction l as [|a l IH]; simpl; [tauto|].
  destruct (p a) eqn:Ea.
  - split; [discriminate|]. intros H. rewrite (H a (or_introl eq_refl)) in Ea. discriminate.
  - rewrite IH. split; [intros H y [<-|Hy]; auto | auto].
Qed.

Lemma findIndex_first (A : Type) (p : A -> bool) (l : list A) (i : nat) :
  findIndex p l = Some i <->
  (exists x, nth_error l i = Some x /\ p x = true) /\
  (forall j y, j < i -> nth_error l j = Some y -> p y = false).
Proof.
  revert i; induction l as [|a l IH]; intros i; simpl.
  - split; [discriminate|]. intros [(x & H & _) _]. destruct i; discriminate.
  - destruct (p a) eqn:Ea.
    + split.
      * intros H. injection H as <-. split; [now exists a | intros j y Hj; lia].
      * intros [_ H]. destruct i as [|i]; [reflexivity|].
        rewrite (H 0 a ltac:(lia) eq_refl) in Ea. discriminate.
    + destruct (findIndex p l) as [i'|] eqn:Ef.
      * pose proof (proj1 (IH i') eq_refl) as [(x & Hx & Hpx) Hlt]. split.
        -- intros H. injection H as <-. split; [now exists x|].
           intros [|j] y Hj Hy; simpl in Hy; [now injection Hy as <- | apply (Hlt j); [lia | assumption]].
        -- intros [(y & Hy & Hpy) H]. destruct i as [|i]; simpl in Hy; [congruence|].
           f_equal. assert (Hi : Some i' = Some i).
           { apply IH. split; [now exists y|]. intros j z Hj Hz. apply (H (S j)); [lia | exact Hz]. }
           congruence.
      * split; [discriminate|]. intros [(y & Hy & Hpy) H].
        destruct i as [|i]; simpl in Hy; [congruence|].
        assert (Hi : None = Some i).
        { apply IH. split; [now exists y|]. intros j z Hj Hz. apply (H (S j)); [lia | exact Hz]. }
        discriminate.
Qed.

(** ** The column resolver *)

Lemma findColumn_equation (headers : list jsstring) (kw : jsstring) (kws : list jsstring) :
  findColumn headers (kw :: kws)
  = match find (answers kw) headers with
    | Some found => Some found
    | None => findColumn headers kws
    end.
Proof. reflexivity. Qed.

(** X1.  [findColumn] gives the keywords precedence over the columns: it
    returns the leftmost header that answers to the first keyword that any
    header answers to, and [null] exactly when no header answers to any
    keyword. *)
Theorem findColumn_keyword_precedence :
  forall (headers keywords : list jsstring),
    (forall h, findColumn headers keywords = Some h <->
       exists kws1 kw kws2 hs1 hs2,
         keywords = kws1 ++ kw :: kws2 /\ headers = hs1 ++ h :: hs2 /\
         answers kw h = true /\
         (forall h', In h' hs1 -> answers kw h' = false) /\
         (forall kw' h', In kw' kws1 -> In h' headers -> answers kw' h' = false)) /\
    (findColumn headers keywords = None <->
       forall kw h, In kw keywords -> In h headers -> answers kw h = false).
Proof.
  intros headers keywords. induction keywords as [|kw kws [IHs IHn]].
  - split.
    + intros h. split; [discriminate|].
      intros ([|? ?] & kw & kws2 & _ & _ & H & _); discriminate.
    + split; [contradiction | reflexivity].
  - rewrite findColumn_equation. split.
    + intros h. destruct (find (answers kw) headers) as [found|] eqn:Ef.
      * apply find_first in Ef as (hs1 & hs2 & Eh & Hf & Hhs1). split.
        -- intros H. injection H as <-.
           exists [], kw, kws, hs1, hs2. repeat split; try assumption. contradiction.
        -- intros ([|kw0 kws1] & kw' & kws2 & hs1' & hs2' & Ek & Eh' & Ha & Hhs1' & Hpre).
           ++ injection Ek as <- _.
              assert (E : find (answers kw) headers = Some h).
              { apply find_first. exists hs1', hs2'. now repeat split. }
              assert (E' : find (answers kw) headers = Some found).
              { apply find_first. exists hs1, hs2. now repeat split. }
              congruence.
           ++ injection Ek as <- _. exfalso.
              assert (Hin : In found headers) by (rewrite Eh; apply in_elt).
              rewrite (Hpre kw found (or_introl eq_refl) Hin) in Hf. discriminate.
      * rewrite (IHs h). pose proof (proj1 (find_nothing _ _) Ef) as Hno. split.
        -- intros (kws1 & kw' & kws2 & hs1 & hs2 & -> & Eh & Ha & Hhs1 & Hpre).
           exists (kw :: kws1), kw', kws2, hs1, hs2. repeat split; try assumption.
           intros kw0 h' [<-|Hk] Hh; [now apply Hno | now apply Hpre].
        -- intros ([|kw0 kws1] & kw' & kws2 & hs1 & hs2 & Ek & Eh & Ha & Hhs1 & Hpre).
           ++ injection Ek as <- _. rewrite Hno in Ha; [discriminate|].
              rewrite Eh. apply in_elt.
           ++ injection Ek as <- ->. exists kws1, kw', kws2, hs1, hs2.
              repeat split; try assumption.
              intros kw1 h' Hk Hh. apply Hpre; [now right | assumption].
    + destruct (find (answers kw) headers) as [found|] eqn:Ef.
      * split; [discriminate|]. intros H.
        apply find_first in Ef as (hs1 & hs2 & Eh & Hf & _).
        rewrite H in Hf; [discriminate | now left | rewrite Eh; apply in_elt].
      * rewrite IHn. pose proof (proj1 (find_nothing _ _) Ef) as Hno. split.
        -- intros H kw' h [<-|Hk] Hh; [now apply Hno | now apply H].
        -- intros H kw' h Hk Hh. apply H; [now right | assumption].
Qed.

(** ** The TV column *)

Lemma find_indexOf (p : jsstring -> bool) (headers : list jsstring) :
  p [] = false ->
  match find p headers with
  | Some (c :: h) => indexOf headers (c :: h)
  | _ => None
  end = findIndex p headers.
Proof.
  intros Hnil. induction headers as [|x l IH]; [reflexivity|]. simpl.
  destruct (p x) eqn:Ex.
  - destruct x as [|c x]; [congruence|]. cbn [indexOf]. now rewrite str_eqb_refl.
  - destruct (find p l) as [[|c h]|] eqn:Ef.
    + now rewrite <- IH.
    + cbn [indexOf]. assert (Hne : str_eqb x (c :: h) = false).
      { apply str_eqb_neq. intros ->. apply find_some in Ef as [_ Ef]. congruence. }
      now rewrite Hne, IH.
    + now rewrite <- IH.
Qed.

Lemma tvColumnIndex_findIndex (headers : list jsstring) :
  tvColumnIndex headers = findIndex (answers (lit "TV")) headers.
Proof.
  unfold tvColumnIndex. rewrite findColumn_equation.
  rewrite <- (@find_indexOf (answers (lit "TV")) headers eq_refl).
  now destruct (find (answers (lit "TV")) headers) as [[|c h]|].
Qed.

(** X2.  The TV column of the supplementary sheet is the leftmost header
    whose normalized text contains "tv". *)
Theorem tv_column_is_leftmost :
  forall (headers : list jsstring) (i : nat),
    tvColumnIndex headers = Some i <->
    (exists h, nth_error headers i = Some h /\
               includes (normalizeString (VString h)) (lit "tv") = true) /\
    (forall j h, j < i -> nth_error headers j = Some h ->
                 includes (normalizeString (VString h)) (lit "tv") = false).
Proof.
  intros headers i. rewrite tvColumnIndex_findIndex. apply findIndex_first.
Qed.

(** ** The order of [Object.values] *)

Lemma insertIndex_perm (V : Type) (x : N * V) (l : list (N * V)) :
  Permutation (insertIndex x l) (x :: l).
Proof.
  induction l as [|y l IH]; simpl; [reflexivity|].
  destruct (fst x <=? fst y)%N; [reflexivity|].
  rewrite IH. apply perm_swap.
Qed.

Lemma values_perm (V : Type) (o : object V) : Permutation (values o) (map snd o).
Proof.
  unfold values, nameEntries. induction o as [|[k v] o IH]; [reflexivity|].
  cbn [indexEntries filter map fst snd]. destruct (arrayIndex k) as [n|].
  - rewrite insertIndex_perm. cbn [map app snd]. now constructor.
  - cbn [map snd]. rewrite <- Permutation_middle. now constructor.
Qed.

(** ** Failures of the main-roster aggregator *)

Lemma findColumn_None (headers keywords : list jsstring) :
  findColumn headers keywords = None <-> unanswered headers keywords.
Proof.
  unfold unanswered. induction keywords as [|kw kws IH].
  - split; [contradiction | reflexivity].
  - rewrite findColumn_equation.
    destruct (find (answers kw) headers) as [found|] eqn:Ef.
    + split; [discriminate|]. intros H.
      apply find_some in Ef as [Hin Hf]. rewrite H in Hf; [discriminate | now left | assumption].
    + rewrite IH. pose proof (proj1 (find_nothing _ _) Ef) as Hno. split.
      * intros H kw' h [<-|Hk] Hh; [now apply Hno | now apply H].
      * intros H kw' h Hk Hh. apply H; [now right | assumption].
Qed.

Lemma findColumn_nonempty (headers keywords : list jsstring) (h : jsstring) :
  forallb (fun kw => nonEmpty (normalizeString (VString kw))) keywords = true ->
  findColumn headers keywords = Some h -> exists c r, h = c :: r.
Proof.
  intros Hk Hf. pose proof (findColumn_present _ _ Hk Hf) as Hne.
  destruct h as [|c r]; [congruence | eauto].
Qed.

Lemma groupsOf_inherited (topicCol : jsstring) (seen : list (object value)) (t : jsstring) :
  (forall obj, In obj seen -> inheritedTitle topicCol obj = false) ->
  inherited t = true -> getOwn t (groupsOf topicCol seen) = None.
Proof.
  intros Hseen Ht. unfold groupsOf. rewrite getOwn_tabulate.
  destruct (mem t (firstKeys (map (titleOf topicCol) seen))) eqn:E; [|reflexivity].
  apply mem_In, firstKeys_In, in_map_iff in E as (obj & <- & Hobj).
  apply Hseen in Hobj. unfold inheritedTitle in Hobj. congruence.
Qed.

Lemma groupRows_outcome (topicCol : jsstring) (rows seen : list (object value)) :
  (forall obj, In obj seen -> inheritedTitle topicCol obj = false) ->
  groupRows topicCol (groupsOf topicCol seen) rows
  = if existsb (inheritedTitle topicCol) rows then Throw TypeError
    else Ok (groupsOf topicCol (seen ++ rows)).
Proof.
  revert seen; induction rows as [|row rows IH]; intros seen Hseen.
  - simpl. now rewrite app_nil_r.
  - cbn [groupRows existsb]. destruct (inheritedTitle topicCol row) eqn:Er.
    + unfold groupStep. fold (titleOf topicCol row).
      rewrite (@groupsOf_inherited topicCol seen (titleOf topicCol row) Hseen Er).
      unfold inheritedTitle in Er.
      now rewrite Er.
    + rewrite groupStep_groupsOf by exact Er. cbn [bind orb].
      rewrite IH.
      * now rewrite <- app_assoc.
      * intros obj Hobj. apply in_app_or in Hobj as [Hobj|[<-|[]]]; [now apply Hseen | exact Er].
Qed.

Lemma processMainData_outcome (rawData : grid) (headerRow : list value) :
  nth_error rawData (detectHeaderRow rawData mainKeywords) = Some headerRow ->
  let headers := headerTexts headerRow in
  let dataRows := skipn (detectHeaderRow rawData mainKeywords + 1) rawData in
  processMainData rawData
  = match findColumn headers topicKeywords, findColumn headers nameKeywords with
    | Some topicCol, Some nameCol =>
      let kept := keptRows headers topicCol nameCol dataRows in
      if existsb (inheritedTitle topicCol) kept then Throw TypeError
      else Ok (map (aggregateGroup topicCol nameCol (findColumn headers guideKeywords))
                   (values (groupsOf topicCol kept)))
    | _, _ => Throw missingMainColumns
    end.
Proof.
  intros Hrow headers dataRows. unfold processMainData. rewrite Hrow.
  fold headers. fold dataRows. fold topicKeywords. fold nameKeywords. fold guideKeywords.
  destruct (findColumn headers topicKeywords) as [t|] eqn:Et; [|reflexivity].
  destruct (@findColumn_nonempty headers topicKeywords t eq_refl Et) as (c & r & ->).
  destruct (findColumn headers nameKeywords) as [n|] eqn:En; [|reflexivity].
  destruct (@findColumn_nonempty headers nameKeywords n eq_refl En) as (c' & r' & ->).
  fold (keptRows headers (c :: r) (c' :: r') dataRows).
  change (@nil (jsstring * list (object value))) with (groupsOf (c :: r) []).
  rewrite groupRows_outcome by contradiction. cbn [app].
  now destruct (existsb (inheritedTitle (c :: r)) (keptRows headers (c :: r) (c' :: r') dataRows)).
Qed.

Lemma nth_error_header (rawData : grid) (keywords : list jsstring) :
  rawData <> [] ->
  nth_error rawData (detectHeaderRow rawData keywords)
  = Some (nth (detectHeaderRow rawData keywords) rawData []).
Proof.
  intros Hne. apply nth_error_nth'. pose proof (detectHeaderRow_bound keywords Hne). lia.
Qed.

(** X3.  The ways [processMainData] ends.  It throws the missing-columns
    error exactly when the sheet has a row and no header answers to the
    topic keywords or none answers to the name keywords; it throws a
    TypeError exactly when the sheet is empty or, with both columns
    resolved, some row that has a name carries a title that names a member
    of [Object.prototype]; in every other case it returns one record per
    distinct title. *)
Theorem roster_outcomes :
  forall rawData : grid,
    let headerRowIndex := detectHeaderRow rawData mainKeywords in
    let headers := headerTexts (nth headerRowIndex rawData []) in
    let dataRows := skipn (headerRowIndex + 1) rawData in
    let clash :=
      exists topicCol nameCol obj,
        findColumn headers topicKeywords = Some topicCol /\
        findColumn headers nameKeywords = Some nameCol /\
        In obj (keptRows headers topicCol nameCol dataRows) /\
        inherited (titleOf topicCol obj) = true in
    (processMainData rawData = Throw missingMainColumns <->
     rawData <> [] /\
     (unanswered headers topicKeywords \/ unanswered headers nameKeywords)) /\
    (processMainData rawData = Throw TypeError <-> rawData = [] \/ (rawData <> [] /\ clash)) /\
    (rawData <> [] ->
     ~ unanswered headers topicKeywords -> ~ unanswered headers nameKeywords -> ~ clash ->
     exists topicCol nameCol out,
       findColumn headers topicKeywords = Some topicCol /\
       findColumn headers nameKeywords = Some nameCol /\
       processMainData rawData = Ok out /\
       length out
       = length (firstKeys (map (titleOf topicCol)
                                (keptRows headers topicCol nameCol dataRows)))).
Proof.
  intros rawData headerRowIndex headers dataRows clash.
  destruct rawData as [|r0 rest].
  { split; [|split].
    - split; [discriminate | intros [Hne _]; congruence].
    - split; [now left | reflexivity].
    - congruence. }
  set (rawData := r0 :: rest) in *.
  assert (Hne : rawData <> []) by discriminate.
  pose proof (processMainData_outcome rawData (nth_error_header mainKeywords Hne)) as Hout.
  cbv zeta in Hout. fold headerRowIndex in Hout. fold headers in Hout. fold dataRows in Hout.
  pose proof (findColumn_None headers topicKeywords) as Ht.
  pose proof (findColumn_None headers nameKeywords) as Hn.
  destruct (findColumn headers topicKeywords) as [topicCol|] eqn:Et.
  2:{ assert (Hun : unanswered headers topicKeywords) by now apply Ht.
      split; [|split].
      - split; [intros _; split; [assumption | now left] | intros _; exact Hout].
      - rewrite Hout. split; [discriminate|].
        intros [E|[_ (t & n & obj & E & _)]]; [congruence | discriminate].
      - intros _ Hans. contradiction. }
  destruct (findColumn headers nameKeywords) as [nameCol|] eqn:En.
  2:{ assert (Hun : unanswered headers nameKeywords) by now apply Hn.
      split; [|split].
      - split; [intros _; split; [assumption | now right] | intros _; exact Hout].
      - rewrite Hout. split; [discriminate|].
        intros [E|[_ (t & n & obj & _ & E & _)]]; [congruence | discriminate].
      - intros _ _ Hans. contradiction. }
  assert (Htn : ~ unanswered headers topicKeywords) by (intros Hun; apply Ht in Hun; discriminate).
  assert (Hnn : ~ unanswered headers nameKeywords) by (intros Hun; apply Hn in Hun; discriminate).
  destruct (existsb (inheritedTitle topicCol) (keptRows headers topicCol nameCol dataRows))
    eqn:Ex.
  - assert (Hclash : clash).
    { apply existsb_exists in Ex as (obj & Hobj & Hinh).
      exists topicCol, nameCol, obj. now repeat split. }
    split; [|split].
    + rewrite Hout. split; [discriminate | tauto].
    + split; [intros _; right; now split | intros _; exact Hout].
    + intros _ _ _ Hno. contradiction.
  - assert (Hclash : ~ clash).
    { intros (t & n & obj & E1 & E2 & Hobj & Hinh). injection E1 as <-. injection E2 as <-.
      assert (Hex : existsb (inheritedTitle topicCol)
                            (keptRows headers topicCol nameCol dataRows) = true)
        by (apply existsb_exists; exists obj; split; [exact Hobj | exact Hinh]).
      rewrite Ex in Hex. discriminate Hex. }
    split; [|split].
    + rewrite Hout. split; [discriminate | tauto].
    + rewrite Hout. split; [discriminate|]. intros [E|[_ Hc]]; [congruence | contradiction].
    + intros _ _ _ _. exists topicCol, nameCol. eexists.
      split; [reflexivity|]. split; [reflexivity|]. split; [exact Hout|].
      rewrite length_map, (Permutation_length (values_perm _)), length_map.
      unfold groupsOf. now rewrite length_map.
Qed.

(** ** Groups and rows *)

Lemma Ok_inj (A : Type) (a b : A) : Ok a = Ok b -> a = b.
Proof. intros H. now injection H. Qed.

Lemma concat_groups_cons (A : Type) (title : A -> jsstring) (ks : list jsstring)
      (x : A) (l : list A) :
  NoDup ks -> In (title x) ks ->
  Permutation (concat (map (fun t => filter (fun y => str_eqb (title y) t) (x :: l)) ks))
              (x :: concat (map (fun t => filter (fun y => str_eqb (title y) t) l) ks)).
Proof.
  induction ks as [|k ks IHk]; intros Hnd Hx; [contradiction|].
  apply NoDup_cons_iff in Hnd as [Hk Hnd]. cbn [map concat].
  replace (filter (fun y => str_eqb (title y) k) (x :: l))
    with (if str_eqb (title x) k
          then x :: filter (fun y => str_eqb (title y) k) l
          else filter (fun y => str_eqb (title y) k) l) by reflexivity.
  destruct (str_eqb (title x) k) eqn:E.
  - apply str_eqb_eq in E. cbn [app]. constructor. apply Permutation_app_head.
    assert (Hsame : map (fun t => filter (fun y => str_eqb (title y) t) (x :: l)) ks
                    = map (fun t => filter (fun y => str_eqb (title y) t) l) ks).
    { apply map_ext_in. intros t Ht. cbn [filter].
      assert (Hne : str_eqb (title x) t = false)
        by (apply str_eqb_neq; intros E'; subst; contradiction).
      now rewrite Hne. }
    now rewrite Hsame.
  - destruct Hx as [Hx|Hx]; [subst k; now rewrite str_eqb_refl in E|].
    rewrite (IHk Hnd Hx). symmetry. apply Permutation_middle.
Qed.

Lemma concat_groups (A : Type) (title : A -> jsstring) (ks : list jsstring) (l : list A) :
  NoDup ks -> (forall x, In x l -> In (title x) ks) ->
  Permutation (concat (map (fun t => filter (fun x => str_eqb (title x) t) l) ks)) l.
Proof.
  intros Hnd. induction l as [|x l IH]; intros Hin.
  - clear. induction ks as [|k ks IH]; [reflexivity | exact IH].
  - rewrite concat_groups_cons by (assumption || (apply Hin; now left)).
    constructor. apply IH. intros y Hy. apply Hin. now right.
Qed.

Lemma groupsOf_partition (topicCol : jsstring) (kept : list (object value)) :
  Permutation (concat (map snd (groupsOf topicCol kept))) kept.
Proof.
  unfold groupsOf. rewrite map_map. cbn [snd].
  apply concat_groups; [apply firstKeys_NoDup|].
  intros obj Hobj. apply firstKeys_In, in_map_iff. now exists obj.
Qed.

Lemma concat_perm (A : Type) (l l' : list (list A)) :
  Permutation l l' -> Permutation (concat l) (concat l').
Proof.
  induction 1; simpl.
  - reflexivity.
  - now apply Permutation_app_head.
  - rewrite !app_assoc. apply Permutation_app_tail, Permutation_app_comm.
  - etransitivity; eassumption.
Qed.

Lemma processMainData_groups :
  forall (rawData : grid) (out : list (object value)),
    processMainData rawData = Ok out ->
    let headerRowIndex := detectHeaderRow rawData mainKeywords in
    let headers := headerTexts (nth headerRowIndex rawData []) in
    let dataRows := skipn (headerRowIndex + 1) rawData in
    exists topicCol nameCol groups,
      findColumn headers topicKeywords = Some topicCol /\
      findColumn headers nameKeywords = Some nameCol /\
      let kept := keptRows headers topicCol nameCol dataRows in
      out = map (aggregateGroup topicCol nameCol (findColumn headers guideKeywords)) groups /\
      Permutation groups
                  (map (fun t => filter (fun obj => str_eqb (titleOf topicCol obj) t) kept)
                       (firstKeys (map (titleOf topicCol) kept))) /\
      Permutation (concat groups) kept.
Proof.
  intros rawData out Hout headerRowIndex headers dataRows.
  destruct rawData as [|r0 rest]; [discriminate|].
  set (rawData := r0 :: rest) in *.
  assert (Hne : rawData <> []) by discriminate.
  rewrite (processMainData_outcome rawData (nth_error_header mainKeywords Hne)) in Hout.
  cbv zeta in Hout. fold headerRowIndex in Hout. fold headers in Hout. fold dataRows in Hout.
  destruct (findColumn headers topicKeywords) as [topicCol|]; [|discriminate].
  destruct (findColumn headers nameKeywords) as [nameCol|]; [|discriminate].
  destruct (existsb (inheritedTitle topicCol) (keptRows headers topicCol nameCol dataRows));
    [discriminate|].
  apply Ok_inj in Hout. subst out.
  exists topicCol, nameCol, (values (groupsOf topicCol (keptRows headers topicCol nameCol dataRows))).
  split; [reflexivity|]. split; [reflexivity|]. cbv zeta.
  split; [reflexivity|].
  assert (Hv : Permutation (values (groupsOf topicCol (keptRows headers topicCol nameCol dataRows)))
                           (map snd (groupsOf topicCol (keptRows headers topicCol nameCol dataRows))))
    by apply values_perm.
  split.
  - rewrite Hv. unfold groupsOf. rewrite map_map. reflexivity.
  - rewrite (concat_perm Hv). apply groupsOf_partition.
Qed.

(** X4.  The groups of [processMainData] partition the rows that have a
    name: when it returns, its records are the aggregates of groups that
    are, up to the order of the groups, the rows of each distinct title in
    row order, and every kept row lies in exactly one group. *)
Theorem roster_groups_partition :
  forall (rawData : grid) (out : list (object value)),
    processMainData rawData = Ok out ->
    let headerRowIndex := detectHeaderRow rawData mainKeywords in
    let headers := headerTexts (nth headerRowIndex rawData []) in
    let dataRows := skipn (headerRowIndex + 1) rawData in
    exists topicCol nameCol groups,
      findColumn headers topicKeywords = Some topicCol /\
      findColumn headers nameKeywords = Some nameCol /\
      let kept := keptRows headers topicCol nameCol dataRows in
      out = map (aggregateGroup topicCol nameCol (findColumn headers guideKeywords)) groups /\
      Permutation groups
                  (map (fun t => filter (fun obj => str_eqb (titleOf topicCol obj) t) kept)
                       (firstKeys (map (titleOf topicCol) kept))) /\
      Permutation (concat groups) kept.
Proof. exact processMainData_groups. Qed.

Lemma roster_groups_partition_witness :
  exists out,
    processMainData sampleMain = Ok out /\
    exists topicCol nameCol groups,
      findColumn (headerTexts (nth (detectHeaderRow sampleMain mainKeywords) sampleMain []))
                 topicKeywords = Some topicCol /\
      findColumn (headerTexts (nth (detectHeaderRow sampleMain mainKeywords) sampleMain []))
                 nameKeywords = Some nameCol /\
      let kept := keptRows (headerTexts (nth (detectHeaderRow sampleMain mainKeywords) sampleMain []))
                           topicCol nameCol
                           (skipn (detectHeaderRow sampleMain mainKeywords + 1) sampleMain) in
      out = map (aggregateGroup topicCol nameCol
                   (findColumn (headerTexts (nth (detectHeaderRow sampleMain mainKeywords)
                                                 sampleMain [])) guideKeywords)) groups /\
      Permutation groups
                  (map (fun t => filter (fun obj => str_eqb (titleOf topicCol obj) t) kept)
                       (firstKeys (map (titleOf topicCol) kept))) /\
      Permutation (concat groups) kept.
Proof.
  eexists.
  assert (H : processMainData sampleMain = Ok _) by (vm_compute; reflexivity).
  split; [exact H|]. exact (roster_groups_partition sampleMain H).
Defined.

(** ** Sums of counts *)

Lemma factor10 (m : Z) :
  (m <> 0)%Z -> exists (m0 : Z) (k : nat), (m = m0 * 10 ^ Z.of_nat k)%Z /\ (m0 mod 10 <> 0)%Z.
Proof.
  intros Hm. set (fuel := S (Z.to_nat (Z.log2 (Z.abs m)))).
  assert (Hlt : (Z.abs m < 2 ^ Z.of_nat fuel)%Z).
  { unfold fuel. rewrite Nat2Z.inj_succ, Z2Nat.id by apply Z.log2_nonneg.
    apply Z.log2_spec. lia. }
  pose proof (@strip10_canonical fuel m 0 Hm Hlt) as Hc.
  pose proof (@strip10_value fuel m 0 ltac:(lia)) as [He Hv].
  destruct (strip10 fuel m 0) as [m0 e0]. cbn [fst snd] in *.
  exists m0, (Z.to_nat e0). split; [|assumption].
  rewrite Z2Nat.id by assumption. lia.
Qed.

Lemma decimal_shift (a : nat) (m e : Z) :
  decimal (m * 10 ^ Z.of_nat a) e = decimal m (e + Z.of_nat a).
Proof.
  destruct (Z.eq_dec m 0) as [->|Hm]; [reflexivity|].
  destruct (factor10 Hm) as (m0 & k & -> & Hm0).
  rewrite <- Z.mul_assoc, <- Z.pow_add_r, <- Nat2Z.inj_add by lia.
  rewrite !decimal_scaled by assumption. f_equal. lia.
Qed.

Lemma decimal_integer (m e : Z) : (0 <= e)%Z -> decimal m e = ofZ (m * 10 ^ e).
Proof.
  intros He. unfold ofZ. rewrite <- (Z2Nat.id e He) at 2.
  rewrite decimal_shift, Z2Nat.id by assumption. reflexivity.
Qed.

Lemma addNum_ofZ (a b : Z) : addNum (ofZ a) (ofZ b) = ofZ (a + b).
Proof.
  destruct (ofZ_value a) as (m1 & e1 & -> & He1 & <-).
  destruct (ofZ_value b) as (m2 & e2 & -> & He2 & <-).
  unfold addNum. set (e := Z.min e1 e2).
  rewrite decimal_integer by lia. f_equal.
  rewrite Z.mul_add_distr_r, <- !Z.mul_assoc, <- !Z.pow_add_r by lia.
  now replace (e1 - e + e)%Z with e1 by lia; replace (e2 - e + e)%Z with e2 by lia.
Qed.

Lemma addNum_ofNat (a b : nat) : addNum (ofNat a) (ofNat b) = ofNat (a + b).
Proof. unfold ofNat. now rewrite addNum_ofZ, Nat2Z.inj_add. Qed.

Lemma orElse_count (n : nat) :
  orElse (VNumber (ofNat n)) (VNumber (ofZ 0)) = VNumber (ofNat n).
Proof.
  unfold orElse. destruct (truthy (VNumber (ofNat n))) eqn:E; [reflexivity|].
  f_equal. unfold ofNat in *. destruct (ofZ_value (Z.of_nat n)) as (m & e & Hn & He & Hv).
  rewrite Hn in E |- *. cbn [truthy] in E. apply negb_false_iff, Z.eqb_eq in E. subst m.
  rewrite Z.mul_0_l in Hv. rewrite <- Hn, <- Hv. reflexivity.
Qed.

Lemma sumStudents_counts (data : list (object value)) (counts : list nat) (start : nat) :
  map (get (lit "sohocvien")) data = map (fun n => VNumber (ofNat n)) counts ->
  fold_left (fun acc row => plus acc (orElse (get (lit "sohocvien") row) (VNumber (ofZ 0))))
            data (VNumber (ofNat start))
  = VNumber (ofNat (start + list_sum counts)).
Proof.
  revert counts start; induction data as [|row data IH]; intros [|n counts] start H;
    try discriminate.
  - simpl. now rewrite Nat.add_0_r.
  - cbn [map] in H. injection H as Hrow Hrest. cbn [fold_left list_sum].
    rewrite Hrow, orElse_count. cbn [plus numberOf]. rewrite addNum_ofNat.
    rewrite (IH counts (start + n) Hrest).
    change (list_sum (n :: counts)) with (n + list_sum counts). now rewrite Nat.add_assoc.
Qed.

Lemma list_sum_lengths (A : Type) (groups : list (list A)) :
  list_sum (map (@length A) groups) = length (concat groups).
Proof.
  induction groups as [|g groups IH]; [reflexivity|].
  change (list_sum (map (@length A) (g :: groups)))
    with (length g + list_sum (map (@length A) groups)).
  cbn [concat]. now rewrite length_app, IH.
Qed.

Lemma mapi_from_map (A B C : Type) (f : A -> nat -> B) (g : B -> C) (h : A -> C)
      (i : nat) (arr : list A) :
  (forall x j, g (f x j) = h x) -> map g (mapi_from f i arr) = map h arr.
Proof.
  intros H. revert i; induction arr as [|x arr IH]; intros i; [reflexivity|].
  cbn [mapi_from map]. now rewrite H, IH.
Qed.

Lemma length_mapi_from (A B : Type) (f : A -> nat -> B) (i : nat) (arr : list A) :
  length (mapi_from f i arr) = length arr.
Proof. revert i; induction arr as [|x arr IH]; intros i; simpl; [reflexivity | now rewrite IH]. Qed.

(** X5.  After a merge, the dashboard counts what the main sheet holds:
    [totalProjects] is the number of distinct titles among the rows that
    have a name, and [totalStudents] is the number of those rows. *)
Theorem merge_totals :
  forall (mainRawData suppRawData : grid) (data sheet : list (object value)),
    generateMergedExcel mainRawData suppRawData = Ok (data, sheet) ->
    let headerRowIndex := detectHeaderRow mainRawData mainKeywords in
    let headers := headerTexts (nth headerRowIndex mainRawData []) in
    let dataRows := skipn (headerRowIndex + 1) mainRawData in
    exists topicCol nameCol,
      findColumn headers topicKeywords = Some topicCol /\
      findColumn headers nameKeywords = Some nameCol /\
      let kept := keptRows headers topicCol nameCol dataRows in
      App.totalProjects (App.mergeStats data)
      = ofNat (length (firstKeys (map (titleOf topicCol) kept))) /\
      App.totalStudents (App.mergeStats data) = VNumber (ofNat (length kept)).
Proof.
  intros mainRawData suppRawData data sheet Hgen headerRowIndex headers dataRows.
  unfold generateMergedExcel in Hgen. destruct mainRawData as [|r0 main]; [discriminate|].
  destruct (processMainData (r0 :: main)) as [mainProcessed|] eqn:Em; [|discriminate].
  cbn [bind] in Hgen. destruct suppRawData as [|s0 supp]; [discriminate|].
  destruct (mergeMainAndRatios mainProcessed (s0 :: supp)) as [merged|] eqn:Es;
    [|discriminate].
  cbn [bind] in Hgen. apply Ok_inj in Hgen. injection Hgen as <- _.
  apply mergeMainAndRatios_shape in Es as (h & tvCol & ratioCols & ->).
  destruct (@processMainData_groups _ _ Em) as (topicCol & nameCol & groups & Et & En & H).
  cbv zeta in H. destruct H as (-> & Hperm & Hconcat).
  exists topicCol, nameCol. split; [exact Et|]. split; [exact En|]. cbv zeta.
  cbn [App.mergeStats App.totalProjects App.totalStudents]. split.
  - f_equal. unfold mapi. rewrite length_mapi_from, length_map.
    rewrite (Permutation_length Hperm). now rewrite length_map.
  - unfold App.sumStudents. change (ofZ 0) with (ofNat 0) at 2.
    rewrite (@sumStudents_counts _ (map (@length (object value)) groups) 0).
    + rewrite list_sum_lengths, (Permutation_length Hconcat). reflexivity.
    + unfold mapi.
      rewrite (@mapi_from_map _ _ _ _ (get (lit "sohocvien")) (get (lit "Số học viên")) 0).
      * rewrite !map_map. reflexivity.
      * intros mainRow j. unfold get. now rewrite enrichRow_core.
Qed.

Lemma merge_totals_witness :
  exists data sheet,
    generateMergedExcel sampleMain sampleSupp = Ok (data, sheet) /\
    let headerRowIndex := detectHeaderRow sampleMain mainKeywords in
    let headers := headerTexts (nth headerRowIndex sampleMain []) in
    let dataRows := skipn (headerRowIndex + 1) sampleMain in
    exists topicCol nameCol,
      findColumn headers topicKeywords = Some topicCol /\
      findColumn headers nameKeywords = Some nameCol /\
      let kept := keptRows headers topicCol nameCol dataRows in
      App.totalProjects (App.mergeStats data)
      = ofNat (length (firstKeys (map (titleOf topicCol) kept))) /\
      App.totalStudents (App.mergeStats data) = VNumber (ofNat (length kept)).
Proof.
  eexists. eexists.
  assert (Hgen : generateMergedExcel sampleMain sampleSupp = Ok _) by (vm_compute; reflexivity).
  split; [exact Hgen|]. exact (merge_totals sampleMain sampleSupp Hgen).
Defined.

(** ** The statistics of the reports *)

Lemma reportStats_fold (categoryOf : object value -> App.ConclusionCategory)
      (rows : list (object value)) (stats : App.DashboardStats)
      (projects : App.CategorizedProjects) (counts : App.ConclusionCategory -> nat) :
  (forall c, App.counter stats c = ofNat (counts c)) ->
  let final :=
    fold_left (fun acc row =>
                 let category := categoryOf row in
                 (App.increment category (fst acc), App.push category row (snd acc)))
              rows (stats, projects) in
  App.totalProjects (fst final) = App.totalProjects stats /\
  App.totalStudents (fst final) = App.totalStudents stats /\
  (forall c, snd final c
             = projects c ++ filter (fun row => App.sameCategory c (categoryOf row)) rows) /\
  (forall c, App.counter (fst final) c
             = ofNat (counts c
                      + length (filter (fun row => App.sameCategory c (categoryOf row)) rows))).
Proof.
  revert stats projects counts; induction rows as [|row rows IH];
    intros stats projects counts Hc; cbv zeta.
  - cbn [fold_left fst snd filter length]. repeat split; try reflexivity.
    + intros c. now rewrite app_nil_r.
    + intros c. now rewrite Nat.add_0_r.
  - cbn [fold_left fst snd].
    specialize (IH (App.increment (categoryOf row) stats)
                   (App.push (categoryOf row) row projects)
                   (fun c => if App.sameCategory c (categoryOf row)
                             then S (counts c) else counts c)).
    cbv zeta in IH. destruct IH as (H1 & H2 & H3 & H4).
    { intros c. cbn [App.increment App.counter].
      destruct (App.sameCategory c (categoryOf row)); [|apply Hc].
      rewrite Hc. change (ofZ 1) with (ofNat 1). rewrite addNum_ofNat.
      now rewrite Nat.add_1_r. }
    repeat split.
    + exact H1.
    + exact H2.
    + intros c. rewrite H3. unfold App.push. cbn [filter].
      destruct (App.sameCategory c (categoryOf row)); [now rewrite <- app_assoc | reflexivity].
    + intros c. rewrite H4. cbn [filter].
      destruct (App.sameCategory c (categoryOf row)); cbn [length];
        rewrite ?Nat.add_succ_r; reflexivity.
Qed.

Lemma category_lengths (A : Type) (categoryOf : A -> App.ConclusionCategory) (rows : list A) :
  length (filter (fun row => App.sameCategory App.withinLimit (categoryOf row)) rows)
  + length (filter (fun row => App.sameCategory App.l1Edit (categoryOf row)) rows)
  + length (filter (fun row => App.sameCategory App.l2Process (categoryOf row)) rows)
  + length (filter (fun row => App.sameCategory App.l2Exceeded (categoryOf row)) rows)
  = length rows.
Proof.
  induction rows as [|row rows IH]; [reflexivity|].
  simpl in *. destruct (categoryOf row); simpl; lia.
Qed.

(** X6.  The statistics of the reports sort every record into exactly one
    category: each list holds, in order, the records of its category, each
    counter is the length of its list, the four counters add up to
    [totalProjects], and [totalProjects] is the number of records. *)
Theorem report_statistics_partition :
  forall (data : list (object value)) (name : jsstring) (isFirstCheck : bool)
         (projectType : projectType),
    let stats := fst (App.reportStats data name isFirstCheck projectType) in
    let projects := snd (App.reportStats data name isFirstCheck projectType) in
    let category := fun row => App.categoryOf row name isFirstCheck projectType in
    App.totalProjects stats = ofNat (length data) /\
    App.totalStudents stats = App.sumStudents data /\
    (forall c, projects c = filter (fun row => App.sameCategory c (category row)) data) /\
    (forall c, App.counter stats c = ofNat (length (projects c))) /\
    length (projects App.withinLimit) + length (projects App.l1Edit)
    + length (projects App.l2Process) + length (projects App.l2Exceeded) = length data.
Proof.
  intros data name isFirstCheck projectType stats projects category.
  pose proof (@reportStats_fold category data (App.mergeStats data) (fun _ => [])
                                (fun _ => 0) (fun _ => eq_refl)) as H.
  cbv zeta in H. destruct H as (H1 & H2 & H3 & H4).
  assert (Hp : forall c, projects c
                         = filter (fun row => App.sameCategory c (category row)) data)
    by (intros c; apply H3).
  split; [exact H1|]. split; [exact H2|]. split; [exact Hp|]. split.
  - intros c. rewrite Hp. apply H4.
  - rewrite !Hp. apply category_lengths.
Qed.

Lemma first_check_category (tv : number) (p : projectType) :
  App.getConclusionCategory tv p true = App.withinLimit \/
  App.getConclusionCategory tv p true = App.l1Edit.
Proof.
  unfold App.getConclusionCategory.
  destruct p;
    repeat match goal with
           | |- context [if ?b then _ else _] => destruct b
           end; auto.
Qed.

Lemma later_check_category (tv : number) (p : projectType) :
  App.getConclusionCategory tv p false <> App.l1Edit.
Proof.
  unfold App.getConclusionCategory.
  destruct p;
    repeat match goal with
           | |- context [if ?b then _ else _] => destruct b
           end; discriminate.
Qed.

Lemma filter_none (A : Type) (f : A -> bool) (l : list A) :
  (forall x, In x l -> f x = false) -> filter f l = [].
Proof.
  induction l as [|x l IH]; intros H; [reflexivity|]. simpl.
  rewrite (H x (or_introl eq_refl)). apply IH. intros y Hy. apply H. now right.
Qed.

(** X7.  On a first check no record is counted under the two second-check
    categories, and on a later check none is counted under "needs editing
    (L1)", whatever its [tv]. *)
Theorem check_round_categories :
  forall (data : list (object value)) (name : jsstring) (projectType : projectType),
    let first := App.reportStats data name true projectType in
    let later := App.reportStats data name false projectType in
    snd first App.l2Process = [] /\ snd first App.l2Exceeded = [] /\
    App.counter (fst first) App.l2Process = ofZ 0 /\
    App.counter (fst first) App.l2Exceeded = ofZ 0 /\
    snd later App.l1Edit = [] /\ App.counter (fst later) App.l1Edit = ofZ 0.
Proof.
  intros data name projectType first later.
  pose proof (@reportStats_fold (fun row => App.categoryOf row name true projectType)
                data (App.mergeStats data) (fun _ => []) (fun _ => 0) (fun _ => eq_refl)) as H.
  pose proof (@reportStats_fold (fun row => App.categoryOf row name false projectType)
                data (App.mergeStats data) (fun _ => []) (fun _ => 0) (fun _ => eq_refl)) as H'.
  cbv zeta in H, H'. destruct H as (_ & _ & H3 & H4). destruct H' as (_ & _ & H3' & H4').
  assert (F1 : filter (fun row => App.sameCategory App.l2Process
                                    (App.categoryOf row name true projectType)) data = []).
  { apply filter_none. intros row _. unfold App.categoryOf.
    destruct (first_check_category (tvOrZero row) (App.effectiveProjectType name projectType))
      as [-> | ->]; reflexivity. }
  assert (F2 : filter (fun row => App.sameCategory App.l2Exceeded
                                    (App.categoryOf row name true projectType)) data = []).
  { apply filter_none. intros row _. unfold App.categoryOf.
    destruct (first_check_category (tvOrZero row) (App.effectiveProjectType name projectType))
      as [-> | ->]; reflexivity. }
  assert (F3 : filter (fun row => App.sameCategory App.l1Edit
                                    (App.categoryOf row name false projectType)) data = []).
  { apply filter_none. intros row _. unfold App.categoryOf.
    pose proof (later_check_category (tvOrZero row)
                  (App.effectiveProjectType name projectType)) as Hl.
    destruct (App.getConclusionCategory (tvOrZero row)
                (App.effectiveProjectType name projectType) false); try reflexivity.
    congruence. }
  pose proof (H3 App.l2Process) as G1. pose proof (H3 App.l2Exceeded) as G2.
  pose proof (H4 App.l2Process) as G3. pose proof (H4 App.l2Exceeded) as G4.
  pose proof (H3' App.l1Edit) as G5. pose proof (H4' App.l1Edit) as G6.
  rewrite F1 in G1, G3. rewrite F2 in G2, G4. rewrite F3 in G5, G6.
  split; [exact G1|]. split; [exact G2|]. split; [exact G3|]. split; [exact G4|].
  split; [exact G5 | exact G6].
Qed.

(** ** Conclusions of every record *)

Lemma tvOrZero_number (row : object value) :
  (exists m e, tvOrZero row = Finite m e) \/ (exists neg, tvOrZero row = Infinity neg).
Proof.
  unfold tvOrZero. destruct (tvOf row) as [[|neg|m e]|].
  - left. now exists 0%Z, 0%Z.
  - right. now exists neg.
  - cbn [truthy]. destruct (negb (m =? 0)%Z); left; [now exists m, e | now exists 0%Z, 0%Z].
  - left. now exists 0%Z, 0%Z.
Qed.

Lemma one_box_agrees (tv : number) (p : projectType) (fc : bool) :
  tv <> NaN ->
  checkedCount (getConclusionData tv p fc) = 1 /\
  boxOf (App.getConclusionCategory tv p fc) (getConclusionData tv p fc) = CHECKED_BOX.
Proof.
  intros Htv. destruct tv as [|neg|m e]; [congruence| |].
  - destruct neg, p, fc; split; reflexivity.
  - band_cases m e. unfold getConclusionData, App.getConclusionCategory.
    destruct p.
    + destruct Hband as [[H1 H2]|[(H1 & H2 & H3 & H4)|(H1 & H2 & H3 & H4)]];
        rewrite ?H2, ?H3, ?H4; destruct fc; split; reflexivity.
    + destruct Hband0 as [[H1 H2]|[(H1 & H2 & H3 & H4)|(H1 & H2 & H3 & H4)]];
        rewrite ?H2, ?H3, ?H4; destruct fc; split; reflexivity.
Qed.

(** X8.  For every record, whatever its [tv] (absent, zero, NaN, finite or
    infinite), the report checks exactly one box, and it is the box of the
    category the statistics count the record under.  The two functions
    differ only at NaN, where the presentation checks no box and the
    classifier answers as for a value above the upper threshold; the
    callers never pass NaN, since [row.tv || 0] turns it into 0. *)
Theorem every_record_one_box :
  (forall (row : object value) (name : jsstring) (isFirstCheck : bool)
          (projectType : projectType),
     tvOrZero row <> NaN /\
     checkedCount (conclusionDataOf row name isFirstCheck projectType) = 1 /\
     boxOf (App.categoryOf row name isFirstCheck projectType)
           (conclusionDataOf row name isFirstCheck projectType) = CHECKED_BOX) /\
  (forall (tv : number) (projectType : projectType) (isFirstCheck : bool),
     tv <> NaN ->
     checkedCount (getConclusionData tv projectType isFirstCheck) = 1 /\
     boxOf (App.getConclusionCategory tv projectType isFirstCheck)
           (getConclusionData tv projectType isFirstCheck) = CHECKED_BOX) /\
  (forall (projectType : projectType) (isFirstCheck : bool),
     checkedCount (getConclusionData NaN projectType isFirstCheck) = 0 /\
     App.getConclusionCategory NaN projectType isFirstCheck
     = if isFirstCheck then App.l1Edit else App.l2Exceeded).
Proof.
  split; [|split].
  - intros row name fc p.
    assert (Hn : tvOrZero row <> NaN).
    { destruct (tvOrZero_number row) as [(m & e & ->)|(neg & ->)]; discriminate. }
    split; [exact Hn|]. unfold conclusionDataOf, App.categoryOf.
    change (App.effectiveProjectType name p) with (effectiveProjectType name p).
    now apply one_box_agrees.
  - intros tv p fc Htv. now apply one_box_agrees.
  - intros p fc. destruct p, fc; split; reflexivity.
Qed.

(** ** The layout of a merged record *)

Lemma setOwn_new (V : Type) (k : jsstring) (v : V) (o : object V) :
  getOwn k o = None -> setOwn k v o = o ++ [(k, v)].
Proof.
  induction o as [|[k' v'] o IH]; simpl; [reflexivity|].
  destruct (str_eqb k' k); [discriminate|]. intros H. now rewrite IH.
Qed.

Lemma getOwn_app (V : Type) (k : jsstring) (o1 o2 : object V) :
  getOwn k (o1 ++ o2)
  = match getOwn k o1 with Some v => Some v | None => getOwn k o2 end.
Proof.
  induction o1 as [|[k' v'] o1 IH]; simpl; [reflexivity|].
  now destruct (str_eqb k' k).
Qed.

Lemma chapterFieldsFrom_bounds (col start : nat) (rows : grid) (j : nat) (n : number) :
  In (j, n) (chapterFieldsFrom col start rows) -> start < j <= start + length rows.
Proof.
  revert start; induction rows as [|row rows IH]; intros start H; [contradiction|].
  cbn [chapterFieldsFrom] in H. apply in_app_or in H as [H|H].
  - destruct (chapterNumber (JS.index row col)); [|contradiction].
    destruct H as [H|[]]. injection H as <- _. simpl. lia.
  - apply IH in H. simpl. lia.
Qed.

Lemma assignChaptersFrom_layout (col start : nat) (rows : grid) (o : object value) :
  (forall j, start < j -> getOwn (chapterKey j) o = None) ->
  assignChaptersFrom col start rows o
  = o ++ map (fun jn => (chapterKey (fst jn), VNumber (snd jn)))
             (chapterFieldsFrom col start rows).
Proof.
  revert start o; induction rows as [|row rows IH]; intros start o Ho.
  - simpl. now rewrite app_nil_r.
  - cbn [assignChaptersFrom chapterFieldsFrom]. rewrite assignChapter_spec.
    destruct (chapterNumber (JS.index row col)) as [n|].
    + rewrite setOwn_new by (apply Ho; lia). rewrite IH.
      * rewrite <- app_assoc. reflexivity.
      * intros j Hj. rewrite getOwn_app, Ho by lia. cbn [getOwn].
        now rewrite chapterKey_neq by lia.
    + rewrite IH; [reflexivity|]. intros j Hj. apply Ho. lia.
Qed.

Lemma enrichRow_layout (dataRows : grid) (tvCol : option nat) (ratioCols : list column)
      (mainRow : object value) (i : nat) :
  enrichRow dataRows tvCol ratioCols mainRow i
  = mergedLayout dataRows tvCol ratioCols mainRow i.
Proof.
  unfold enrichRow, mergedLayout, tvFieldOf, chaptersOf. rewrite assignTV_spec.
  set (base := [ (lit "hotenhv", get (lit "Họ tên HV") mainRow);
                 (lit "tendetai", get (lit "Tên đề tài") mainRow);
                 (lit "sohocvien", get (lit "Số học viên") mainRow);
                 (lit "nguoihuongdan", get (lit "Người hướng dẫn") mainRow) ]).
  set (withTV := match nth_error dataRows i, tvCol with
                 | Some row, Some c =>
                   match parsedNumber (JS.index row c) with
                   | Some n => setOwn (lit "tv") (VNumber n) base
                   | None => base
                   end
                 | _, _ => base
                 end).
  assert (Etv : withTV = base ++ match tvCol, nth_error dataRows i with
                                 | Some c, Some row =>
                                   match parsedNumber (JS.index row c) with
                                   | Some n => [(lit "tv", VNumber n)]
                                   | None => []
                                   end
                                 | _, _ => []
                                 end).
  { unfold withTV. destruct (nth_error dataRows i) as [row|], tvCol as [c|];
      try (now rewrite app_nil_r).
    destruct (parsedNumber (JS.index row c)); [reflexivity | now rewrite app_nil_r]. }
  assert (Hnone : forall j, getOwn (chapterKey j) withTV = None).
  { intros j. rewrite Etv, getOwn_app.
    assert (Hb : getOwn (chapterKey j) base = None) by reflexivity.
    rewrite Hb. destruct tvCol as [c|], (nth_error dataRows i) as [row|]; try reflexivity.
    destruct (parsedNumber (JS.index row c)); reflexivity. }
  assert (Etv' : base ++ match match tvCol, nth_error dataRows i with
                               | Some c, Some row => parsedNumber (JS.index row c)
                               | _, _ => None
                               end with
                         | Some n => [(lit "tv", VNumber n)]
                         | None => []
                         end = withTV).
  { rewrite Etv. destruct tvCol as [c|], (nth_error dataRows i) as [row|]; try reflexivity. }
  destruct (nth_error ratioCols i) as [col|].
  - rewrite assignChaptersFrom_layout by (intros j _; apply Hnone).
    rewrite <- Etv', <- app_assoc. reflexivity.
  - rewrite <- Etv'. cbn [map]. now rewrite app_nil_r.
Qed.

Lemma mapi_from_ext (A B : Type) (f g : A -> nat -> B) (i : nat) (arr : list A) :
  (forall x j, f x j = g x j) -> mapi_from f i arr = mapi_from g i arr.
Proof.
  intros H. revert i; induction arr as [|x arr IH]; intros i; [reflexivity|].
  cbn [mapi_from]. now rewrite H, IH.
Qed.

Lemma mergeMainAndRatios_layout (dfMain : list (object value)) (dfSupp : grid)
      (out : list (object value)) :
  mergeMainAndRatios dfMain dfSupp = Ok out ->
  let headerRowIndex := detectHeaderRow dfSupp suppKeywords in
  let headers := headerTexts (nth headerRowIndex dfSupp []) in
  let dataRows := skipn (headerRowIndex + 1) dfSupp in
  out = mapi (mergedLayout dataRows (tvColumnIndex headers) (projectRatioColumns headers))
             dfMain.
Proof.
  unfold mergeMainAndRatios. intros H.
  destruct (nth_error dfSupp (detectHeaderRow dfSupp suppKeywords)) as [headerRow|] eqn:Eh;
    [|discriminate].
  rewrite (nth_error_nth _ _ [] Eh). cbv zeta.
  assert (Hout : out = mapi (enrichRow (skipn (detectHeaderRow dfSupp suppKeywords + 1) dfSupp)
                                       (tvColumnIndex (headerTexts headerRow))
                                       (projectRatioColumns (headerTexts headerRow))) dfMain).
  { destruct (projectRatioColumns (headerTexts headerRow)) as [|c cs];
      destruct (tvColumnIndex (headerTexts headerRow)) as [t|];
      try discriminate; now apply Ok_inj in H. }
  rewrite Hout. unfold mapi. apply mapi_from_ext. intros mainRow j. apply enrichRow_layout.
Qed.

(** ** Keys that are chapter numbers *)

Lemma parseIntAuto_digits (ds : jsstring) :
  ds <> [] -> forallb isDigit ds = true -> parseIntAuto ds = ofZ (digitsValue ds).
Proof.
  intros Hne Hds. rewrite <- (parseInt_digits Hne Hds).
  destruct ds as [|c ds]; [congruence|].
  pose proof Hds as Hds'. cbn [forallb] in Hds'. apply andb_true_iff in Hds' as [Hc Hrest].
  unfold parseIntAuto. cbn [trimStart]. rewrite (isDigit_not_space _ Hc).
  rewrite (readSign_digit c ds Hc).
  assert (Hr : (48 <= c <= 57)%N) by (unfold isDigit in Hc; ncases).
  destruct c as [|p]; [lia|].
  do 6 (destruct p as [p|p|]; try lia; try reflexivity).
  destruct ds as [|x r]; [reflexivity|].
  cbn [forallb] in Hrest. apply andb_true_iff in Hrest as [Hx _].
  assert (Hx' : ((x =? 120) || (x =? 88))%N = false) by (unfold isDigit in Hx; ncases).
  now rewrite Hx'.
Qed.

Lemma parseIntAuto_chapterKey (j : nat) : parseIntAuto (skipn 1 (chapterKey j)) = ofNat j.
Proof.
  unfold chapterKey. cbn [skipn].
  rewrite parseIntAuto_digits by (apply digitsOfNat_nonempty || apply digitsOfNat_digits).
  unfold digitsOfNat. rewrite digitsOfN_value, nat_N_Z. reflexivity.
Qed.

Lemma gtNum_ofNat (a b : nat) :
  gtNum (subNum (ofNat a) (ofNat b)) (Finite 0 0) = true <-> b < a.
Proof. unfold ofNat. rewrite gtNum_sub_ofZ. lia. Qed.

Lemma ofNat_positive (j : nat) : 0 < j -> gtNum (ofNat j) (ofZ 0) = true.
Proof.
  intros Hj. unfold ofNat. destruct (ofZ_value (Z.of_nat j)) as (m & e & -> & He & Hv).
  change (ofZ 0) with (Finite 0 0). apply gtNum_zero; [assumption | lia].
Qed.

Lemma ofNat_number (j : nat) : isNaN (ofNat j) = false.
Proof. unfold ofNat. now destruct (ofZ_value (Z.of_nat j)) as (m & e & -> & _). Qed.

(** ** Sorting what is already in order *)

Lemma sortWith_ascending (A : Type) (cmp : A -> A -> number) (l : list A) :
  Sorted (fun a b => gtNum (cmp a b) (Finite 0 0) = false) l -> sortWith cmp l = l.
Proof.
  induction 1 as [|x l Hs IH Hhd]; [reflexivity|].
  cbn [sortWith fold_right]. fold (sortWith cmp l). rewrite IH.
  destruct Hhd as [|y l' Hxy]; [reflexivity|]. cbn [insertWith]. now rewrite Hxy.
Qed.

Lemma Sorted_map (A B : Type) (f : A -> B) (R : B -> B -> Prop) (l : list A) :
  Sorted (fun a b => R (f a) (f b)) l -> Sorted R (map f l).
Proof.
  induction 1 as [|x l Hs IH Hhd]; [constructor|].
  cbn [map]. constructor; [assumption|]. destruct Hhd; constructor. assumption.
Qed.

Lemma chapterFieldsFrom_sorted (col start : nat) (rows : grid) :
  StronglySorted (fun a b => fst a < fst b) (chapterFieldsFrom col start rows).
Proof.
  revert start; induction rows as [|row rows IH]; intros start; [constructor|].
  cbn [chapterFieldsFrom]. destruct (chapterNumber (JS.index row col)) as [n|]; [|apply IH].
  cbn [app]. constructor; [apply IH|].
  apply Forall_forall. intros [j n'] Hj. apply chapterFieldsFrom_bounds in Hj. simpl. lia.
Qed.

Lemma chaptersOf_sorted (dataRows : grid) (ratioColumns : list column) (i : nat) :
  StronglySorted (fun a b => fst a < fst b) (chaptersOf dataRows ratioColumns i).
Proof.
  unfold chaptersOf. destruct (nth_error ratioColumns i); [|constructor].
  apply chapterFieldsFrom_sorted.
Qed.

Lemma chapterFieldsFrom_In (col start : nat) (rows : grid) (j : nat) (n : number) :
  In (j, n) (chapterFieldsFrom col start rows) <->
  exists row, start < j /\ nth_error rows (j - start - 1) = Some row /\
              chapterNumber (JS.index row col) = Some n.
Proof.
  revert start; induction rows as [|row rows IH]; intros start.
  - split; [contradiction|]. intros (r & _ & H & _). destruct (j - start - 1); discriminate.
  - cbn [chapterFieldsFrom]. rewrite in_app_iff, IH. split.
    + intros [H|(r & Hj & Hr & Hn)].
      * destruct (chapterNumber (JS.index row col)) as [n0|] eqn:E; [|contradiction].
        destruct H as [H|[]]. injection H as <- <-. exists row.
        split; [lia|]. split; [|assumption]. now replace (start + 1 - start - 1) with 0 by lia.
      * exists r. split; [lia|]. split; [|assumption].
        replace (j - start - 1) with (S (j - S start - 1)) by lia. exact Hr.
    + intros (r & Hj & Hr & Hn). destruct (Nat.eq_dec j (start + 1)) as [->|Hne].
      * left. replace (start + 1 - start - 1) with 0 in Hr by lia. injection Hr as ->.
        rewrite Hn. now left.
      * right. exists r. split; [lia|]. split; [|assumption].
        replace (j - start - 1) with (S (j - S start - 1)) in Hr by lia. exact Hr.
Qed.

Lemma chaptersOf_In (dataRows : grid) (ratioColumns : list column) (i j : nat) (n : number) :
  In (j, n) (chaptersOf dataRows ratioColumns i) <->
  exists col row, nth_error ratioColumns i = Some col /\ 0 < j /\
                  nth_error dataRows (j - 1) = Some row /\
                  chapterNumber (JS.index row (index col)) = Some n.
Proof.
  unfold chaptersOf. destruct (nth_error ratioColumns i) as [col|].
  - rewrite chapterFieldsFrom_In. split.
    + intros (row & Hj & Hr & Hn). exists col, row.
      replace (j - 0 - 1) with (j - 1) in Hr by lia. now repeat split.
    + intros (col' & row & E & Hj & Hr & Hn). injection E as <-. exists row.
      replace (j - 0 - 1) with (j - 1) by lia. now repeat split.
  - split; [contradiction|]. intros (col & row & E & _). discriminate.
Qed.

(** ** The keys of a merged record *)

Lemma fields_getOwn (fields : list (nat * number)) (j : nat) (n : number) :
  StronglySorted (fun a b => fst a < fst b) fields -> In (j, n) fields ->
  getOwn (chapterKey j) (map (fun jn => (chapterKey (fst jn), VNumber (snd jn))) fields)
  = Some (VNumber n).
Proof.
  induction fields as [|[j0 n0] fields IH]; intros Hs Hin; [contradiction|].
  apply StronglySorted_inv in Hs as [Hs Hall]. cbn [map getOwn fst snd].
  destruct Hin as [E|Hin].
  - injection E as -> ->. now rewrite str_eqb_refl.
  - rewrite Forall_forall in Hall. specialize (Hall _ Hin). simpl in Hall.
    rewrite chapterKey_neq by lia. now apply IH.
Qed.

Lemma mergedLayout_chapter (dataRows : grid) (tvCol : option nat) (ratioCols : list column)
      (mainRow : object value) (i j : nat) (n : number) :
  In (j, n) (chaptersOf dataRows ratioCols i) ->
  get (chapterKey j) (mergedLayout dataRows tvCol ratioCols mainRow i) = VNumber n.
Proof.
  intros Hin. unfold get, mergedLayout. rewrite !getOwn_app.
  assert (Hb : getOwn (chapterKey j)
                 [ (lit "hotenhv", get (lit "Họ tên HV") mainRow);
                   (lit "tendetai", get (lit "Tên đề tài") mainRow);
                   (lit "sohocvien", get (lit "Số học viên") mainRow);
                   (lit "nguoihuongdan", get (lit "Người hướng dẫn") mainRow) ] = None)
    by reflexivity.
  rewrite Hb.
  pose proof (@fields_getOwn _ j n (chaptersOf_sorted dataRows ratioCols i) Hin) as Hf.
  destruct (tvFieldOf dataRows tvCol i) as [t|].
  - change (getOwn (chapterKey j) [(lit "tv", VNumber t)]) with (@None value).
    now rewrite Hf.
  - cbn [getOwn]. now rewrite Hf.
Qed.

Lemma mergedLayout_keys (dataRows : grid) (tvCol : option nat) (ratioCols : list column)
      (mainRow : object value) (i : nat) :
  keys (mergedLayout dataRows tvCol ratioCols mainRow i)
  = [lit "hotenhv"; lit "tendetai"; lit "sohocvien"; lit "nguoihuongdan"]
    ++ match tvFieldOf dataRows tvCol i with Some _ => [lit "tv"] | None => [] end
    ++ map (fun jn => chapterKey (fst jn)) (chaptersOf dataRows ratioCols i).
Proof.
  rewrite keys_names.
  - unfold mergedLayout. rewrite !map_app, map_map. cbn [map fst].
    now destruct (tvFieldOf dataRows tvCol i).
  - intros k Hk. unfold mergedLayout in Hk. rewrite !map_app, map_map in Hk.
    apply in_app_or in Hk as [Hk|Hk].
    { cbn [map fst In] in Hk. destruct Hk as [<-|[<-|[<-|[<-|[]]]]]; reflexivity. }
    apply in_app_or in Hk as [Hk|Hk].
    { destruct (tvFieldOf dataRows tvCol i); [|contradiction].
      destruct Hk as [<-|[]]. reflexivity. }
    apply in_map_iff in Hk as (jn & <- & _). apply chapterKey_not_index.
Qed.

(** ** The row of the merged sheet *)

Lemma chapterKeys_layout (dataRows : grid) (tvCol : option nat) (ratioCols : list column)
      (mainRow : object value) (i : nat) :
  chapterKeys (mergedLayout dataRows tvCol ratioCols mainRow i)
  = map (fun jn => chapterKey (fst jn)) (chaptersOf dataRows ratioCols i).
Proof.
  unfold chapterKeys. rewrite mergedLayout_keys, !filter_app.
  assert (E1 : filter (fun k => startsWith k (lit "c"))
                      [lit "hotenhv"; lit "tendetai"; lit "sohocvien"; lit "nguoihuongdan"] = [])
    by reflexivity.
  assert (E2 : filter (fun k => startsWith k (lit "c"))
                      match tvFieldOf dataRows tvCol i with
                      | Some _ => [lit "tv"]
                      | None => []
                      end = [])
    by now destruct (tvFieldOf dataRows tvCol i).
  rewrite E1, E2. cbn [app].
  rewrite filter_all
    by (intros k Hk; apply in_map_iff in Hk as (jn & <- & _);
        apply startsWith_spec; now exists (digitsOfNat (fst jn))).
  apply sortWith_ascending, Sorted_map.
  pose proof (chaptersOf_sorted dataRows ratioCols i) as Hs.
  induction Hs as [|jn l Hs IH Hall]; constructor; [assumption|].
  destruct l as [|jn' l]; constructor.
  rewrite !parseIntAuto_chapterKey. apply not_true_is_false. intros H.
  apply gtNum_ofNat in H. apply Forall_inv in Hall. lia.
Qed.

Lemma upperKey_neq (j j' : nat) : j <> j' -> str_eqb (upperKey j) (upperKey j') = false.
Proof. intros H. apply str_eqb_neq. intros E. now apply upperKey_inj in E. Qed.

Lemma sheetFold_fields (rec : object value) (fields : list (nat * number))
      (base : object value) :
  StronglySorted (fun a b => fst a < fst b) fields ->
  (forall jn, In jn fields -> get (chapterKey (fst jn)) rec = VNumber (snd jn)) ->
  (forall jn, In jn fields -> getOwn (upperKey (fst jn)) base = None) ->
  fold_left (fun newRow key => setOwn (toUpperCase key) (get key rec) newRow)
            (map (fun jn => chapterKey (fst jn)) fields) base
  = base ++ map (fun jn => (upperKey (fst jn), VNumber (snd jn))) fields.
Proof.
  revert base; induction fields as [|[j n] fields IH]; intros base Hs Hget Hnew.
  - simpl. now rewrite app_nil_r.
  - apply StronglySorted_inv in Hs as [Hs Hall]. cbn [map fold_left fst snd].
    pose proof (Hget (j, n) (or_introl eq_refl)) as Hj. cbn [fst snd] in Hj.
    rewrite toUpperCase_chapterKey, Hj.
    rewrite setOwn_new by (apply (Hnew (j, n)); now left).
    rewrite IH; [now rewrite <- app_assoc | assumption | |].
    + intros jn Hjn. apply Hget. now right.
    + intros jn Hjn. rewrite getOwn_app, (Hnew jn (or_intror Hjn)). cbn [getOwn].
      rewrite Forall_forall in Hall. specialize (Hall jn Hjn). cbn [fst] in Hall.
      rewrite upperKey_neq by lia. reflexivity.
Qed.

Lemma sheetRow_layout (dataRows : grid) (tvCol : option nat) (ratioCols : list column)
      (mainRow : object value) (i : nat) :
  let rec := mergedLayout dataRows tvCol ratioCols mainRow i in
  sheetRow rec
  = [ (lit "Tên đề tài", get (lit "tendetai") rec);
      (lit "Người hướng dẫn", get (lit "nguoihuongdan") rec);
      (lit "Số học viên", get (lit "sohocvien") rec);
      (lit "Họ tên HV", get (lit "hotenhv") rec);
      (lit "TV", get (lit "tv") rec) ]
    ++ map (fun jn => (upperKey (fst jn), VNumber (snd jn))) (chaptersOf dataRows ratioCols i).
Proof.
  intros rec. unfold sheetRow.
  change (chapterKeys rec) with (chapterKeys (mergedLayout dataRows tvCol ratioCols mainRow i)).
  rewrite chapterKeys_layout. apply sheetFold_fields.
  - apply chaptersOf_sorted.
  - intros [j n] Hjn. now apply mergedLayout_chapter.
  - intros jn _. reflexivity.
Qed.

Lemma nth_error_mapi_from (A B : Type) (f : A -> nat -> B) (start : nat) (arr : list A)
      (i : nat) (y : B) :
  nth_error (mapi_from f start arr) i = Some y ->
  exists x, nth_error arr i = Some x /\ y = f x (start + i).
Proof.
  revert start i; induction arr as [|x arr IH]; intros start i H; [destruct i; discriminate|].
  destruct i as [|i]; cbn [mapi_from nth_error] in H.
  - injection H as <-. exists x. now rewrite Nat.add_0_r.
  - destruct (IH (S start) i H) as (x' & Hx & ->). exists x'. split; [exact Hx|].
    f_equal. lia.
Qed.

(** X9.  The row [generateMergedExcel] writes for a merged record holds
    the five fixed columns followed by one column [C<j>] for each data row
    [j] of the supplementary sheet whose cell in the record's ratio column
    is a number, in ascending order of [j] (so [C10] comes after [C9]). *)
Theorem sheet_row_layout :
  forall (dfMain : list (object value)) (dfSupp : grid) (out : list (object value))
         (i : nat) (rec : object value),
    mergeMainAndRatios dfMain dfSupp = Ok out ->
    nth_error out i = Some rec ->
    let headerRowIndex := detectHeaderRow dfSupp suppKeywords in
    let headers := headerTexts (nth headerRowIndex dfSupp []) in
    let dataRows := skipn (headerRowIndex + 1) dfSupp in
    let ratioColumns := projectRatioColumns headers in
    let chapters := chaptersOf dataRows ratioColumns i in
    sheetRow rec
    = [ (lit "Tên đề tài", get (lit "tendetai") rec);
        (lit "Người hướng dẫn", get (lit "nguoihuongdan") rec);
        (lit "Số học viên", get (lit "sohocvien") rec);
        (lit "Họ tên HV", get (lit "hotenhv") rec);
        (lit "TV", get (lit "tv") rec) ]
      ++ map (fun jn => (upperKey (fst jn), VNumber (snd jn))) chapters /\
    keys (sheetRow rec) = sheetFields ++ map (fun jn => upperKey (fst jn)) chapters /\
    StronglySorted (fun a b => fst a < fst b) chapters /\
    (forall j n, In (j, n) chapters <->
       exists col row, nth_error ratioColumns i = Some col /\ 0 < j /\
                       nth_error dataRows (j - 1) = Some row /\
                       chapterNumber (JS.index row (index col)) = Some n).
Proof.
  intros dfMain dfSupp out i rec Hm Hrec headerRowIndex headers dataRows ratioColumns chapters.
  pose proof (mergeMainAndRatios_layout _ _ Hm) as Hout. cbv zeta in Hout.
  fold headerRowIndex in Hout. fold headers in Hout. fold dataRows in Hout.
  fold ratioColumns in Hout. rewrite Hout in Hrec.
  unfold mapi in Hrec. apply nth_error_mapi_from in Hrec as (mainRow & _ & Hi).
  cbn [Nat.add] in Hi.
  subst rec.
  pose proof (sheetRow_layout dataRows (tvColumnIndex headers) ratioColumns mainRow i) as Hs.
  cbv zeta in Hs. split; [exact Hs|]. split.
  - rewrite Hs, keys_names.
    + rewrite map_app, map_map. reflexivity.
    + intros k Hk. rewrite map_app, map_map in Hk. apply in_app_or in Hk as [Hk|Hk].
      * cbn [map fst In] in Hk. destruct Hk as [<-|[<-|[<-|[<-|[<-|[]]]]]]; reflexivity.
      * apply in_map_iff in Hk as (jn & <- & _). apply upperKey_not_index.
  - split; [apply chaptersOf_sorted|]. intros j n. apply chaptersOf_In.
Qed.

Lemma sheet_row_layout_witness :
  exists out rec,
    mergeMainAndRatios sampleTopics sampleSupp = Ok out /\
    nth_error out 1 = Some rec /\
    let headerRowIndex := detectHeaderRow sampleSupp suppKeywords in
    let headers := headerTexts (nth headerRowIndex sampleSupp []) in
    let dataRows := skipn (headerRowIndex + 1) sampleSupp in
    let ratioColumns := projectRatioColumns headers in
    let chapters := chaptersOf dataRows ratioColumns 1 in
    sheetRow rec
    = [ (lit "Tên đề tài", get (lit "tendetai") rec);
        (lit "Người hướng dẫn", get (lit "nguoihuongdan") rec);
        (lit "Số học viên", get (lit "sohocvien") rec);
        (lit "Họ tên HV", get (lit "hotenhv") rec);
        (lit "TV", get (lit "tv") rec) ]
      ++ map (fun jn => (upperKey (fst jn), VNumber (snd jn))) chapters /\
    keys (sheetRow rec) = sheetFields ++ map (fun jn => upperKey (fst jn)) chapters /\
    StronglySorted (fun a b => fst a < fst b) chapters /\
    (forall j n, In (j, n) chapters <->
       exists col row, nth_error ratioColumns 1 = Some col /\ 0 < j /\
                       nth_error dataRows (j - 1) = Some row /\
                       chapterNumber (JS.index row (index col)) = Some n).
Proof.
  eexists. eexists.
  assert (Hm : mergeMainAndRatios sampleTopics sampleSupp = Ok _) by (vm_compute; reflexivity).
  assert (Hrec : nth_error (mapi (enrichRow (skipn 1 sampleSupp) (Some 0)
                                            (projectRatioColumns (headerTexts (hd [] sampleSupp))))
                                 sampleTopics) 1 = Some _) by reflexivity.
  split; [exact Hm|]. split; [exact Hrec|].
  exact (sheet_row_layout sampleTopics sampleSupp 1 Hm Hrec).
Defined.

(** ** The chapter table of a report *)

Section ChapterTable.

Variable toFixed2 : number -> jsstring.

Lemma chapterLineOf_other (row : object value) (key : jsstring) :
  startsWith key (lit "c") = false -> chapterLineOf toFixed2 row key = None.
Proof. unfold chapterLineOf. now intros ->. Qed.

Lemma chapterLineOf_chapterKey (row : object value) (j : nat) (n : number) :
  0 < j -> get (chapterKey j) row = VNumber n ->
  chapterLineOf toFixed2 row (chapterKey j) = Some (lineOf toFixed2 (j, n)).
Proof.
  intros Hj Hn. unfold chapterLineOf.
  assert (Hs : startsWith (chapterKey j) (lit "c") = true)
    by (apply startsWith_spec; now exists (digitsOfNat j)).
  rewrite Hs, parseIntAuto_chapterKey, ofNat_number, (ofNat_positive Hj), Hn.
  reflexivity.
Qed.

Lemma chapterLines_fields (row : object value) (fields : list (nat * number)) :
  (forall jn, In jn fields ->
              0 < fst jn /\ get (chapterKey (fst jn)) row = VNumber (snd jn)) ->
  flat_map (fun key => match chapterLineOf toFixed2 row key with
                       | Some line => [line]
                       | None => []
                       end)
           (map (fun jn => chapterKey (fst jn)) fields)
  = map (lineOf toFixed2) fields.
Proof.
  induction fields as [|[j n] fields IH]; intros H; [reflexivity|].
  cbn [map flat_map fst].
  destruct (H (j, n) (or_introl eq_refl)) as [Hj Hn]. cbn [fst snd] in Hj, Hn.
  rewrite (chapterLineOf_chapterKey _ Hj Hn). cbn [app]. f_equal.
  apply IH. intros jn Hjn. apply H. now right.
Qed.

Lemma chaptersOf_positive (dataRows : grid) (ratioCols : list column) (i j : nat)
      (n : number) :
  In (j, n) (chaptersOf dataRows ratioCols i) -> 0 < j.
Proof. intros H. apply chaptersOf_In in H as (col & row & _ & Hj & _). exact Hj. Qed.

Lemma sortedChapters_layout (dataRows : grid) (tvCol : option nat) (ratioCols : list column)
      (mainRow : object value) (i : nat) :
  sortedChapters toFixed2 (mergedLayout dataRows tvCol ratioCols mainRow i)
  = map (lineOf toFixed2) (chaptersOf dataRows ratioCols i).
Proof.
  unfold sortedChapters, chapterLines. rewrite mergedLayout_keys, !flat_map_app.
  set (rec := mergedLayout dataRows tvCol ratioCols mainRow i).
  assert (E1 : flat_map (fun key => match chapterLineOf toFixed2 rec key with
                                    | Some line => [line]
                                    | None => []
                                    end)
                        [lit "hotenhv"; lit "tendetai"; lit "sohocvien"; lit "nguoihuongdan"]
               = []).
  { cbn [flat_map]. now rewrite !chapterLineOf_other by reflexivity. }
  assert (E2 : flat_map (fun key => match chapterLineOf toFixed2 rec key with
                                    | Some line => [line]
                                    | None => []
                                    end)
                        match tvFieldOf dataRows tvCol i with
                        | Some _ => [lit "tv"]
                        | None => []
                        end
               = []).
  { destruct (tvFieldOf dataRows tvCol i); [|reflexivity].
    cbn [flat_map]. now rewrite chapterLineOf_other by reflexivity. }
  rewrite E1, E2. cbn [app].
  rewrite chapterLines_fields.
  - apply sortWith_ascending, Sorted_map.
    pose proof (chaptersOf_sorted dataRows ratioCols i) as Hs.
    induction Hs as [|jn l Hs IH Hall]; constructor; [assumption|].
    destruct l as [|jn' l]; constructor. cbn [lineOf stt].
    apply not_true_is_false. intros H. apply gtNum_ofNat in H.
    apply Forall_inv in Hall. lia.
  - intros [j n] Hjn. cbn [fst snd]. split; [now apply chaptersOf_positive in Hjn|].
    now apply mergedLayout_chapter.
Qed.

Lemma mergedLayout_tv (dataRows : grid) (tvCol : option nat) (ratioCols : list column)
      (mainRow : object value) (i : nat) :
  get (lit "tv") (mergedLayout dataRows tvCol ratioCols mainRow i)
  = match tvFieldOf dataRows tvCol i with
    | Some n => VNumber n
    | None => VUndefined
    end.
Proof.
  unfold get, mergedLayout. rewrite !getOwn_app.
  change (getOwn (lit "tv")
            [ (lit "hotenhv", get (lit "Họ tên HV") mainRow);
              (lit "tendetai", get (lit "Tên đề tài") mainRow);
              (lit "sohocvien", get (lit "Số học viên") mainRow);
              (lit "nguoihuongdan", get (lit "Người hướng dẫn") mainRow) ])
    with (@None value).
  destruct (tvFieldOf dataRows tvCol i) as [t|]; [reflexivity|]. cbn [getOwn].
  assert (Hn : getOwn (lit "tv")
                      (map (fun jn => (chapterKey (fst jn), VNumber (snd jn)))
                           (chaptersOf dataRows ratioCols i)) = None).
  { induction (chaptersOf dataRows ratioCols i) as [|jn l IH]; [reflexivity|].
    cbn [map getOwn]. now rewrite IH. }
  now rewrite Hn.
Qed.

(** X10.  The template data of a merged record.  Building the data never
    fails; the chapter table has one line for each data row [j] of the
    supplementary sheet whose cell in the record's ratio column is a
    number, in ascending order, with [stt] [j], the label "Chương j" and
    the cell value formatted by [toFixed(2)]; [TV] is the formatted TV cell
    of the record's row, and "0.00" when that cell gave no number or gave
    zero. *)
Theorem report_of_merged_record :
  forall (dfMain : list (object value)) (dfSupp : grid) (out : list (object value))
         (i : nat) (rec : object value) (templateName : jsstring)
         (isFirstCheck : bool) (projectTypeFromUI : projectType),
    mergeMainAndRatios dfMain dfSupp = Ok out ->
    nth_error out i = Some rec ->
    let headerRowIndex := detectHeaderRow dfSupp suppKeywords in
    let headers := headerTexts (nth headerRowIndex dfSupp []) in
    let dataRows := skipn (headerRowIndex + 1) dfSupp in
    let chapters := chaptersOf dataRows (projectRatioColumns headers) i in
    exists data,
      templateDataOf toFixed2 rec templateName isFirstCheck projectTypeFromUI = Ok data /\
      chuong_data data = map (lineOf toFixed2) chapters /\
      TV data = match tvFieldOf dataRows (tvColumnIndex headers) i with
                | Some n => if truthy (VNumber n) then toFixed2 n else lit "0.00"
                | None => lit "0.00"
                end /\
      StronglySorted (fun a b => fst a < fst b) chapters.
Proof.
  intros dfMain dfSupp out i rec name fc p Hm Hrec headerRowIndex headers dataRows chapters.
  pose proof (mergeMainAndRatios_layout _ _ Hm) as Hout. cbv zeta in Hout.
  fold headerRowIndex in Hout. fold headers in Hout. fold dataRows in Hout.
  rewrite Hout in Hrec. unfold mapi in Hrec.
  apply nth_error_mapi_from in Hrec as (mainRow & _ & Hi). cbn [Nat.add] in Hi. subst rec.
  unfold templateDataOf, tvText. rewrite mergedLayout_tv, sortedChapters_layout.
  fold chapters.
  destruct (tvFieldOf dataRows (tvColumnIndex headers) i) as [t|].
  - destruct (truthy (VNumber t)); cbn [bind]; eexists;
      (split; [reflexivity|]); cbn [chuong_data TV];
      (split; [reflexivity|]); (split; [reflexivity|]); apply chaptersOf_sorted.
  - cbn [truthy bind]. eexists. split; [reflexivity|]. cbn [chuong_data TV].
    split; [reflexivity|]. split; [reflexivity|]. apply chaptersOf_sorted.
Qed.

End ChapterTable.

Lemma report_of_merged_record_witness :
  exists out rec data,
    mergeMainAndRatios sampleTopics sampleSupp = Ok out /\
    nth_error out 1 = Some rec /\
    templateDataOf numberToString rec (lit "Mau_DATN_v2.docx") true BCCD = Ok data /\
    chuong_data data
    = map (lineOf numberToString)
          (chaptersOf (skipn 1 sampleSupp)
                      (projectRatioColumns (headerTexts (hd [] sampleSupp))) 1) /\
    TV data = numberToString (Finite 285 (-1)).
Proof.
  eexists. eexists.
  assert (Hm : mergeMainAndRatios sampleTopics sampleSupp = Ok _) by (vm_compute; reflexivity).
  assert (Hrec : nth_error (mapi (enrichRow (skipn 1 sampleSupp) (Some 0)
                                            (projectRatioColumns (headerTexts (hd [] sampleSupp))))
                                 sampleTopics) 1 = Some _) by reflexivity.
  destruct (report_of_merged_record numberToString sampleTopics sampleSupp 1
              (lit "Mau_DATN_v2.docx") true BCCD Hm Hrec) as (data & Hd & Hc & Ht & _).
  exists data. split; [exact Hm|]. split; [exact Hrec|]. split; [exact Hd|].
  split; [exact Hc | exact Ht].
Defined.

(** ** The names of the reports *)

Lemma reportFileName_inj (templateName : jsstring) (p : projectType) (i j : nat) :
  reportFileName templateName p i = reportFileName templateName p j -> i = j.
Proof.
  unfold reportFileName. intros H.
  apply app_inv_head, app_inv_head, app_inv_tail, digitsOfNat_inj in H. lia.
Qed.

Lemma distinct_images (A B : Type) (f : A -> B) (l : list A) :
  NoDup l -> (forall a b, f a = f b -> a = b) -> NoDup (map f l).
Proof.
  intros Hl Hf. induction Hl as [|x l Hx Hl IH]; cbn [map]; constructor; [|exact IH].
  intros Hin. apply in_map_iff in Hin as (y & E & Hy). apply Hf in E. now subst.
Qed.

Section Reports.

Variable toFixed2 : number -> jsstring.

Lemma templateDataOf_usable (row : object value) (name : jsstring) (fc : bool)
      (p : projectType) :
  (exists data, templateDataOf toFixed2 row name fc p = Ok data) <-> tvUsable row = true.
Proof.
  unfold templateDataOf, tvText, tvUsable.
  destruct (get (lit "tv") row) as [| |b|n|s]; cbn [truthy negb bind].
  - split; [reflexivity | intros _; eexists; reflexivity].
  - split; [reflexivity | intros _; eexists; reflexivity].
  - destruct b; cbn [bind negb].
    + split; [intros (d & H); discriminate | discriminate].
    + split; [reflexivity | intros _; eexists; reflexivity].
  - split; [reflexivity|]. intros _.
    destruct n as [|neg|m e]; [| |destruct (negb (m =? 0)%Z)]; cbn [bind];
      eexists; reflexivity.
  - destruct s; cbn [bind negb].
    + split; [reflexivity | intros _; eexists; reflexivity].
    + split; [intros (d & H); discriminate | discriminate].
Qed.

Lemma templateDataOf_error (row : object value) (name : jsstring) (fc : bool)
      (p : projectType) (e : error) :
  templateDataOf toFixed2 row name fc p = Throw e -> e = TypeError.
Proof.
  unfold templateDataOf, tvText.
  destruct (get (lit "tv") row) as [| |b|n|s]; cbn [truthy bind]; try discriminate.
  - destruct b; cbn [bind]; [|discriminate]. intros H. now injection H as <-.
  - destruct n as [|neg|m e']; [| |destruct (negb (m =? 0)%Z)]; discriminate.
  - destruct s; cbn [bind]; [discriminate|]. intros H. now injection H as <-.
Qed.

Lemma reportsFrom_outcome (start : nat) (data : list (object value)) (name : jsstring)
      (fc : bool) (p : projectType) :
  (forallb tvUsable data = true ->
   exists reports,
     reportsFrom toFixed2 start data name fc p = Ok reports /\
     map fst reports = map (reportFileName name p) (seq start (length data)) /\
     Forall2 (fun report row => templateDataOf toFixed2 row name fc p = Ok (snd report))
             reports data) /\
  (forallb tvUsable data = false ->
   reportsFrom toFixed2 start data name fc p = Throw TypeError).
Proof.
  revert start; induction data as [|row data IH]; intros start.
  - split; [|discriminate]. intros _. exists []. repeat split. constructor.
  - cbn [forallb reportsFrom]. destruct (IH (S start)) as [IHok IHno]. split.
    + intros H. apply andb_true_iff in H as [Hrow Hrest].
      apply templateDataOf_usable with (name := name) (fc := fc) (p := p) in Hrow
        as (d & Hd).
      destruct (IHok Hrest) as (reports & Hr & Hnames & Hall).
      rewrite Hd, Hr. cbn [bind]. eexists. split; [reflexivity|].
      cbn [map fst length seq]. split; [now rewrite Hnames|].
      constructor; [exact Hd | exact Hall].
    + intros H. destruct (templateDataOf toFixed2 row name fc p) as [d|e] eqn:Ed.
      * assert (Hrow : tvUsable row = true)
          by (apply (templateDataOf_usable row name fc p); now exists d).
        rewrite Hrow in H. cbn [andb] in H. cbn [bind]. now rewrite (IHno H).
      * cbn [bind]. now rewrite (templateDataOf_error _ _ _ _ Ed).
Qed.

(** X11.  [generateWordReports] hands one report per record to the
    archive, named [<baseName>_1.docx], [<baseName>_2.docx], ... in the
    order of the records, so no two reports share a name.  Building the
    data fails, with a TypeError, exactly when some record has a truthy
    [tv] that is not a Number. *)
Theorem report_names_distinct :
  forall (data : list (object value)) (name : jsstring) (isFirstCheck : bool)
         (projectTypeFromUI : projectType),
    (forall i j, reportFileName name projectTypeFromUI i
                 = reportFileName name projectTypeFromUI j -> i = j) /\
    (forallb tvUsable data = true ->
     exists reports,
       generateWordReports toFixed2 data name isFirstCheck projectTypeFromUI = Ok reports /\
       length reports = length data /\
       map fst reports
       = map (reportFileName name projectTypeFromUI) (seq 0 (length data)) /\
       NoDup (map fst reports)) /\
    (forallb tvUsable data = false ->
     generateWordReports toFixed2 data name isFirstCheck projectTypeFromUI
     = Throw TypeError).
Proof.
  intros data name fc p. split; [intros i j; apply reportFileName_inj|].
  destruct (reportsFrom_outcome 0 data name fc p) as [Hok Hno]. split; [|exact Hno].
  intros H. destruct (Hok H) as (reports & Hr & Hnames & Hall).
  exists reports. split; [exact Hr|]. split.
  - apply (f_equal (@length jsstring)) in Hnames.
    now rewrite !length_map, length_seq in Hnames.
  - split; [exact Hnames|]. rewrite Hnames.
    apply distinct_images; [apply seq_NoDup|].
    intros i j. apply reportFileName_inj.
Qed.

End Reports.

(** ** The base name and the project type *)

(** X12.  The base name of the reports is one of [KQ_KLTN], [KQ_ĐATN] and
    [KQ_BCCĐ], and it agrees with the project type the conclusions are
    drawn for: it is [KQ_BCCĐ] exactly when the effective type is BCCĐ. *)
Theorem base_name_matches_type :
  forall (templateName : jsstring) (projectTypeFromUI : projectType),
    (baseName templateName projectTypeFromUI = lit "KQ_KLTN" \/
     baseName templateName projectTypeFromUI = lit "KQ_ĐATN" \/
     baseName templateName projectTypeFromUI = lit "KQ_BCCĐ") /\
    (baseName templateName projectTypeFromUI = lit "KQ_BCCĐ" <->
     effectiveProjectType templateName projectTypeFromUI = BCCD) /\
    (includes (normalizeString (VString templateName)) (lit "kltn") = true ->
     baseName templateName projectTypeFromUI = lit "KQ_KLTN").
Proof.
  intros name p. unfold baseName, effectiveProjectType.
  destruct (includes (normalizeString (VString name)) (lit "kltn")),
           (includes (normalizeString (VString name)) (lit "datn")),
           (includes (normalizeString (VString name)) (lit "bccd")), p;
    cbn [orb];
    (split; [vm_compute; tauto|]);
    (split; [split; intros H; solve [reflexivity | discriminate H | vm_compute in H; discriminate H]
            | intros H; solve [reflexivity | discriminate H]]).
Qed.

(** ** The ways the merge ends *)

Lemma error_neq (a b : jsstring) : str_eqb a b = false -> Error a <> Error b.
Proof. intros H E. injection E as E. apply str_eqb_neq in H. contradiction. Qed.

Lemma Throw_inj (A : Type) (e e' : error) : @Throw A e = Throw e' -> e = e'.
Proof. intros H. now injection H. Qed.

Lemma processMainData_errors (rawData : grid) (e : error) :
  processMainData rawData = Throw e -> e = TypeError \/ e = missingMainColumns.
Proof.
  destruct rawData as [|r0 rest]; [intros H; injection H as <-; now left|].
  assert (Hne : r0 :: rest <> []) by discriminate.
  rewrite (processMainData_outcome (r0 :: rest) (nth_error_header mainKeywords Hne)).
  cbv zeta.
  destruct (findColumn _ topicKeywords) as [t|]; [|intros H; injection H as <-; now right].
  destruct (findColumn _ nameKeywords) as [n|]; [|intros H; injection H as <-; now right].
  destruct (existsb _ _); [intros H; injection H as <-; now left | discriminate].
Qed.

Lemma generateMergedExcel_outcome (mainRawData suppRawData : grid) :
  generateMergedExcel mainRawData suppRawData
  = match mainRawData with
    | [] => Throw emptyMainFile
    | _ :: _ =>
      match processMainData mainRawData with
      | Throw e => Throw e
      | Ok mainProcessed =>
        match suppRawData with
        | [] => Throw emptySuppFile
        | _ :: _ =>
          let headers :=
            headerTexts (nth (detectHeaderRow suppRawData suppKeywords) suppRawData []) in
          match projectRatioColumns headers, tvColumnIndex headers with
          | [], None => Throw missingRatioColumns
          | _, _ =>
            let data :=
              mapi (enrichRow (skipn (detectHeaderRow suppRawData suppKeywords + 1) suppRawData)
                              (tvColumnIndex headers) (projectRatioColumns headers))
                   mainProcessed in
            Ok (data, map sheetRow data)
          end
        end
      end
    end.
Proof.
  unfold generateMergedExcel. destruct mainRawData as [|r0 main]; [reflexivity|].
  destruct (processMainData (r0 :: main)) as [mp|e]; [|reflexivity]. cbn [bind].
  destruct suppRawData as [|s0 supp]; [reflexivity|].
  rewrite (@mergeMainAndRatios_cases mp (s0 :: supp)) by discriminate. cbv zeta.
  destruct (projectRatioColumns _) as [|c cs]; destruct (tvColumnIndex _) as [t|]; reflexivity.
Qed.

(** X13.  The ways [generateMergedExcel] ends.  An empty main sheet is
    reported first, then a failure of the main sheet, then an empty
    supplementary sheet, then a supplementary sheet without a TV column or
    a ratio column.  These are all its failures: a TypeError can only come
    from the main sheet.  When it returns, the sheet has one row per merged
    record. *)
Theorem merge_outcomes :
  forall (mainRawData suppRawData : grid),
    let headers :=
      headerTexts (nth (detectHeaderRow suppRawData suppKeywords) suppRawData []) in
    let mainFails e := mainRawData <> [] /\ processMainData mainRawData = Throw e in
    let mainReturns := mainRawData <> [] /\ exists mp, processMainData mainRawData = Ok mp in
    let noColumns := tvColumnIndex headers = None /\ projectRatioColumns headers = [] in
    (generateMergedExcel mainRawData suppRawData = Throw emptyMainFile <-> mainRawData = []) /\
    (generateMergedExcel mainRawData suppRawData = Throw missingMainColumns <->
     mainFails missingMainColumns) /\
    (generateMergedExcel mainRawData suppRawData = Throw TypeError <-> mainFails TypeError) /\
    (generateMergedExcel mainRawData suppRawData = Throw emptySuppFile <->
     mainReturns /\ suppRawData = []) /\
    (generateMergedExcel mainRawData suppRawData = Throw missingRatioColumns <->
     mainReturns /\ suppRawData <> [] /\ noColumns) /\
    ((exists data sheet, generateMergedExcel mainRawData suppRawData = Ok (data, sheet)) <->
     mainReturns /\ suppRawData <> [] /\ ~ noColumns) /\
    (forall data sheet mp,
       generateMergedExcel mainRawData suppRawData = Ok (data, sheet) ->
       processMainData mainRawData = Ok mp ->
       sheet = map sheetRow data /\ length data = length mp).
Proof.
  intros mainRawData suppRawData headers mainFails mainReturns noColumns.
  assert (Hlast : forall data sheet mp,
             generateMergedExcel mainRawData suppRawData = Ok (data, sheet) ->
             processMainData mainRawData = Ok mp ->
             sheet = map sheetRow data /\ length data = length mp).
  { intros data sheet mp Hgen Hmp. unfold generateMergedExcel in Hgen.
    destruct mainRawData as [|r0 main]; [discriminate|]. rewrite Hmp in Hgen.
    cbn [bind] in Hgen. destruct suppRawData as [|s0 supp]; [discriminate|].
    destruct (mergeMainAndRatios mp (s0 :: supp)) as [merged|] eqn:Es; [|discriminate].
    cbn [bind] in Hgen. apply Ok_inj in Hgen. injection Hgen as <- <-.
    split; [reflexivity|].
    apply mergeMainAndRatios_shape in Es as (h & tvCol & ratioCols & ->).
    unfold mapi. apply length_mapi_from. }
  split; [|split; [|split; [|split; [|split; [|split; [|exact Hlast]]]]]]; clear Hlast;
    rewrite generateMergedExcel_outcome; fold headers;
    unfold mainFails, mainReturns, noColumns;
    pose proof (@processMainData_errors mainRawData) as Herr;
    set (pm := processMainData mainRawData) in *; clearbody pm;
    set (rc := projectRatioColumns headers) in *; clearbody rc;
    set (tc := tvColumnIndex headers) in *; clearbody tc;
    match goal with
    | |- context [Ok (?d, ?s)] => idtac
    | _ => idtac
    end;
    assert (D1 : emptyMainFile <> missingMainColumns)
      by (apply error_neq; vm_compute; reflexivity);
    assert (D2 : emptyMainFile <> emptySuppFile)
      by (apply error_neq; vm_compute; reflexivity);
    assert (D3 : emptyMainFile <> missingRatioColumns)
      by (apply error_neq; vm_compute; reflexivity);
    assert (D4 : missingMainColumns <> emptySuppFile)
      by (apply error_neq; vm_compute; reflexivity);
    assert (D5 : missingMainColumns <> missingRatioColumns)
      by (apply error_neq; vm_compute; reflexivity);
    assert (D6 : emptySuppFile <> missingRatioColumns)
      by (apply error_neq; vm_compute; reflexivity);
    assert (T1 : TypeError <> emptyMainFile) by (unfold emptyMainFile; discriminate);
    assert (T2 : TypeError <> missingMainColumns) by (unfold missingMainColumns; discriminate);
    assert (T3 : TypeError <> emptySuppFile) by (unfold emptySuppFile; discriminate);
    assert (T4 : TypeError <> missingRatioColumns)
      by (unfold missingRatioColumns; discriminate);
    set (E1 := emptyMainFile) in *; clearbody E1;
    set (E2 := missingMainColumns) in *; clearbody E2;
    set (E3 := emptySuppFile) in *; clearbody E3;
    set (E4 := missingRatioColumns) in *; clearbody E4;
    clear headers;
    destruct mainRawData as [|r0 main]; destruct pm as [mp|e];
    try (destruct (Herr e eq_refl) as [-> | ->]); clear Herr;
    destruct suppRawData as [|s0 supp]; destruct rc as [|c cs]; destruct tc as [t|];
    cbv zeta.
  all: split.
  all: try (intros H; exfalso; congruence).
  all: try (intros H; apply Throw_inj in H; exfalso; congruence).
  all: try reflexivity.
  all: try (intros _; reflexivity).
  all: try (intros _; discriminate).
  all: try (intros [H _]; exfalso; congruence).
  all: try (intros [[H _] _]; exfalso; congruence).
  all: try (intros [[_ (mp' & H)] _]; discriminate H).
  all: try (intros (d & s & H); discriminate H).
  all: try (intros H; discriminate H).
  all: try (intros [_ H]; discriminate H).
  all: try (intros [_ [H _]]; exfalso; congruence).
  all: try (intros [_ [_ [H1 H2]]]; discriminate).
  all: try (intros [_ [_ H]]; exfalso; apply H; split; reflexivity).
  all: try (intros _; split; [discriminate | reflexivity]).
  all: try (intros _; split; [split; [discriminate | now exists mp] | reflexivity]).
  all: try (intros _; split; [split; [discriminate | now exists mp]|];
            split; [discriminate|]; try (split; reflexivity);
            intros [H1 H2]; discriminate).
  all: try (intros _; eexists; eexists; reflexivity).
  all: intros [_ Hsame]; apply Throw_inj in Hsame; now rewrite Hsame.
Qed.

(** ** Records the reports can be built from *)

Lemma readRow_usable (headers : list jsstring) (ti hi : nat) (si gi tvi : option nat)
      (row : list value) :
  tvUsable (readRow headers ti hi si gi tvi row) = true.
Proof.
  unfold tvUsable, get. rewrite readRow_tv.
  destruct tvi as [i|]; [|reflexivity]. now destruct (isNullish (JS.index row i)).
Qed.

Lemma mergedLayout_usable (dataRows : grid) (tvCol : option nat) (ratioCols : list column)
      (mainRow : object value) (i : nat) :
  tvUsable (mergedLayout dataRows tvCol ratioCols mainRow i) = true.
Proof.
  unfold tvUsable. rewrite mergedLayout_tv. now destruct (tvFieldOf dataRows tvCol i).
Qed.

Lemma merged_usable (mainRawData suppRawData : grid) (data sheet : list (object value)) :
  generateMergedExcel mainRawData suppRawData = Ok (data, sheet) ->
  forallb tvUsable data = true.
Proof.
  unfold generateMergedExcel. destruct mainRawData as [|r0 main]; [discriminate|].
  destruct (processMainData (r0 :: main)) as [mp|]; [|discriminate]. cbn [bind].
  destruct suppRawData as [|s0 supp]; [discriminate|].
  destruct (mergeMainAndRatios mp (s0 :: supp)) as [merged|] eqn:Es; [|discriminate].
  cbn [bind]. intros H. apply Ok_inj in H. injection H as <- _.
  apply mergeMainAndRatios_layout in Es. cbv zeta in Es. subst merged.
  apply forallb_forall. intros rec Hrec. unfold mapi in Hrec.
  apply mapi_from_In in Hrec as (j & mainRow & _ & ->). apply mergedLayout_usable.
Qed.

Lemma direct_usable (file : grid) (data : list (object value)) :
  readDataFileForReporting file = Ok data -> forallb tvUsable data = true.
Proof.
  intros H. destruct (readDataFileForReporting_Ok _ H)
    as (headerRow & row1 & rest & ti & hi & -> & Hti & Hhi).
  rewrite (readDataFileForReporting_rows _ _ _ Hti Hhi) in H. apply Ok_inj in H. subst data.
  apply forallb_forall. intros rec Hrec. apply in_map_iff in Hrec as (row & <- & _).
  apply readRow_usable.
Qed.

(** X14.  Building the reports never fails on the records of the merge or
    of a data file: for the records [generateMergedExcel] returns and for
    those [readDataFileForReporting] returns, [generateWordReports] hands
    one report per record to the archive. *)
Theorem reports_from_pipeline :
  forall (toFixed2 : number -> jsstring) (name : jsstring) (isFirstCheck : bool)
         (projectTypeFromUI : projectType),
    (forall (mainRawData suppRawData : grid) (data sheet : list (object value)),
       generateMergedExcel mainRawData suppRawData = Ok (data, sheet) ->
       exists reports,
         generateWordReports toFixed2 data name isFirstCheck projectTypeFromUI = Ok reports /\
         length reports = length data) /\
    (forall (file : grid) (data : list (object value)),
       readDataFileForReporting file = Ok data ->
       exists reports,
         generateWordReports toFixed2 data name isFirstCheck projectTypeFromUI = Ok reports /\
         length reports = length data).
Proof.
  intros toFixed2 name fc p.
  assert (Hgen : forall data, forallb tvUsable data = true ->
            exists reports,
              generateWordReports toFixed2 data name fc p = Ok reports /\
              length reports = length data).
  { intros data Hu. destruct (reportsFrom_outcome toFixed2 0 data name fc p) as [Hok _].
    destruct (Hok Hu) as (reports & Hr & Hnames & _). exists reports. split; [exact Hr|].
    apply (f_equal (@length jsstring)) in Hnames.
    now rewrite !length_map, length_seq in Hnames. }
  split.
  - intros main supp data sheet H. apply Hgen. exact (merged_usable _ _ H).
  - intros file data H. apply Hgen. exact (direct_usable _ H).
Qed.

(** ** Chapter headers of a data file *)

Lemma digits_matchesPrefix (prefixes : list jsstring) (p ds : jsstring) :
  In p prefixes -> ds <> [] -> forallb isDigit ds = true ->
  matchesPrefixDigits prefixes (p ++ ds) = true.
Proof.
  intros Hp Hne Hd. unfold matchesPrefixDigits. apply existsb_exists. exists p.
  split; [assumption|].
  assert (Hs : startsWith (p ++ ds) p = true) by (apply startsWith_spec; now exists ds).
  rewrite Hs, skipn_app, skipn_all, Nat.sub_diag. cbn [app skipn andb].
  destruct ds as [|d ds]; [congruence | exact Hd].
Qed.

(** X15.  How the direct-read path names a chapter column.  A header
    whose normalized form is "c" or "tile" followed by digits is stored
    under ["c" + digits]; a header "chuong" followed by digits is stored
    under its own normalized name, because the pattern that strips the
    prefix tries "c" first.  The report generator then finds no chapter
    number after the "c" of such a key and leaves it out of the chapter
    table. *)
Theorem direct_read_chapter_keys :
  forall (ds : jsstring) (row : list value) (rowData : object value) (i : nat),
    ds <> [] -> forallb isDigit ds = true -> isNullish (JS.index row i) = false ->
    let cell := VNumber (readNumber (JS.index row i)) in
    readChapter row rowData (lit "c" ++ ds) i = setOwn (lit "c" ++ ds) cell rowData /\
    readChapter row rowData (lit "tile" ++ ds) i = setOwn (lit "c" ++ ds) cell rowData /\
    readChapter row rowData (lit "chuong" ++ ds) i
    = setOwn (lit "chuong" ++ ds) cell rowData /\
    (forall (toFixed2 : number -> jsstring) (rec : object value),
       chapterLineOf toFixed2 rec (lit "chuong" ++ ds) = None).
Proof.
  intros ds row rowData i Hne Hd Hcell cell. unfold readChapter. rewrite Hcell.
  rewrite !digits_matchesPrefix by (assumption || (simpl; tauto)).
  destruct ds as [|d ds]; [congruence|].
  assert (Hd0 : isDigit d = true) by (cbn [forallb] in Hd; now apply andb_true_iff in Hd).
  assert (Ht : startsWith (lit "tile" ++ d :: ds) (lit "c") = false) by reflexivity.
  unfold removePrefix, chapterPrefixes. cbn [find].
  assert (Hc : startsWith (lit "c" ++ d :: ds) (lit "c") = true) by reflexivity.
  assert (Hch : startsWith (lit "chuong" ++ d :: ds) (lit "c") = true) by reflexivity.
  assert (Htc : startsWith (lit "tile" ++ d :: ds) (lit "chuong") = false) by reflexivity.
  assert (Htt : startsWith (lit "tile" ++ d :: ds) (lit "tile") = true)
    by (apply startsWith_spec; now exists (d :: ds)).
  rewrite Hc, Hch, Ht, Htc, Htt.
  split; [reflexivity|]. split; [reflexivity|]. split; [reflexivity|].
  intros toFixed2 rec. unfold chapterLineOf. rewrite Hch.
  assert (Hn : parseIntAuto (skipn 1 (lit "chuong" ++ d :: ds)) = NaN) by reflexivity.
  now rewrite Hn.
Qed.

Lemma direct_read_chapter_keys_witness :
  let row := [VString (lit "T1"); VNumber (ofZ 5)] in
  let cell := VNumber (ofZ 5) in
  readChapter row [] (lit "c3") 1 = [(lit "c3", cell)] /\
  readChapter row [] (lit "tile3") 1 = [(lit "c3", cell)] /\
  readChapter row [] (lit "chuong3") 1 = [(lit "chuong3", cell)] /\
  (forall (toFixed2 : number -> jsstring) (rec : object value),
     chapterLineOf toFixed2 rec (lit "chuong3") = None).
Proof.
  refine (@direct_read_chapter_keys (lit "3") [VString (lit "T1"); VNumber (ofZ 5)] [] 1 _ _ _).
  - discriminate.
  - reflexivity.
  - reflexivity.
Defined.

(** ** The ways the direct-read path ends *)

Lemma findIndex_nothing (A : Type) (p : A -> bool) (l : list A) :
  findIndex p l = None <-> forall y, In y l -> p y = false.
Proof.
  induction l as [|a l IH]; simpl; [tauto|].
  destruct (p a) eqn:Ea.
  - split; [discriminate|]. intros H. rewrite (H a (or_introl eq_refl)) in Ea. discriminate.
  - destruct (findIndex p l) as [i|].
    + split; [discriminate|]. intros H.
      assert (Hn : Some i = None) by (apply IH; intros y Hy; apply H; now right).
      discriminate.
    + split; [|reflexivity]. intros _ y [<-|Hy]; [assumption|].
      now apply (proj1 IH eq_refl).
Qed.

Lemma findHeaderIndex_None (headers keywords : list jsstring) :
  findHeaderIndex headers keywords = None <-> unlisted headers keywords.
Proof.
  unfold unlisted. induction keywords as [|kw kws IH]; cbn [findHeaderIndex].
  - split; [contradiction | reflexivity].
  - destruct (findIndex (fun h => includes h (normalizeString (VString kw))) headers)
      as [i|] eqn:Ef.
    + split; [discriminate|]. intros H.
      assert (Hn : findIndex (fun h => includes h (normalizeString (VString kw))) headers = None).
      { apply findIndex_nothing. intros h Hh. apply H; [now left | assumption]. }
      congruence.
    + rewrite IH. pose proof (proj1 (findIndex_nothing _ _) Ef) as Hno. split.
      * intros H kw' h [<-|Hk] Hh; [now apply Hno | now apply H].
      * intros H kw' h Hk Hh. apply H; [now right | assumption].
Qed.

(** X16.  The ways [readDataFileForReporting] ends.  A file with fewer
    than two rows is refused as too short; a longer one is refused for its
    columns exactly when no normalized header of its first row contains a
    title keyword or none contains a name keyword; these are its only
    failures, and what it returns has at most one record per data row. *)
Theorem data_file_outcomes :
  forall data : grid,
    let headers := map normalizeString (hd [] data) in
    let titleKeywords := [lit "Tên đề tài"; lit "tendetai"] in
    let studentKeywords := [lit "Họ tên HV"; lit "hotenhv"] in
    (readDataFileForReporting data = Throw dataFileTooShort <-> length data < 2) /\
    (readDataFileForReporting data = Throw missingDataColumns <->
     2 <= length data /\
     (unlisted headers titleKeywords \/ unlisted headers studentKeywords)) /\
    (forall e, readDataFileForReporting data = Throw e ->
               e = dataFileTooShort \/ e = missingDataColumns) /\
    (forall out, readDataFileForReporting data = Ok out -> length out <= length data - 1).
Proof.
  intros data headers titleKeywords studentKeywords.
  assert (D : dataFileTooShort <> missingDataColumns)
    by (apply error_neq; vm_compute; reflexivity).
  assert (Hlen : forall out, readDataFileForReporting data = Ok out ->
                             length out <= length data - 1).
  { intros out H. destruct (readDataFileForReporting_Ok _ H)
      as (headerRow & row1 & rest & ti & hi & -> & Hti & Hhi).
    rewrite (readDataFileForReporting_rows _ _ _ Hti Hhi) in H. apply Ok_inj in H. subst out.
    rewrite length_map. etransitivity; [apply filter_length_le|]. simpl. lia. }
  split; [|split; [|split; [|exact Hlen]]]; clear Hlen;
    unfold readDataFileForReporting;
    (destruct data as [|headerRow [|row1 rest]];
     [| |pose proof (findHeaderIndex_None (map normalizeString headerRow) titleKeywords) as Ht;
         pose proof (findHeaderIndex_None (map normalizeString headerRow) studentKeywords) as Hn;
         subst headers; cbn [hd] in *;
         change [lit "Tên đề tài"; lit "tendetai"] with titleKeywords;
         change [lit "Họ tên HV"; lit "hotenhv"] with studentKeywords;
         destruct (findHeaderIndex (map normalizeString headerRow) titleKeywords) as [ti|];
         destruct (findHeaderIndex (map normalizeString headerRow) studentKeywords) as [hi|]]);
    set (E1 := dataFileTooShort) in *; clearbody E1;
    set (E2 := missingDataColumns) in *; clearbody E2;
    cbn [length].
  all: try (split; [intros _; lia | reflexivity]).
  all: try (split; [intros H; exfalso; congruence | intros [H _]; lia]).
  all: try (intros e H; apply Throw_inj in H; subst e; tauto).
  all: try (split; [discriminate | lia]).
  all: try (intros e H; discriminate H).
  all: try (split; [intros H; apply Throw_inj in H; exfalso; congruence | lia]).
  all: try (split; [discriminate|]; intros [_ [H|H]];
            [apply Ht in H | apply Hn in H]; discriminate H).
  all: try (split; [intros _; split; [lia|] | reflexivity]).
  all: try (right; now apply Hn).
  all: try (left; now apply Ht).
Qed.

(** ** The TV value of a data file *)

(** X17.  How the direct-read path reads a TV cell.  Every cell that is
    not [null] or [undefined] sets [tv]: a Number in canonical form is read
    back unchanged, text is parsed after its first comma becomes a dot,
    and a cell that does not start with a number gives NaN, which the
    conclusions then treat as 0.  Without a TV column, or on an absent
    cell, [tv] is left unset. *)
Theorem direct_read_tv :
  (forall (headers : list jsstring) (ti hi : nat) (si gi tvi : option nat)
          (row : list value),
     let rec := readRow headers ti hi si gi tvi row in
     getOwn (lit "tv") rec
     = match tvi with
       | Some i => if isNullish (JS.index row i) then None
                   else Some (VNumber (readNumber (JS.index row i)))
       | None => None
       end /\
     (forall i n, tvi = Some i -> JS.index row i = VNumber n -> canonical n = true ->
                  getOwn (lit "tv") rec = Some (VNumber n)) /\
     (forall i, tvi = Some i -> isNullish (JS.index row i) = false ->
                readNumber (JS.index row i) = NaN ->
                getOwn (lit "tv") rec = Some (VNumber NaN) /\ tvOrZero rec = ofZ 0)) /\
  readNumber (VString (lit "28,5")) = Finite 285 (-1) /\
  readNumber (VString (lit " 12.50 %")) = Finite 125 (-1) /\
  readNumber (VString (lit "n/a")) = NaN /\
  readNumber (VBoolean true) = NaN.
Proof.
  split; [|conj_compute].
  intros headers ti hi si gi tvi row rec.
  pose proof (readRow_tv headers ti hi si gi tvi row) as Htv. fold rec in Htv.
  split; [exact Htv|]. split.
  - intros i n -> Hcell Hn. rewrite Htv, Hcell. cbn [isNullish].
    now rewrite readNumber_printed.
  - intros i -> Hcell Hnan. rewrite Hcell, Hnan in Htv. split; [exact Htv|].
    unfold tvOrZero, tvOf. now rewrite Htv.
Qed.

(** ** The project type of a template name *)

Lemma includes_inside (a k b : jsstring) (key : jsstring) :
  normalizeUnits k = key ->
  includes (normalizeString (VString (a ++ k ++ b))) key = true.
Proof.
  intros <-. rewrite normalizeString_units, !normalizeUnits_app.
  apply includes_spec. now exists (normalizeUnits a), (normalizeUnits b).
Qed.

(** X18.  The project type read off the raw name of the template.  A name
    that contains "ĐATN", "datn" or "KLTN" anywhere gives ĐATN whatever
    the interface says, and one that contains "KLTN" names the reports
    [KQ_KLTN]; a name that contains "BCCĐ" gives BCCĐ unless its
    normalized form also contains "datn" or "kltn". *)
Theorem project_type_of_raw_name :
  forall (a b : jsstring) (configured : projectType),
    effectiveProjectType (a ++ lit "ĐATN" ++ b) configured = DATN /\
    effectiveProjectType (a ++ lit "datn" ++ b) configured = DATN /\
    effectiveProjectType (a ++ lit "Đatn" ++ b) configured = DATN /\
    effectiveProjectType (a ++ lit "KLTN" ++ b) configured = DATN /\
    baseName (a ++ lit "KLTN" ++ b) configured = lit "KQ_KLTN" /\
    (let name := a ++ lit "BCCĐ" ++ b in
     includes (normalizeString (VString name)) (lit "datn") = false ->
     includes (normalizeString (VString name)) (lit "kltn") = false ->
     effectiveProjectType name configured = BCCD /\
     baseName name configured = lit "KQ_BCCĐ").
Proof.
  intros a b p.
  assert (H1 : includes (normalizeString (VString (a ++ lit "ĐATN" ++ b))) (lit "datn") = true)
    by (apply includes_inside; vm_compute; reflexivity).
  assert (H2 : includes (normalizeString (VString (a ++ lit "datn" ++ b))) (lit "datn") = true)
    by (apply includes_inside; vm_compute; reflexivity).
  assert (H3 : includes (normalizeString (VString (a ++ lit "Đatn" ++ b))) (lit "datn") = true)
    by (apply includes_inside; vm_compute; reflexivity).
  assert (H4 : includes (normalizeString (VString (a ++ lit "KLTN" ++ b))) (lit "kltn") = true)
    by (apply includes_inside; vm_compute; reflexivity).
  assert (H5 : includes (normalizeString (VString (a ++ lit "BCCĐ" ++ b))) (lit "bccd") = true)
    by (apply includes_inside; vm_compute; reflexivity).
  unfold effectiveProjectType, baseName.
  rewrite H1, H2, H3, H4, H5. rewrite !orb_true_r. cbn [orb].
  repeat (split; [reflexivity|]).
  intros Hd Hk. rewrite Hd, Hk. cbn [orb]. split; reflexivity.
Qed.

(** ** Rows that are dropped on reading *)

Lemma trimStart_nil (s : jsstring) : trimStart s = [] <-> forallb isWhiteSpace s = true.
Proof.
  induction s as [|c s IH]; simpl; [tauto|].
  destruct (isWhiteSpace c); [exact IH | split; discriminate].
Qed.

Lemma trimStart_visible (s : jsstring) :
  forallb isWhiteSpace (trimStart s) = true -> trimStart s = [].
Proof.
  induction s as [|c s IH]; simpl; [reflexivity|].
  destruct (isWhiteSpace c) eqn:E; [exact IH|]. simpl. now rewrite E.
Qed.

Lemma forallb_rev (A : Type) (p : A -> bool) (l : list A) :
  forallb p (rev l) = forallb p l.
Proof.
  induction l as [|x l IH]; [reflexivity|].
  cbn [rev forallb]. rewrite forallb_app, IH. cbn [forallb].
  rewrite andb_true_r. apply andb_comm.
Qed.

Lemma trim_nil (s : jsstring) : trim s = [] <-> forallb isWhiteSpace s = true.
Proof.
  unfold trim, trimEnd. split.
  - intros H. apply (f_equal (@rev N)) in H. rewrite rev_involutive in H. cbn [rev] in H.
    apply trimStart_nil in H. rewrite forallb_rev in H.
    apply trimStart_visible in H. now apply trimStart_nil.
  - intros H. apply trimStart_nil in H. now rewrite H.
Qed.

Lemma nonBlankCell_visible (cell : value) : nonBlankCell cell = visibleCell cell.
Proof.
  destruct cell as [| |[|]|n|s]; try reflexivity.
  - apply nonBlankCell_number.
  - cbn [nonBlankCell visibleCell ToString].
    destruct (trim s) as [|c r] eqn:E.
    + apply trim_nil in E. symmetry. apply not_true_is_false. intros H.
      apply existsb_exists in H as (c & Hc & Hv). rewrite forallb_forall in E.
      rewrite (E c Hc) in Hv. discriminate.
    + symmetry. destruct (existsb (fun c => negb (isWhiteSpace c)) s) eqn:Ex; [reflexivity|].
      assert (Hall : forallb isWhiteSpace s = true).
      { apply forallb_forall. intros x Hx. destruct (isWhiteSpace x) eqn:Ew; [reflexivity|].
        assert (Hex : existsb (fun c => negb (isWhiteSpace c)) s = true)
          by (apply existsb_exists; exists x; now rewrite Ew).
        congruence. }
      apply trim_nil in Hall. congruence.
Qed.

(** X19.  [readFileAsArray] keeps, in order, exactly the rows that hold a
    number, a boolean or a text with a character that is not white space;
    a row of [null]s and blank texts is dropped, and filtering twice
    changes nothing. *)
Theorem blank_rows_dropped :
  forall json : grid,
    dropBlankRows json = filter (existsb visibleCell) json /\
    dropBlankRows (dropBlankRows json) = dropBlankRows json /\
    (forall row, In row (dropBlankRows json) <->
                 In row json /\ exists cell, In cell row /\ visibleCell cell = true) /\
    (forall s, trim s = [] <-> forallb isWhiteSpace s = true).
Proof.
  intros json.
  assert (E : dropBlankRows json = filter (existsb visibleCell) json).
  { unfold dropBlankRows. apply filter_ext. intros row.
    induction row as [|c row IH]; [reflexivity|].
    cbn [existsb]. now rewrite nonBlankCell_visible, IH. }
  split; [exact E|]. split; [|split].
  - unfold dropBlankRows. apply filter_all. intros row Hrow.
    now apply filter_In in Hrow.
  - intros row. rewrite E, filter_In, existsb_exists. reflexivity.
  - apply trim_nil.
Qed.
